(** * think2x2: the state codec, the template registry and the renderer

    A shallow embedding of [js/share.js], of the template registry
    ([js/templates.js], in [src/unnamed/part_001]) and of the renderer
    ([js/matrix.js], in [src/unnamed/part_000]), together with a model of
    the JavaScript built-ins these files call ([JSON], [btoa]/[atob], the
    UTF-8 idiom around [encodeURIComponent], [parseFloat], [Math.min]),
    and the properties of the specification stated over them. *)

From Stdlib Require Import String Ascii Bool List NArith ZArith Lia.
Import ListNotations.

Set Implicit Arguments.
Set Warnings "-register-all".

(** ** JavaScript strings

    A JavaScript string is a sequence of UTF-16 code units; [length] and
    [substring] count code units, so the model keeps them as numbers. *)

Abbreviation jsstring := (list N) (only parsing).

Definition lit (s : string) : jsstring :=
  map N_of_ascii (list_ascii_of_string s).

Fixpoint str_eqb (a b : jsstring) : bool :=
  match a, b with
  | [], [] => true
  | x :: a', y :: b' => N.eqb x y && str_eqb a' b'
  | _, _ => false
  end.

(** every code unit fits 16 bits *)
Definition wf_string (s : jsstring) : Prop := Forall (fun c => (c < 65536)%N) s.

(** [s.substring(0, n)] *)
Definition substring0 (n : nat) (s : jsstring) : jsstring := firstn n s.

(** [s.substr(from, len)] *)
Definition substr (from len : nat) (s : jsstring) : jsstring :=
  firstn len (skipn from s).

Fixpoint starts_with (p s : jsstring) : bool :=
  match p, s with
  | [], _ => true
  | x :: p', y :: s' => N.eqb x y && starts_with p' s'
  | _ :: _, [] => false
  end.

(** ** JavaScript numbers

    A finite number is kept as the decimal [m * 10^e]; the canonical form
    has no trailing zero in [m], and zero is [Fin 0 0].  Every IEEE double
    is such a decimal.  Rounding, overflow and the sign of zero are not
    modelled: arithmetic is exact. *)

Inductive number :=
| NaN
| Inf (neg : bool)
| Fin (m e : Z).

Definition num_wf (n : number) : Prop :=
  match n with
  | Fin m e => (m = 0 -> e = 0)%Z /\ (m <> 0 -> m mod 10 <> 0)%Z
  | _ => True
  end.

Fixpoint strip10 (fuel : nat) (m e : Z) : Z * Z :=
  match fuel with
  | O => (m, e)
  | S f => if (m mod 10 =? 0)%Z then strip10 f (m / 10)%Z (e + 1)%Z else (m, e)
  end.

(** the canonical form of [m * 10^e] *)
Definition norm (m e : Z) : number :=
  if (m =? 0)%Z then Fin 0 0
  else let '(m', e') := strip10 (Z.to_nat (Z.log2 (Z.abs m))) m e in Fin m' e'.

Definition num_of_Z (z : Z) : number := norm z 0.

(** [a] and [b] brought to the smaller of the two exponents *)
Definition align (m1 e1 m2 e2 : Z) : Z * Z * Z :=
  let e := Z.min e1 e2 in
  ((m1 * 10 ^ (e1 - e))%Z, (m2 * 10 ^ (e2 - e))%Z, e).

Definition num_compare (a b : number) : option comparison :=
  match a, b with
  | NaN, _ | _, NaN => None
  | Inf s, Inf t => Some (if Bool.eqb s t then Eq else if s then Lt else Gt)
  | Inf s, Fin _ _ => Some (if s then Lt else Gt)
  | Fin _ _, Inf t => Some (if t then Gt else Lt)
  | Fin m1 e1, Fin m2 e2 =>
      let '(x, y, _) := align m1 e1 m2 e2 in Some (Z.compare x y)
  end.

(** [a < b] *)
Definition num_ltb (a b : number) : bool :=
  match num_compare a b with Some Lt => true | _ => false end.

(** [a <= b] *)
Definition num_leb (a b : number) : bool :=
  match num_compare a b with Some Lt | Some Eq => true | _ => false end.

(** [a === b] on numbers *)
Definition num_eqb (a b : number) : bool :=
  match num_compare a b with Some Eq => true | _ => false end.

Definition is_nan (n : number) : bool :=
  match n with NaN => true | _ => false end.

(** [Math.min(a, b)] and [Math.max(a, b)] *)
Definition Math_min (a b : number) : number :=
  if is_nan a || is_nan b then NaN else if num_ltb b a then b else a.

Definition Math_max (a b : number) : number :=
  if is_nan a || is_nan b then NaN else if num_ltb a b then b else a.

Definition num_add (a b : number) : number :=
  match a, b with
  | NaN, _ | _, NaN => NaN
  | Inf s, Inf t => if Bool.eqb s t then Inf s else NaN
  | Inf s, _ | _, Inf s => Inf s
  | Fin m1 e1, Fin m2 e2 =>
      let '(x, y, e) := align m1 e1 m2 e2 in norm (x + y) e
  end.

Definition num_neg (a : number) : number :=
  match a with
  | NaN => NaN
  | Inf s => Inf (negb s)
  | Fin m e => Fin (- m) e
  end.

Definition num_sub (a b : number) : number := num_add a (num_neg b).

Definition num_sign (a : number) : Z :=
  match a with
  | NaN => 0
  | Inf s => if s then -1 else 1
  | Fin m _ => Z.sgn m
  end.

Definition num_mul (a b : number) : number :=
  match a, b with
  | NaN, _ | _, NaN => NaN
  | Fin m1 e1, Fin m2 e2 => norm (m1 * m2) (e1 + e2)
  | _, _ =>
      match (num_sign a * num_sign b)%Z with
      | Z0 => NaN
      | Zpos _ => Inf false
      | Zneg _ => Inf true
      end
  end.

(** [a / b].  The quotient is developed to twenty more decimal digits
    than the operands carry, which is exact for the divisors the program
    uses ([2], [4] and [100]). *)
Definition num_div (a b : number) : number :=
  match a, b with
  | NaN, _ | _, NaN => NaN
  | Inf _, Inf _ => NaN
  | Inf s, Fin m _ => Inf (xorb s (m <? 0)%Z)
  | Fin _ _, Inf _ => Fin 0 0
  | Fin m1 e1, Fin m2 e2 =>
      if (m2 =? 0)%Z then
        match m1 with Z0 => NaN | Zpos _ => Inf false | Zneg _ => Inf true end
      else norm (Z.quot (m1 * 10 ^ 20) m2) (e1 - e2 - 20)
  end.

(** *** Decimal digits *)

Fixpoint digits_acc (fuel : nat) (n : N) (acc : list N) : list N :=
  match fuel with
  | O => n :: acc
  | S f => if (n <? 10)%N then n :: acc
           else digits_acc f (n / 10)%N ((n mod 10)%N :: acc)
  end.

(** the decimal digits of [n], most significant first *)
Definition digits (n : N) : list N := digits_acc (N.to_nat (N.log2 n)) n [].

Definition of_digits (ds : list N) : N :=
  fold_left (fun a d => (10 * a + d)%N) ds 0%N.

Definition digit_char (d : N) : N := (48 + d)%N.

Definition is_digit (c : N) : bool := (48 <=? c)%N && (c <=? 57)%N.

(** the longest prefix of decimal digits, as digit values, and the rest *)
Fixpoint span_digits (s : jsstring) : list N * jsstring :=
  match s with
  | c :: t =>
      if is_digit c then let '(ds, r) := span_digits t in ((c - 48)%N :: ds, r)
      else ([], s)
  | [] => ([], [])
  end.

(** *** The text of a number

    [Number::toString] chooses between plain digits, a decimal point and
    the exponent form; [ntext] is the text it writes, by parts. *)

Record ntext := {
  nt_neg : bool;
  nt_int : list N;
  nt_frac : option (list N);
  nt_exp : option (bool * list N)
}.

Definition render_digits (ds : list N) : jsstring := map digit_char ds.

Definition render_ntext (t : ntext) : jsstring :=
  (if nt_neg t then lit "-" else []) ++ render_digits (nt_int t)
  ++ match nt_frac t with
     | Some f => lit "." ++ render_digits f
     | None => []
     end
  ++ match nt_exp t with
     | Some (s, x) => lit "e" ++ (if s then lit "-" else lit "+") ++ render_digits x
     | None => []
     end.

Definition number_shape (m e : Z) : ntext :=
  let ds := digits (Z.abs_N m) in
  let k := Z.of_nat (length ds) in
  let n := (k + e)%Z in
  let neg := (m <? 0)%Z in
  if (m =? 0)%Z then
    {| nt_neg := false; nt_int := [0%N]; nt_frac := None; nt_exp := None |}
  else if (0 <=? e)%Z && (n <=? 21)%Z then
    {| nt_neg := neg; nt_int := ds ++ repeat 0%N (Z.to_nat e);
       nt_frac := None; nt_exp := None |}
  else if (0 <? n)%Z && (n <=? 21)%Z then
    {| nt_neg := neg; nt_int := firstn (Z.to_nat n) ds;
       nt_frac := Some (skipn (Z.to_nat n) ds); nt_exp := None |}
  else if (-6 <? n)%Z && (n <=? 0)%Z then
    {| nt_neg := neg; nt_int := [0%N];
       nt_frac := Some (repeat 0%N (Z.to_nat (- n)) ++ ds); nt_exp := None |}
  else
    let x := (n - 1)%Z in
    {| nt_neg := neg; nt_int := firstn 1 ds;
       nt_frac := match skipn 1 ds with [] => None | f => Some f end;
       nt_exp := Some ((x <? 0)%Z, digits (Z.abs_N x)) |}.

(** [String(n)], the text a template literal or [JSON.stringify] writes *)
Definition num_to_string (n : number) : jsstring :=
  match n with
  | NaN => lit "NaN"
  | Inf false => lit "Infinity"
  | Inf true => lit "-Infinity"
  | Fin m e => render_ntext (number_shape m e)
  end.

(** the number a sign, a digit sequence and a decimal exponent denote *)
Definition mk_fin (neg : bool) (ds : list N) (e : Z) : number :=
  let m := Z.of_N (of_digits ds) in
  norm (if neg then - m else m)%Z e.

Definition ntext_value (t : ntext) : number :=
  let f := match nt_frac t with Some f => f | None => [] end in
  let x := match nt_exp t with
           | Some (s, x) => let v := Z.of_N (of_digits x) in if s then (- v)%Z else v
           | None => 0%Z
           end in
  mk_fin (nt_neg t) (nt_int t ++ f) (x - Z.of_nat (length f)).

(** *** parseFloat on a string *)

Definition is_space (c : N) : bool :=
  existsb (N.eqb c)
    [9; 10; 11; 12; 13; 32; 160; 5760; 8192; 8193; 8194; 8195; 8196; 8197;
     8198; 8199; 8200; 8201; 8202; 8232; 8233; 8239; 8287; 12288; 65279]%N.

Fixpoint trim_start (s : jsstring) : jsstring :=
  match s with
  | c :: t => if is_space c then trim_start t else s
  | [] => []
  end.

(** the optional exponent part: [e], an optional sign, at least one digit *)
Definition scan_exp (s : jsstring) : option (Z * jsstring) :=
  match s with
  | c :: t =>
      if (c =? 101)%N || (c =? 69)%N then
        let '(neg, t') :=
          match t with
          | d :: u => if (d =? 45)%N then (true, u)
                      else if (d =? 43)%N then (false, u) else (false, t)
          | [] => (false, t)
          end in
        match span_digits t' with
        | ([], _) => None
        | (xs, r) => let v := Z.of_N (of_digits xs) in
                     Some ((if neg then - v else v)%Z, r)
        end
      else None
  | [] => None
  end.

Definition split_sign (s : jsstring) : bool * jsstring :=
  match s with
  | c :: t => if (c =? 45)%N then (true, t)
              else if (c =? 43)%N then (false, t) else (false, s)
  | [] => (false, [])
  end.

(** an optional fraction: a point and the digits after it *)
Definition read_frac (s : jsstring) : list N * jsstring :=
  match s with
  | c :: t => if (c =? 46)%N then span_digits t else ([], s)
  | [] => ([], s)
  end.

Definition head_is (p : N -> bool) (s : jsstring) : bool :=
  match s with
  | c :: _ => p c
  | [] => false
  end.

Definition is_nil {A} (l : list A) : bool :=
  match l with
  | [] => true
  | _ => false
  end.

(** [parseFloat(s)] for a string [s]: the longest prefix that is a
    decimal literal, [NaN] when there is none *)
Definition parseFloat_str (s : jsstring) : number :=
  let '(neg, s1) := split_sign (trim_start s) in
  if starts_with (lit "Infinity") s1 then Inf neg
  else
    let '(ip, s2) := span_digits s1 in
    let '(fp, s3) := read_frac s2 in
    if is_nil (ip ++ fp) then NaN
    else
      let x := match scan_exp s3 with Some (x, _) => x | None => 0%Z end in
      mk_fin neg (ip ++ fp) (x - Z.of_nat (length fp)).

(** ** JavaScript values

    The values that reach the codec are those [JSON.parse] builds, the
    objects the program's own literals build, and [undefined].  An object
    is the sequence of its own properties, in insertion order. *)

Inductive value :=
| VUndefined
| VNull
| VBool (b : bool)
| VNum (n : number)
| VStr (s : jsstring)
| VArr (xs : list value)
| VObj (fs : list (jsstring * value)).

Inductive exn := TypeError | SyntaxError | URIError | InvalidCharacterError.

Inductive res (A : Type) :=
| Ok (a : A)
| Throw (e : exn).

Arguments Ok {A} a.
Arguments Throw {A} e.

Definition rbind {A B} (m : res A) (k : A -> res B) : res B :=
  match m with
  | Ok a => k a
  | Throw e => Throw e
  end.

(** the truth value [!!v] *)
Definition truthy (v : value) : bool :=
  match v with
  | VUndefined | VNull => false
  | VBool b => b
  | VNum NaN => false
  | VNum (Fin m _) => negb (m =? 0)%Z
  | VNum (Inf _) => true
  | VStr s => match s with [] => false | _ => true end
  | VArr _ | VObj _ => true
  end.

(** [typeof v === 'string'] *)
Definition is_str (v : value) : bool :=
  match v with
  | VStr _ => true
  | _ => false
  end.

Fixpoint lookup (k : jsstring) (fs : list (jsstring * value)) : option value :=
  match fs with
  | [] => None
  | (k', v) :: r => if str_eqb k k' then Some v else lookup k r
  end.

(** [o.k] for the property names the program reads, none of which a
    prototype defines: reading from [null] or [undefined] throws, a
    primitive or an array has no such property *)
Definition get (o : value) (k : string) : res value :=
  match o with
  | VUndefined | VNull => Throw TypeError
  | VObj fs => Ok (match lookup (lit k) fs with Some v => v | None => VUndefined end)
  | _ => Ok VUndefined
  end.

(** [a || b] with [b] already a value *)
Definition or_else (a b : value) : value := if truthy a then a else b.

(** [ToString(v)].  An array joins its elements with commas, writing
    nothing for [null] and [undefined]; an object without a [toString] of
    its own is ["[object Object]"], and one whose own [toString] is data
    (never callable here) cannot be converted. *)
Fixpoint toStr (v : value) : res jsstring :=
  match v with
  | VUndefined => Ok (lit "undefined")
  | VNull => Ok (lit "null")
  | VBool b => Ok (if b then lit "true" else lit "false")
  | VNum n => Ok (num_to_string n)
  | VStr s => Ok s
  | VArr xs =>
      (fix join (l : list value) (first : bool) : res jsstring :=
         match l with
         | [] => Ok []
         | y :: l' =>
             rbind (match y with
                    | VUndefined | VNull => Ok []
                    | _ => toStr y
                    end) (fun sy =>
             rbind (join l' false) (fun sr =>
             Ok ((if first then [] else lit ",") ++ sy ++ sr)))
         end) xs true
  | VObj fs =>
      match lookup (lit "toString") fs with
      | Some _ => Throw TypeError
      | None => Ok (lit "[object Object]")
      end
  end.

(** [parseFloat(v)]: the argument is converted to a string first *)
Definition parseFloat (v : value) : res number :=
  rbind (toStr v) (fun s => Ok (parseFloat_str s)).

(** [v.substring(0, n)]: only a string has the method *)
Definition call_substring0 (v : value) (n : nat) : res value :=
  match v with
  | VStr s => Ok (VStr (substring0 n s))
  | VUndefined | VNull => Throw TypeError
  | _ => Throw TypeError
  end.

(** [names.includes(v)] for an array of string literals *)
Definition includes (names : list string) (v : value) : bool :=
  match v with
  | VStr s => existsb (fun n => str_eqb (lit n) s) names
  | _ => false
  end.

(** ** Base64: [btoa] and [atob] *)

Module Base64.

Local Open Scope N_scope.

Definition b64_char (n : N) : N :=
  if n <? 26 then 65 + n
  else if n <? 52 then 71 + n
  else if n <? 62 then n - 4
  else if n =? 62 then 43 else 47.

Definition b64_val (c : N) : option N :=
  if (65 <=? c) && (c <=? 90) then Some (c - 65)
  else if (97 <=? c) && (c <=? 122) then Some (c - 71)
  else if (48 <=? c) && (c <=? 57) then Some (c + 4)
  else if c =? 43 then Some 62
  else if c =? 47 then Some 63
  else None.

Fixpoint encode (bs : list N) : jsstring :=
  match bs with
  | [] => []
  | [a] => [b64_char (a / 4); b64_char ((a mod 4) * 16); 61; 61]
  | [a; b] =>
      [b64_char (a / 4); b64_char ((a mod 4) * 16 + b / 16);
       b64_char ((b mod 16) * 4); 61]
  | a :: b :: c :: t =>
      b64_char (a / 4) :: b64_char ((a mod 4) * 16 + b / 16)
      :: b64_char ((b mod 16) * 4 + c / 64) :: b64_char (c mod 64) :: encode t
  end.

(** [btoa(s)]: the string must be binary, every unit below 256 *)
Definition btoa (s : jsstring) : res jsstring :=
  if forallb (fun c => c <? 256) s then Ok (encode s)
  else Throw InvalidCharacterError.

Fixpoint decode (vs : list N) : list N :=
  match vs with
  | a :: b :: c :: d :: t =>
      (a * 4 + b / 16) :: ((b mod 16) * 16 + c / 4) :: ((c mod 4) * 64 + d)
      :: decode t
  | [a; b; c] => [a * 4 + b / 16; (b mod 16) * 16 + c / 4]
  | [a; b] => [a * 4 + b / 16]
  | _ => []
  end.

Fixpoint values (s : jsstring) : option (list N) :=
  match s with
  | [] => Some []
  | c :: t =>
      match b64_val c, values t with
      | Some v, Some vs => Some (v :: vs)
      | _, _ => None
      end
  end.

Definition is_ascii_ws (c : N) : bool :=
  (c =? 9) || (c =? 10) || (c =? 12) || (c =? 13) || (c =? 32).

(** one or two [=] at the end are dropped *)
Definition drop_padding (s : jsstring) : jsstring :=
  match rev s with
  | 61 :: 61 :: r => rev r
  | 61 :: r => rev r
  | _ => s
  end.

(** [atob(s)], the forgiving decoder of the HTML standard *)
Definition atob (s : jsstring) : res jsstring :=
  let s1 := filter (fun c => negb (is_ascii_ws c)) s in
  let s2 := if (Nat.modulo (length s1) 4 =? 0)%nat then drop_padding s1 else s1 in
  if (Nat.modulo (length s2) 4 =? 1)%nat then Throw InvalidCharacterError
  else match values s2 with
       | Some vs => Ok (decode vs)
       | None => Throw InvalidCharacterError
       end.

End Base64.

(** ** UTF-8

    [unescape(encodeURIComponent(s))] writes the UTF-8 bytes of [s] as a
    binary string and fails on a lone surrogate;
    [decodeURIComponent(escape(b))] reads them back and fails on anything
    that is not the UTF-8 form of a code point. *)

Module Utf8.

Local Open Scope N_scope.

Definition is_high (c : N) : bool := (55296 <=? c) && (c <? 56320).
Definition is_low (c : N) : bool := (56320 <=? c) && (c <? 57344).
Definition is_cont (b : N) : bool := (128 <=? b) && (b <? 192).

Fixpoint encode (s : jsstring) : res jsstring :=
  match s with
  | [] => Ok []
  | c :: t =>
      if c <? 128 then rbind (encode t) (fun r => Ok (c :: r))
      else if c <? 2048 then
        rbind (encode t) (fun r => Ok (192 + c / 64 :: 128 + c mod 64 :: r))
      else if is_high c then
        match t with
        | d :: t' =>
            if is_low d then
              let cp := 65536 + (c - 55296) * 1024 + (d - 56320) in
              rbind (encode t') (fun r =>
                Ok (240 + cp / 262144 :: 128 + (cp / 4096) mod 64
                    :: 128 + (cp / 64) mod 64 :: 128 + cp mod 64 :: r))
            else Throw URIError
        | [] => Throw URIError
        end
      else if is_low c then Throw URIError
      else
        rbind (encode t) (fun r =>
          Ok (224 + c / 4096 :: 128 + (c / 64) mod 64 :: 128 + c mod 64 :: r))
  end.

Fixpoint decode (bs : jsstring) : res jsstring :=
  match bs with
  | [] => Ok []
  | b :: t =>
      if b <? 128 then rbind (decode t) (fun r => Ok (b :: r))
      else if b <? 192 then Throw URIError
      else if b <? 224 then
        match t with
        | b1 :: t' =>
            let cp := (b - 192) * 64 + (b1 - 128) in
            if is_cont b1 && (128 <=? cp) then
              rbind (decode t') (fun r => Ok (cp :: r))
            else Throw URIError
        | _ => Throw URIError
        end
      else if b <? 240 then
        match t with
        | b1 :: b2 :: t' =>
            let cp := (b - 224) * 4096 + (b1 - 128) * 64 + (b2 - 128) in
            if is_cont b1 && is_cont b2 && (2048 <=? cp)
               && negb (is_high cp || is_low cp) then
              rbind (decode t') (fun r => Ok (cp :: r))
            else Throw URIError
        | _ => Throw URIError
        end
      else if b <? 248 then
        match t with
        | b1 :: b2 :: b3 :: t' =>
            let cp := (b - 240) * 262144 + (b1 - 128) * 4096
                      + (b2 - 128) * 64 + (b3 - 128) in
            if is_cont b1 && is_cont b2 && is_cont b3
               && (65536 <=? cp) && (cp <? 1114112) then
              rbind (decode t') (fun r =>
                Ok (55296 + (cp - 65536) / 1024
                    :: 56320 + (cp - 65536) mod 1024 :: r))
            else Throw URIError
        | _ => Throw URIError
        end
      else Throw URIError
  end.

End Utf8.

(** ** JSON *)

Module JSON.

Local Open Scope N_scope.

Definition hex_char (n : N) : N := if n <? 10 then 48 + n else 87 + n.

Definition hex_val (c : N) : option N :=
  if (48 <=? c) && (c <=? 57) then Some (c - 48)
  else if (97 <=? c) && (c <=? 102) then Some (c - 87)
  else if (65 <=? c) && (c <=? 70) then Some (c - 55)
  else None.

(** [\uXXXX] *)
Definition esc_u (c : N) : jsstring :=
  [92; 117; hex_char (c / 4096); hex_char ((c / 256) mod 16);
   hex_char ((c / 16) mod 16); hex_char (c mod 16)].

Definition quote_unit (c : N) : jsstring :=
  if c =? 8 then [92; 98]
  else if c =? 9 then [92; 116]
  else if c =? 10 then [92; 110]
  else if c =? 12 then [92; 102]
  else if c =? 13 then [92; 114]
  else if c =? 34 then [92; 34]
  else if c =? 92 then [92; 92]
  else if c <? 32 then esc_u c
  else [c].

(** the characters of a string between the quotes; a surrogate that has
    no partner is written as an escape *)
Fixpoint quote_body (s : jsstring) : jsstring :=
  match s with
  | [] => []
  | c :: t =>
      if Utf8.is_high c then
        match t with
        | d :: t' =>
            if Utf8.is_low d then c :: d :: quote_body t'
            else esc_u c ++ quote_body t
        | [] => esc_u c
        end
      else if Utf8.is_low c then esc_u c ++ quote_body t
      else quote_unit c ++ quote_body t
  end.

Definition quote (s : jsstring) : jsstring := 34 :: quote_body s ++ [34].

Fixpoint join (parts : list jsstring) : jsstring :=
  match parts with
  | [] => []
  | [p] => p
  | p :: r => p ++ 44 :: join r
  end.

(** the text of a value, [None] where [JSON.stringify] gives [undefined] *)
Fixpoint text (v : value) : option jsstring :=
  match v with
  | VUndefined => None
  | VNull => Some (lit "null")
  | VBool b => Some (if b then lit "true" else lit "false")
  | VNum n => Some (match n with
                    | Fin _ _ => num_to_string n
                    | _ => lit "null"
                    end)
  | VStr s => Some (quote s)
  | VArr xs =>
      Some (91 :: join (map (fun x => match text x with
                                      | Some t => t
                                      | None => lit "null"
                                      end) xs) ++ [93])
  | VObj fs =>
      Some (123 :: join (flat_map (fun kv => match text (snd kv) with
                                             | Some t => [quote (fst kv) ++ 58 :: t]
                                             | None => []
                                             end) fs) ++ [125])
  end.

(** [JSON.stringify(v)]; [undefined] is [VUndefined] *)
Definition stringify (v : value) : value :=
  match text v with
  | Some t => VStr t
  | None => VUndefined
  end.

Definition is_ws (c : N) : bool :=
  (c =? 32) || (c =? 9) || (c =? 10) || (c =? 13).

Fixpoint skip_ws (s : jsstring) : jsstring :=
  match s with
  | c :: t => if is_ws c then skip_ws t else s
  | [] => []
  end.

Definition unescape (e : N) : option N :=
  if e =? 34 then Some 34
  else if e =? 92 then Some 92
  else if e =? 47 then Some 47
  else if e =? 98 then Some 8
  else if e =? 102 then Some 12
  else if e =? 110 then Some 10
  else if e =? 114 then Some 13
  else if e =? 116 then Some 9
  else None.

Definition prepend (c : N) (r : option (jsstring * jsstring))
  : option (jsstring * jsstring) :=
  match r with
  | Some (cs, rest) => Some (c :: cs, rest)
  | None => None
  end.

(** the characters up to the closing quote *)
Fixpoint parse_chars (s : jsstring) : option (jsstring * jsstring) :=
  match s with
  | [] => None
  | c :: t =>
      if c =? 34 then Some ([], t)
      else if c =? 92 then
        match t with
        | e :: t' =>
            if e =? 117 then
              match t' with
              | h1 :: h2 :: h3 :: h4 :: t'' =>
                  match hex_val h1, hex_val h2, hex_val h3, hex_val h4 with
                  | Some a, Some b, Some c', Some d =>
                      prepend (a * 4096 + b * 256 + c' * 16 + d) (parse_chars t'')
                  | _, _, _, _ => None
                  end
              | _ => None
              end
            else match unescape e with
                 | Some x => prepend x (parse_chars t')
                 | None => None
                 end
        | [] => None
        end
      else if c <? 32 then None
      else prepend c (parse_chars t)
  end.

Definition leading_zero (ds : list N) : bool :=
  match ds with
  | 0 :: _ :: _ => true
  | _ => false
  end.

Definition is_e (c : N) : bool := (c =? 101) || (c =? 69).

(** a number: [-]? int frac? exp?.  The parts are read as [parseFloat]
    reads them; the text is refused when the integer part is missing or
    starts with a needless zero, when a point has no digit after it, or
    when an [e] has no exponent after it. *)
Definition parse_number (s : jsstring) : option (number * jsstring) :=
  let '(neg, s1) := if head_is (N.eqb 45) s then (true, tl s) else (false, s) in
  let '(ip, s2) := span_digits s1 in
  let '(fp, s3) := read_frac s2 in
  let ex := scan_exp s3 in
  let '(x, s4) := match ex with
                  | Some (x, s4) => (x, s4)
                  | None => (0%Z, s3)
                  end in
  if is_nil ip || leading_zero ip
     || (head_is (N.eqb 46) s2 && is_nil fp)
     || (head_is is_e s3 && match ex with None => true | Some _ => false end)
  then None
  else Some (mk_fin neg (ip ++ fp) (x - Z.of_nat (length fp)), s4).

(** [o[k] = v] on the own properties: an existing key keeps its place *)
Fixpoint obj_set (k : jsstring) (v : value) (fs : list (jsstring * value))
  : list (jsstring * value) :=
  match fs with
  | [] => [(k, v)]
  | (k', v') :: r => if str_eqb k k' then (k, v) :: r else (k', v') :: obj_set k v r
  end.

Definition obj_of (ps : list (jsstring * value)) : list (jsstring * value) :=
  fold_left (fun o kv => obj_set (fst kv) (snd kv) o) ps [].

(** The parser: [parse_value] reads one value after optional white space,
    [parse_elems] the elements of an array after its first bracket,
    [parse_members] the members of an object.  [fuel] bounds the number
    of calls; the length of the text is enough. *)
Fixpoint parse_value (fuel : nat) (s : jsstring) : option (value * jsstring) :=
  match fuel with
  | O => None
  | S f =>
      match skip_ws s with
      | [] => None
      | c :: t =>
          if c =? 34 then
            match parse_chars t with
            | Some (cs, r) => Some (VStr cs, r)
            | None => None
            end
          else if c =? 91 then
            match skip_ws t with
            | d :: r => if d =? 93 then Some (VArr [], r)
                        else match parse_elems f t with
                             | Some (vs, r') => Some (VArr vs, r')
                             | None => None
                             end
            | [] => None
            end
          else if c =? 123 then
            match skip_ws t with
            | d :: r => if d =? 125 then Some (VObj [], r)
                        else match parse_members f t with
                             | Some (ps, r') => Some (VObj (obj_of ps), r')
                             | None => None
                             end
            | [] => None
            end
          else if starts_with (lit "true") (c :: t) then
            Some (VBool true, skipn 4 (c :: t))
          else if starts_with (lit "false") (c :: t) then
            Some (VBool false, skipn 5 (c :: t))
          else if starts_with (lit "null") (c :: t) then
            Some (VNull, skipn 4 (c :: t))
          else match parse_number (c :: t) with
               | Some (n, r) => Some (VNum n, r)
               | None => None
               end
      end
  end
with parse_elems (fuel : nat) (s : jsstring) : option (list value * jsstring) :=
  match fuel with
  | O => None
  | S f =>
      match parse_value f s with
      | Some (v, r) =>
          match skip_ws r with
          | c :: r' =>
              if c =? 44 then
                match parse_elems f r' with
                | Some (vs, r'') => Some (v :: vs, r'')
                | None => None
                end
              else if c =? 93 then Some ([v], r')
              else None
          | [] => None
          end
      | None => None
      end
  end
with parse_members (fuel : nat) (s : jsstring)
  : option (list (jsstring * value) * jsstring) :=
  match fuel with
  | O => None
  | S f =>
      match skip_ws s with
      | q :: t =>
          if q =? 34 then
            match parse_chars t with
            | Some (k, r) =>
                match skip_ws r with
                | c :: r1 =>
                    if c =? 58 then
                      match parse_value f r1 with
                      | Some (v, r2) =>
                          match skip_ws r2 with
                          | d :: r3 =>
                              if d =? 44 then
                                match parse_members f r3 with
                                | Some (ps, r4) => Some ((k, v) :: ps, r4)
                                | None => None
                                end
                              else if d =? 125 then Some ([(k, v)], r3)
                              else None
                          | [] => None
                          end
                      | None => None
                      end
                    else None
                | [] => None
                end
            | None => None
            end
          else None
      | [] => None
      end
  end.

(** [JSON.parse(s)] *)
Definition parse (s : jsstring) : res value :=
  match parse_value (S (length s)) s with
  | Some (v, r) => match skip_ws r with
                   | [] => Ok v
                   | _ => Throw SyntaxError
                   end
  | None => Throw SyntaxError
  end.

End JSON.

(** ** The environment: clock, random source and console *)

Inductive entry :=
| warn (msg : string) (v : value)
| error (msg : string) (e : exn).

Record world := {
  date_now : nat -> Z;          (* the value of the n-th [Date.now()] *)
  random36 : nat -> jsstring;   (* the n-th [Math.random().toString(36)] *)
  tick : nat;                   (* how many identifiers were drawn *)
  console : list entry
}.

Definition M (A : Type) := world -> res A * world.

Definition ret {A} (a : A) : M A := fun w => (Ok a, w).

Definition throw {A} (e : exn) : M A := fun w => (Throw e, w).

Definition bind {A B} (m : M A) (k : A -> M B) : M B :=
  fun w => match m w with
           | (Ok a, w') => k a w'
           | (Throw e, w') => (Throw e, w')
           end.

Definition lift {A} (r : res A) : M A := fun w => (r, w).

Declare Scope js_scope.
Delimit Scope js_scope with js.
Notation "x <- m ;; k" := (bind m (fun x => k))
  (at level 61, m at next level, right associativity) : js_scope.
Notation "' pat <- m ;; k" := (bind m (fun x => match x with pat => k end))
  (at level 61, pat pattern, m at next level, right associativity) : js_scope.

(** [arr.map(f)] with a callback that may throw or draw an identifier *)
Fixpoint mapM {A B} (f : A -> M B) (l : list A) : M (list B) :=
  match l with
  | [] => ret []
  | x :: t => (y <- f x ;; r <- mapM f t ;; ret (y :: r))%js
  end.

Definition console_warn (msg : string) (v : value) : M unit :=
  fun w => (Ok tt, {| date_now := date_now w; random36 := random36 w;
                      tick := tick w; console := console w ++ [warn msg v] |}).

Definition console_error (msg : string) (e : exn) : M unit :=
  fun w => (Ok tt, {| date_now := date_now w; random36 := random36 w;
                      tick := tick w; console := console w ++ [error msg e] |}).

(** the identifier the [n]-th draw of world [w] gives:
    [`point_${Date.now()}_${Math.random().toString(36).substr(2, 9)}`] *)
Definition point_id (w : world) (n : nat) : jsstring :=
  lit "point_" ++ num_to_string (num_of_Z (date_now w n)) ++ lit "_"
  ++ substr 2 9 (random36 w n).

Definition fresh_id : M value :=
  fun w => (Ok (VStr (point_id w (tick w))),
            {| date_now := date_now w; random36 := random36 w;
               tick := S (tick w); console := console w |}).

(** ** js/share.js

    The calls of [log], which writes to the console on a development
    host only, are left out. *)

Module Share.

Local Open Scope js_scope.

(** [Math.max(0, Math.min(100, parseFloat(c) || 0))] *)
Definition clamp_coord (c : value) : res value :=
  rbind (parseFloat c) (fun n =>
  let n' := if truthy (VNum n) then n else Fin 0 0 in
  Ok (VNum (Math_max (Fin 0 0) (Math_min (Fin 1 2) n')))).

(** the callback of [.filter(p => p && p.label)] *)
Definition has_label (p : value) : bool :=
  truthy p &&
  match get p "label" with
  | Ok l => truthy l
  | Throw _ => false
  end.

(** the callback of [.map(point => ({label, x, y, id}))] *)
Definition sanitizePoint (point : value) : M value :=
  l <- lift (get point "label") ;;
  label <- lift (call_substring0 (or_else l (VStr [])) 50) ;;
  px <- lift (get point "x") ;;
  x <- lift (clamp_coord px) ;;
  py <- lift (get point "y") ;;
  y <- lift (clamp_coord py) ;;
  pid <- lift (get point "id") ;;
  id <- (if truthy pid then ret pid else fresh_id) ;;
  ret (VObj [(lit "label", label); (lit "x", x); (lit "y", y); (lit "id", id)]).

Definition sanitizeState (data : value) : M value :=
  if negb (truthy data) then ret VNull
  else
    t <- lift (get data "title") ;;
    title <- lift (call_substring0 (or_else t (VStr [])) 100) ;;
    s <- lift (get data "subtitle") ;;
    subtitle <- lift (call_substring0 (or_else s (VStr [])) 100) ;;
    xa <- lift (get data "xAxisName") ;;
    xAxisName <- lift (call_substring0 (or_else xa (VStr (lit "X Axis"))) 50) ;;
    ya <- lift (get data "yAxisName") ;;
    yAxisName <- lift (call_substring0 (or_else ya (VStr (lit "Y Axis"))) 50) ;;
    tm <- lift (get data "template") ;;
    let template :=
      if includes ["minimal"; "modern"; "vibrant"]%string tm then tm
      else VStr (lit "modern") in
    dp <- lift (get data "dataPoints") ;;
    dataPoints <-
      match dp with
      | VArr pts => mapM sanitizePoint (firstn 100 (filter has_label pts))
      | _ => ret []
      end ;;
    ret (VObj [(lit "title", title); (lit "subtitle", subtitle);
               (lit "xAxisName", xAxisName); (lit "yAxisName", yAxisName);
               (lit "template", template); (lit "dataPoints", VArr dataPoints)]).

(** [.replace(/\+/g, '-').replace(/\//g, '_').replace(/=+$/, '')] *)
Fixpoint strip_trailing_eq (s : jsstring) : jsstring :=
  match s with
  | [] => []
  | c :: t => match strip_trailing_eq t with
              | [] => if (c =? 61)%N then [] else [c]
              | r => c :: r
              end
  end.

Definition replace_all (a b : N) (s : jsstring) : jsstring :=
  map (fun c => if (c =? a)%N then b else c) s.

Definition urlSafe (base64 : jsstring) : jsstring :=
  strip_trailing_eq (replace_all 47 95 (replace_all 43 45 base64)).

(** [(data.dataPoints || []).map(point => ...)]: a truthy value that is
    not an array has no [map] *)
Definition map_array {A} (v : value) (f : value -> M A) : M (list A) :=
  match or_else v (VArr []) with
  | VArr xs => mapM f xs
  | _ => throw TypeError
  end.

Definition try_catch (body : M value) (msg : string) : world -> value * world :=
  fun w => match body w with
           | (Ok v, w') => (v, w')
           | (Throw e, w') => (VNull, snd (console_error msg e w'))
           end.

(** the callback of [.map(point => ({l, x, y}))] *)
Definition encodePoint (point : value) : M value :=
  l <- lift (get point "label") ;;
  px <- lift (get point "x") ;;
  py <- lift (get point "y") ;;
  ret (VObj [(lit "l", l); (lit "x", px); (lit "y", py)]).

Definition encodeBody (data : value) : M value :=
  t <- lift (get data "title") ;;
  s <- lift (get data "subtitle") ;;
  x <- lift (get data "xAxisName") ;;
  y <- lift (get data "yAxisName") ;;
  tm <- lift (get data "template") ;;
  dp <- lift (get data "dataPoints") ;;
  p <- map_array dp encodePoint ;;
  let state :=
    VObj [(lit "v", VNum (Fin 1 0));
          (lit "t", or_else t (VStr []));
          (lit "s", or_else s (VStr []));
          (lit "x", or_else x (VStr []));
          (lit "y", or_else y (VStr []));
          (lit "tm", or_else tm (VStr (lit "modern")));
          (lit "p", VArr p)] in
  jsonString <- lift (toStr (JSON.stringify state)) ;;
  bytes <- lift (Utf8.encode jsonString) ;;
  base64 <- lift (Base64.btoa bytes) ;;
  ret (VStr (urlSafe base64)).

Definition encodeState (data : value) : world -> value * world :=
  try_catch (encodeBody data) "Failed to encode state:".

(** [while (base64.length % 4) base64 += '='], at most three rounds *)
Fixpoint pad4 (rounds : nat) (base64 : jsstring) : jsstring :=
  match rounds with
  | O => base64
  | S r => if (Nat.modulo (length base64) 4 =? 0)%nat then base64
           else pad4 r (base64 ++ [61%N])
  end.

(** the token read back as the parsed record *)
Definition decodeJSON (encoded : jsstring) : res value :=
  let base64 := pad4 3 (replace_all 95 47 (replace_all 45 43 encoded)) in
  rbind (Base64.atob base64) (fun bytes =>
  rbind (Utf8.decode bytes) (fun jsonString =>
  JSON.parse jsonString)).

(** [state.v !== 1] *)
Definition not_version1 (v : value) : bool :=
  match v with
  | VNum n => negb (num_eqb n (Fin 1 0))
  | _ => true
  end.

(** the callback of [.map(p => ({label, x, y, id}))], a new identifier
    for every point *)
Definition decodePoint (p : value) : M value :=
  l <- lift (get p "l") ;;
  px <- lift (get p "x") ;;
  py <- lift (get p "y") ;;
  id <- fresh_id ;;
  ret (VObj [(lit "label", l); (lit "x", px); (lit "y", py); (lit "id", id)]).

(** the record read as chart data *)
Definition decodeRecord (state : value) : M value :=
  v <- lift (get state "v") ;;
  _ <- (if not_version1 v then console_warn "Unknown state version:" v else ret tt) ;;
  t <- lift (get state "t") ;;
  s <- lift (get state "s") ;;
  x <- lift (get state "x") ;;
  y <- lift (get state "y") ;;
  tm <- lift (get state "tm") ;;
  sp <- lift (get state "p") ;;
  dataPoints <- map_array sp decodePoint ;;
  ret (VObj [(lit "title", or_else t (VStr []));
             (lit "subtitle", or_else s (VStr []));
             (lit "xAxisName", or_else x (VStr []));
             (lit "yAxisName", or_else y (VStr []));
             (lit "template", or_else tm (VStr (lit "modern")));
             (lit "dataPoints", VArr dataPoints)]).

(** A token that is falsy or has length 0 gives [null] at once.  A truthy
    value other than a string has no [replace] method, so the call
    throws inside the [try]. *)
Definition decodeBody (encoded : value) : M value :=
  if negb (truthy encoded) then ret VNull
  else
    match encoded with
    | VStr s => state <- lift (decodeJSON s) ;; decodeRecord state
    | VArr [] => ret VNull
    | VObj fs =>
        match lookup (lit "length") fs with
        | Some (VNum n) => if num_eqb n (Fin 0 0) then ret VNull else throw TypeError
        | _ => throw TypeError
        end
    | _ => throw TypeError
    end.

Definition decodeState (encoded : value) : world -> value * world :=
  try_catch (decodeBody encoded) "Failed to decode state:".

(** [typeof c !== 'number' || c < 0 || c > 100] *)
Definition bad_coord (c : value) : bool :=
  match c with
  | VNum n => num_ltb n (Fin 0 0) || num_ltb (Fin 1 2) n
  | _ => true
  end.

(** [!v || typeof v !== 'string'] *)
Definition not_text (v : value) : bool := negb (truthy v) || negb (is_str v).

(** the errors the callback of [data.dataPoints.forEach] pushes *)
Definition validatePoint (index : nat) (point : value) : res (list jsstring) :=
  rbind (get point "label") (fun l =>
  rbind (get point "x") (fun px =>
  rbind (get point "y") (fun py =>
  let n := lit "Point " ++ num_to_string (num_of_Z (Z.of_nat index + 1)) in
  Ok ((if not_text l then [n ++ lit ": Invalid label"] else [])
      ++ (if bad_coord px then [n ++ lit ": Invalid X value"] else [])
      ++ (if bad_coord py then [n ++ lit ": Invalid Y value"] else []))))).

Fixpoint validatePoints (index : nat) (points : list value) : res (list jsstring) :=
  match points with
  | [] => Ok []
  | point :: r =>
      rbind (validatePoint index point) (fun a =>
      rbind (validatePoints (S index) r) (fun b => Ok (a ++ b)))
  end.

(** [validateState(data).errors] *)
Definition validateState (data : value) : res (list jsstring) :=
  if negb (truthy data) then Ok [lit "No data provided"]
  else
    rbind (get data "title") (fun t =>
    rbind (get data "xAxisName") (fun xa =>
    rbind (get data "yAxisName") (fun ya =>
    rbind (get data "template") (fun tm =>
    rbind (get data "dataPoints") (fun dp =>
    rbind (match dp with
           | VArr pts => validatePoints 0 pts
           | _ => Ok []
           end) (fun points =>
    Ok ((if not_text t then [lit "Invalid or missing title"] else [])
        ++ (if not_text xa then [lit "Invalid or missing X-axis name"] else [])
        ++ (if not_text ya then [lit "Invalid or missing Y-axis name"] else [])
        ++ (if not_text tm then [lit "Invalid or missing template"] else [])
        ++ points))))))).

(** [validateState(data).isValid] *)
Definition isValid (data : value) : bool :=
  match validateState data with
  | Ok [] => true
  | _ => false
  end.

End Share.

Unset Implicit Arguments.

(** ** js/templates.js ([src/unnamed/part_001])

    The registry is a module-level object whose templates hold nested
    objects (the quadrant colours) and arrays (the point palette).  The
    code hands out copies of templates, so the model keeps the objects in
    a store and the references between them. *)

Module Templates.

Definition loc := nat.

(** what a property holds: a primitive, or a reference into the store *)
Inductive tval :=
| TUndef
| TStr (s : jsstring)
| TNum (n : number)
| TBool (b : bool)
| TRef (l : loc).

(** a stored object: its own properties in insertion order, or the items
    of an array *)
Inductive cell :=
| CObj (props : list (jsstring * tval))
| CArr (items : list tval).

Definition store := list cell.

Fixpoint props_get (k : jsstring) (ps : list (jsstring * tval)) : tval :=
  match ps with
  | [] => TUndef
  | (k', v) :: r => if str_eqb k k' then v else props_get k r
  end.

Fixpoint props_set (k : jsstring) (v : tval) (ps : list (jsstring * tval))
  : list (jsstring * tval) :=
  match ps with
  | [] => [(k, v)]
  | (k', v') :: r => if str_eqb k k' then (k, v) :: r else (k', v') :: props_set k v r
  end.

(** [o.k] for the object at [l] *)
Definition get_prop (h : store) (l : loc) (k : string) : tval :=
  match nth_error h l with
  | Some (CObj ps) => props_get (lit k) ps
  | _ => TUndef
  end.

(** [a[i]] for the array at [l] *)
Definition get_item (h : store) (l : loc) (i : nat) : tval :=
  match nth_error h l with
  | Some (CArr items) => nth i items TUndef
  | _ => TUndef
  end.

Fixpoint update {A} (l : list A) (i : nat) (x : A) : list A :=
  match l, i with
  | [], _ => []
  | _ :: r, O => x :: r
  | y :: r, S j => y :: update r j x
  end.

(** [o.k = v] for the object at [l] *)
Definition set_prop (h : store) (l : loc) (k : string) (v : tval) : store :=
  match nth_error h l with
  | Some (CObj ps) => update h l (CObj (props_set (lit k) v ps))
  | _ => h
  end.

(** [a[i] = v] for the array at [l], [i] within its length *)
Definition set_item (h : store) (l : loc) (i : nat) (v : tval) : store :=
  match nth_error h l with
  | Some (CArr items) => update h l (CArr (update items i v))
  | _ => h
  end.

(** a new object; its reference is the next free location *)
Definition alloc (h : store) (c : cell) : loc * store := (length h, h ++ [c]).

Definition S_ (s : string) : tval := TStr (lit s).
Definition N_ (z : Z) : tval := TNum (num_of_Z z).

(** the locations of the module-level objects *)
Definition templates : loc := 0.
Definition minimal : loc := 1.
Definition minimal_quadrants : loc := 2.
Definition modern : loc := 3.
Definition modern_quadrants : loc := 4.
Definition modern_pointColors : loc := 5.
Definition vibrant : loc := 6.
Definition vibrant_quadrants : loc := 7.
Definition vibrant_pointColors : loc := 8.

Definition P_ (k : string) (v : tval) : jsstring * tval := (lit k, v).

(** the store once the module is loaded *)
Definition registry : store :=
  [ CObj [P_ "minimal" (TRef minimal); P_ "modern" (TRef modern);
          P_ "vibrant" (TRef vibrant)];
    CObj [P_ "name" (S_ "Minimal");
          P_ "description" (S_ "Clean monochrome design with thin lines");
          P_ "background" (S_ "#ffffff"); P_ "gridColor" (S_ "#e0e0e0");
          P_ "axisColor" (S_ "#333333"); P_ "textColor" (S_ "#333333");
          P_ "titleColor" (S_ "#000000");
          P_ "quadrants" (TRef minimal_quadrants);
          P_ "pointColor" (S_ "#333333"); P_ "pointRadius" (N_ 6);
          P_ "pointStroke" (S_ "#ffffff"); P_ "pointStrokeWidth" (N_ 2);
          P_ "gridLineWidth" (N_ 1); P_ "axisLineWidth" (N_ 2);
          P_ "titleFontSize" (N_ 32); P_ "subtitleFontSize" (N_ 18);
          P_ "axisFontSize" (N_ 14); P_ "labelFontSize" (N_ 12);
          P_ "footerFontSize" (N_ 10);
          P_ "padding" (N_ 60); P_ "titleMargin" (N_ 20);
          P_ "showQuadrantLabels" (TBool false); P_ "showGrid" (TBool true);
          P_ "pointShadow" (TBool false)];
    CObj [P_ "topLeft" (S_ "#fafafa"); P_ "topRight" (S_ "#f5f5f5");
          P_ "bottomLeft" (S_ "#f0f0f0"); P_ "bottomRight" (S_ "#fafafa")];
    CObj [P_ "name" (S_ "Modern");
          P_ "description" (S_ "Contemporary design with color accents and grid");
          P_ "background" (S_ "#ffffff"); P_ "gridColor" (S_ "#e8e8e8");
          P_ "axisColor" (S_ "#2c3e50"); P_ "textColor" (S_ "#34495e");
          P_ "titleColor" (S_ "#1a252f");
          P_ "quadrants" (TRef modern_quadrants);
          P_ "pointColors" (TRef modern_pointColors); P_ "pointRadius" (N_ 8);
          P_ "pointStroke" (S_ "#ffffff"); P_ "pointStrokeWidth" (N_ 3);
          P_ "gridLineWidth" (N_ 1); P_ "axisLineWidth" (N_ 3);
          P_ "titleFontSize" (N_ 36); P_ "subtitleFontSize" (N_ 20);
          P_ "axisFontSize" (N_ 16); P_ "labelFontSize" (N_ 13);
          P_ "footerFontSize" (N_ 10);
          P_ "padding" (N_ 70); P_ "titleMargin" (N_ 25);
          P_ "showQuadrantLabels" (TBool true);
          P_ "quadrantLabelOpacity" (TNum (Fin 6 (-1)));
          P_ "showGrid" (TBool true); P_ "pointShadow" (TBool true)];
    CObj [P_ "topLeft" (S_ "#e3f2fd"); P_ "topRight" (S_ "#e8f5e9");
          P_ "bottomLeft" (S_ "#fff3e0"); P_ "bottomRight" (S_ "#fce4ec")];
    CArr [S_ "#2196f3"; S_ "#4caf50"; S_ "#ff9800"; S_ "#e91e63"; S_ "#9c27b0";
          S_ "#00bcd4"];
    CObj [P_ "name" (S_ "Vibrant");
          P_ "description" (S_ "Bold colors and high contrast for impact");
          P_ "background" (S_ "#ffffff"); P_ "gridColor" (S_ "#cccccc");
          P_ "axisColor" (S_ "#222222"); P_ "textColor" (S_ "#222222");
          P_ "titleColor" (S_ "#000000");
          P_ "quadrants" (TRef vibrant_quadrants);
          P_ "quadrantOpacity" (TNum (Fin 3 (-1)));
          P_ "pointColors" (TRef vibrant_pointColors); P_ "pointRadius" (N_ 10);
          P_ "pointStroke" (S_ "#ffffff"); P_ "pointStrokeWidth" (N_ 3);
          P_ "gridLineWidth" (N_ 2); P_ "axisLineWidth" (N_ 4);
          P_ "titleFontSize" (N_ 40); P_ "subtitleFontSize" (N_ 22);
          P_ "axisFontSize" (N_ 18); P_ "labelFontSize" (N_ 14);
          P_ "footerFontSize" (N_ 11);
          P_ "padding" (N_ 80); P_ "titleMargin" (N_ 30);
          P_ "showQuadrantLabels" (TBool true);
          P_ "quadrantLabelOpacity" (TNum (Fin 8 (-1)));
          P_ "showGrid" (TBool true); P_ "pointShadow" (TBool true);
          P_ "boldAxisLabels" (TBool true)];
    CObj [P_ "topLeft" (S_ "#ffeb3b"); P_ "topRight" (S_ "#4caf50");
          P_ "bottomLeft" (S_ "#ff5722"); P_ "bottomRight" (S_ "#2196f3")];
    CArr [S_ "#d32f2f"; S_ "#7b1fa2"; S_ "#1976d2"; S_ "#388e3c"; S_ "#f57c00";
          S_ "#c2185b"] ].

(** [!!v] *)
Definition t_truthy (v : tval) : bool :=
  match v with
  | TUndef => false
  | TStr s => negb (is_nil s)
  | TNum n => truthy (VNum n)
  | TBool b => b
  | TRef _ => true
  end.

(** [templates[name] || templates.modern].  The properties of the registry
    object hold references to the template objects, and no code assigns
    to them; the properties it inherits from [Object.prototype] are not
    modelled. *)
Definition lookup_template (h : store) (name : jsstring) : loc :=
  match nth_error h templates with
  | Some (CObj ps) =>
      match (if t_truthy (props_get name ps) then props_get name ps
             else props_get (lit "modern") ps) with
      | TRef l => l
      | _ => modern
      end
  | _ => modern
  end.

(** [{ ...template }]: a new object with the own properties of the
    template, each holding what the template's property holds *)
Definition spread (h : store) (l : loc) : loc * store :=
  match nth_error h l with
  | Some (CObj ps) => alloc h (CObj ps)
  | _ => alloc h (CObj [])
  end.

Definition getTemplate (h : store) (templateName : jsstring) : loc * store :=
  spread h (lookup_template h templateName).

(** the content reachable from a value, references followed to depth [d] *)
Inductive content :=
| Leaf (v : tval)
| Node (props : list (jsstring * content))
| Items (items : list content).

Fixpoint snapshot (d : nat) (h : store) (v : tval) : content :=
  match d, v with
  | S d', TRef l =>
      match nth_error h l with
      | Some (CObj ps) => Node (map (fun kv => (fst kv, snapshot d' h (snd kv))) ps)
      | Some (CArr items) => Items (map (snapshot d' h) items)
      | None => Leaf v
      end
  | _, _ => Leaf v
  end.

(** the content of the template a call of [getTemplate] returns *)
Definition template_content (h : store) (name : jsstring) : content :=
  let '(l, h') := getTemplate h name in snapshot 2 h' (TRef l).

(** [getPointColor(templateName, index)] *)
Definition getPointColor (h : store) (templateName : jsstring) (index : nat) : tval :=
  let t := lookup_template h templateName in
  let single := if t_truthy (get_prop h t "pointColor")
                then get_prop h t "pointColor" else S_ "#333333" in
  match get_prop h t "pointColors" with
  | TRef a =>
      match nth_error h a with
      | Some (CArr items) => nth (Nat.modulo index (length items)) items TUndef
      | _ => single
      end
  | _ => single
  end.

End Templates.

(** ** js/matrix.js (in [src/unnamed/part_000])

    The markup is kept as a tree: an element has a tag, attributes and
    children, and an attribute keeps the value the template literal
    interpolates instead of its digits.  The spacing and size constants
    of a template are read as numbers, which is what the registry holds. *)

Module Matrix.

Import Templates.

Inductive attr :=
| ANum (n : number)
| AText (s : jsstring)
| APoints (points : list (number * number))
| ARotate (angle x y : number)
| AViewBox (x y w h : number).

Inductive node :=
| Elem (tag : string) (attrs : list (string * attr)) (children : list node)
| Text (s : jsstring).

Declare Scope num_scope.
Delimit Scope num_scope with num.
Infix "+" := num_add : num_scope.
Infix "-" := num_sub : num_scope.
Infix "*" := num_mul : num_scope.
Infix "/" := num_div : num_scope.

Definition n_ (z : Z) : number := num_of_Z z.

(** *** Conversions *)

Definition hex_digit (c : N) : option N :=
  if (48 <=? c)%N && (c <=? 57)%N then Some (c - 48)%N
  else if (97 <=? c)%N && (c <=? 102)%N then Some (c - 87)%N
  else if (65 <=? c)%N && (c <=? 70)%N then Some (c - 55)%N
  else None.

(** the digits of [s] in base [b], when all of [s] is such digits *)
Fixpoint radix_value (b : N) (s : jsstring) (acc : N) : option N :=
  match s with
  | [] => Some acc
  | c :: t =>
      match hex_digit c with
      | Some d => if (d <? b)%N then radix_value b t (b * acc + d)%N else None
      | None => None
      end
  end.

Definition radix_literal (s : jsstring) : option number :=
  match s with
  | 48%N :: p :: d :: t =>
      let b := if (p =? 120)%N || (p =? 88)%N then 16%N
               else if (p =? 111)%N || (p =? 79)%N then 8%N
               else if (p =? 98)%N || (p =? 66)%N then 2%N
               else 0%N in
      if (b =? 0)%N then None
      else match radix_value b (d :: t) 0 with
           | Some v => Some (num_of_Z (Z.of_N v))
           | None => Some NaN
           end
  | _ => None
  end.

Definition trim (s : jsstring) : jsstring :=
  rev (trim_start (rev (trim_start s))).

(** [Number(s)] for a string: the whole string must be a numeric literal *)
Definition string_to_number (s : jsstring) : number :=
  let t := trim s in
  if is_nil t then Fin 0 0
  else
    match radix_literal t with
    | Some n => n
    | None =>
        let '(neg, s1) := split_sign t in
        if str_eqb s1 (lit "Infinity") then Inf neg
        else
          let '(ip, s2) := span_digits s1 in
          let '(fp, s3) := read_frac s2 in
          if is_nil (ip ++ fp) then NaN
          else
            match scan_exp s3 with
            | Some (x, []) => mk_fin neg (ip ++ fp) (x - Z.of_nat (length fp))
            | Some _ => NaN
            | None => if is_nil s3
                      then mk_fin neg (ip ++ fp) (- Z.of_nat (length fp))
                      else NaN
            end
    end.

(** [Number(v)], the conversion arithmetic applies to an operand *)
Definition to_number (v : value) : res number :=
  match v with
  | VUndefined => Ok NaN
  | VNull => Ok (Fin 0 0)
  | VBool b => Ok (if b then Fin 1 0 else Fin 0 0)
  | VNum n => Ok n
  | _ => rbind (toStr v) (fun s => Ok (string_to_number s))
  end.

(** a template value as a number *)
Definition t_number (v : tval) : number :=
  match v with
  | TUndef => NaN
  | TStr s => string_to_number s
  | TNum n => n
  | TBool b => if b then Fin 1 0 else Fin 0 0
  | TRef _ => NaN
  end.

(** a template value as a template literal writes it *)
Definition t_attr (v : tval) : attr :=
  match v with
  | TUndef => AText (lit "undefined")
  | TStr s => AText s
  | TNum n => ANum n
  | TBool b => AText (if b then lit "true" else lit "false")
  | TRef _ => AText (lit "[object Object]")
  end.

Definition escape_char (c : N) : jsstring :=
  if (c =? 38)%N then lit "&amp;"
  else if (c =? 60)%N then lit "&lt;"
  else if (c =? 62)%N then lit "&gt;"
  else if (c =? 34)%N then lit "&quot;"
  else if (c =? 39)%N then lit "&apos;"
  else [c].

(** [escapeXml(str)] of js/utils.js: the empty string unless [str] is a string *)
Definition escapeXml (v : value) : jsstring :=
  match v with
  | VStr s => flat_map escape_char s
  | _ => []
  end.

(** *** Geometry *)

Record dims := {
  width : number; height : number;
  plotWidth : number; plotHeight : number;
  padding : number; titleMargin : number; footerHeight : number
}.

Record area := { x : number; y : number; a_width : number; a_height : number }.

Section Render.

Variable h : store.       (* the store after [getTemplate] *)
Variable template : loc.  (* the copy [getTemplate] returned *)

Definition tp (k : string) : tval := get_prop h template k.
Definition tn (k : string) : number := t_number (tp k).

(** [calculateDimensions(template, includeFooter)] of js/templates.js *)
Definition calculateDimensions (includeFooter : bool) : dims :=
  let baseWidth := n_ 800 in
  let baseHeight := n_ 800 in
  let footer := if includeFooter then n_ 60 else n_ 0 in
  {| width := baseWidth;
     height := (baseHeight + footer)%num;
     plotWidth := (baseWidth - tn "padding" * n_ 2)%num;
     plotHeight := (baseHeight - tn "padding" * n_ 2 - tn "titleMargin" * n_ 3)%num;
     padding := tn "padding";
     titleMargin := tn "titleMargin";
     footerHeight := footer |}.

(** [generateSVGFilters(template)] of js/templates.js *)
Definition generateSVGFilters : list node :=
  if negb (t_truthy (tp "pointShadow")) then []
  else
    [Elem "defs" []
       [Elem "filter" [("id", AText (lit "pointShadow")); ("x", AText (lit "-50%"));
                       ("y", AText (lit "-50%")); ("width", AText (lit "200%"));
                       ("height", AText (lit "200%"))]
          [Elem "feGaussianBlur" [("in", AText (lit "SourceAlpha"));
                                  ("stdDeviation", AText (lit "2"))] [];
           Elem "feOffset" [("dx", AText (lit "0")); ("dy", AText (lit "2"));
                            ("result", AText (lit "offsetblur"))] [];
           Elem "feComponentTransfer" []
             [Elem "feFuncA" [("type", AText (lit "linear"));
                              ("slope", AText (lit "0.3"))] []];
           Elem "feMerge" []
             [Elem "feMergeNode" [] [];
              Elem "feMergeNode" [("in", AText (lit "SourceGraphic"))] []]]]]%string.

Definition generateBackground (d : dims) : list node :=
  [Elem "rect" [("width", ANum (width d)); ("height", ANum (height d));
                ("fill", t_attr (tp "background"))] []]%string.

Definition generateTitle (title subtitle : jsstring) (d : dims) : list node :=
  Elem "text" [("x", ANum (width d / n_ 2)%num); ("y", ANum (padding d));
               ("text-anchor", AText (lit "middle"));
               ("font-family", AText (lit "Poppins, sans-serif"));
               ("font-size", t_attr (tp "titleFontSize"));
               ("font-weight", AText (lit "700"));
               ("fill", t_attr (tp "titleColor"))]%string [Text title]
  :: if is_nil subtitle then []
     else [Elem "text" [("x", ANum (width d / n_ 2)%num);
                        ("y", ANum (padding d + tn "titleMargin" + n_ 10)%num);
                        ("text-anchor", AText (lit "middle"));
                        ("font-family", AText (lit "Inter, sans-serif"));
                        ("font-size", t_attr (tp "subtitleFontSize"));
                        ("font-weight", AText (lit "400"));
                        ("fill", t_attr (tp "textColor"));
                        ("opacity", AText (lit "0.8"))]%string [Text subtitle]].

(** [text.split('\n')] *)
Fixpoint split_lines (s : jsstring) : list jsstring :=
  match s with
  | [] => [[]]
  | c :: t =>
      match split_lines t with
      | l :: r => if (c =? 10)%N then [] :: l :: r else (c :: l) :: r
      | [] => [[c]]
      end
  end.

Fixpoint mapi {A B} (f : nat -> A -> B) (i : nat) (l : list A) : list B :=
  match l with
  | [] => []
  | a :: r => f i a :: mapi f (S i) r
  end.

Definition generateQuadrantLabel (text : jsstring) (qx qy : number)
    (opacity fontSize : number) : node :=
  let lines := split_lines text in
  let lineHeight := (fontSize + n_ 4)%num in
  let startY :=
    (qy - (n_ (Z.of_nat (length lines)) - n_ 1) * lineHeight / n_ 2)%num in
  Elem "g" []
    (mapi (fun index line =>
       Elem "text" [("x", ANum qx);
                    ("y", ANum (startY + n_ (Z.of_nat index) * lineHeight)%num);
                    ("text-anchor", AText (lit "middle"));
                    ("font-family", AText (lit "Inter, sans-serif"));
                    ("font-size", ANum fontSize);
                    ("font-weight", AText (lit "500"));
                    ("fill", t_attr (tp "textColor"));
                    ("opacity", ANum opacity)]%string
            [Text (escapeXml (VStr line))]) 0 lines).

(** [a || d] on a template number *)
Definition tn_or (k : string) (d : number) : number :=
  if t_truthy (tp k) then tn k else d.

Definition quadrant_color (k : string) : attr :=
  match tp "quadrants" with
  | TRef q => t_attr (get_prop h q k)
  | _ => AText (lit "undefined")
  end.

Definition generateQuadrants (p : area) : list node :=
  let midX := (x p + a_width p / n_ 2)%num in
  let midY := (y p + a_height p / n_ 2)%num in
  let halfWidth := (a_width p / n_ 2)%num in
  let halfHeight := (a_height p / n_ 2)%num in
  let opacity := tn_or "quadrantOpacity" (Fin 2 (-1)) in
  let quad qx qy key :=
    Elem "rect" [("x", ANum qx); ("y", ANum qy); ("width", ANum halfWidth);
                 ("height", ANum halfHeight); ("fill", quadrant_color key);
                 ("opacity", ANum opacity)]%string [] in
  [quad (x p) (y p) "topLeft"%string; quad midX (y p) "topRight"%string;
   quad (x p) midY "bottomLeft"%string; quad midX midY "bottomRight"%string]
  ++ if t_truthy (tp "showQuadrantLabels") then
       let labelOpacity := tn_or "quadrantLabelOpacity" (Fin 5 (-1)) in
       let fontSize := tn "labelFontSize" in
       [generateQuadrantLabel (lit "Q2") (x p + n_ 20)%num (y p + n_ 20)%num
          labelOpacity (fontSize - n_ 2)%num;
        generateQuadrantLabel (lit "Q1") (midX + halfWidth - n_ 20)%num
          (y p + n_ 20)%num labelOpacity (fontSize - n_ 2)%num;
        generateQuadrantLabel (lit "Q3") (x p + n_ 20)%num
          (midY + halfHeight - n_ 10)%num labelOpacity (fontSize - n_ 2)%num;
        generateQuadrantLabel (lit "Q4") (midX + halfWidth - n_ 20)%num
          (midY + halfHeight - n_ 10)%num labelOpacity (fontSize - n_ 2)%num]
     else [].

Definition generateGrid (p : area) : node :=
  let quarterWidth := (a_width p / n_ 4)%num in
  let quarterHeight := (a_height p / n_ 4)%num in
  let strokeWidth (i : Z) :=
    if (i =? 2)%Z then (tn "gridLineWidth" + Fin 5 (-1))%num else tn "gridLineWidth" in
  let dash (i : Z) := if (i =? 2)%Z then lit "none" else lit "4,4" in
  let vertical (i : Z) :=
    let gx := (x p + quarterWidth * n_ i)%num in
    Elem "line" [("x1", ANum gx); ("y1", ANum (y p)); ("x2", ANum gx);
                 ("y2", ANum (y p + a_height p)%num);
                 ("stroke", t_attr (tp "gridColor"));
                 ("stroke-width", ANum (strokeWidth i));
                 ("stroke-dasharray", AText (dash i))]%string [] in
  let horizontal (i : Z) :=
    let gy := (y p + quarterHeight * n_ i)%num in
    Elem "line" [("x1", ANum (x p)); ("y1", ANum gy);
                 ("x2", ANum (x p + a_width p)%num); ("y2", ANum gy);
                 ("stroke", t_attr (tp "gridColor"));
                 ("stroke-width", ANum (strokeWidth i));
                 ("stroke-dasharray", AText (dash i))]%string [] in
  Elem "g" [("class", AText (lit "grid"))]%string
    (map vertical [1; 2; 3]%Z ++ map horizontal [1; 2; 3]%Z).

Definition generateAxisLabels (p : area) : node :=
  let midX := (x p + a_width p / n_ 2)%num in
  let midY := (y p + a_height p / n_ 2)%num in
  let fontSize := tn "labelFontSize" in
  let offset := n_ 12 in
  let label lx ly anchor txt :=
    Elem "text" [("x", ANum lx); ("y", ANum ly); ("text-anchor", AText (lit anchor));
                 ("font-family", AText (lit "Inter, sans-serif"));
                 ("font-size", ANum fontSize); ("font-weight", AText (lit "500"));
                 ("fill", t_attr (tp "textColor"))]%string [Text (lit txt)] in
  Elem "g" [("class", AText (lit "axis-labels")); ("opacity", AText (lit "0.7"))]%string
    [label (x p) (midY + fontSize + offset)%num "middle"%string "Low"%string;
     label (x p + a_width p)%num (midY + fontSize + offset)%num "middle"%string
       "High"%string;
     label (midX - fontSize - offset - n_ 5)%num (y p + a_height p + n_ 5)%num
       "end"%string "Low"%string;
     label (midX - fontSize - offset - n_ 5)%num (y p + n_ 5)%num "end"%string
       "High"%string].

Definition generateAxes (p : area) (xAxisName yAxisName : jsstring) : node :=
  let midX := (x p + a_width p / n_ 2)%num in
  let midY := (y p + a_height p / n_ 2)%num in
  let axisExtend := n_ 20 in
  let fontWeight := if t_truthy (tp "boldAxisLabels") then lit "600" else lit "500" in
  Elem "g" [("class", AText (lit "axes"))]%string
    [Elem "line" [("x1", ANum (x p - axisExtend)%num); ("y1", ANum midY);
                  ("x2", ANum (x p + a_width p + axisExtend)%num); ("y2", ANum midY);
                  ("stroke", t_attr (tp "axisColor"));
                  ("stroke-width", t_attr (tp "axisLineWidth"))]%string [];
     Elem "polygon"
       [("points", APoints
           [((x p + a_width p + axisExtend)%num, midY);
            ((x p + a_width p + axisExtend - n_ 8)%num, (midY - n_ 4)%num);
            ((x p + a_width p + axisExtend - n_ 8)%num, (midY + n_ 4)%num)]);
        ("fill", t_attr (tp "axisColor"))]%string [];
     Elem "line" [("x1", ANum midX); ("y1", ANum (y p + a_height p + axisExtend)%num);
                  ("x2", ANum midX); ("y2", ANum (y p - axisExtend)%num);
                  ("stroke", t_attr (tp "axisColor"));
                  ("stroke-width", t_attr (tp "axisLineWidth"))]%string [];
     Elem "polygon"
       [("points", APoints
           [(midX, (y p - axisExtend)%num);
            ((midX - n_ 4)%num, (y p - axisExtend + n_ 8)%num);
            ((midX + n_ 4)%num, (y p - axisExtend + n_ 8)%num)]);
        ("fill", t_attr (tp "axisColor"))]%string [];
     Elem "text" [("x", ANum midX); ("y", ANum (y p + a_height p + n_ 40)%num);
                  ("text-anchor", AText (lit "middle"));
                  ("font-family", AText (lit "Inter, sans-serif"));
                  ("font-size", t_attr (tp "axisFontSize"));
                  ("font-weight", AText fontWeight);
                  ("fill", t_attr (tp "axisColor"))]%string [Text xAxisName];
     Elem "text" [("x", ANum (x p - n_ 40)%num); ("y", ANum midY);
                  ("text-anchor", AText (lit "middle"));
                  ("font-family", AText (lit "Inter, sans-serif"));
                  ("font-size", t_attr (tp "axisFontSize"));
                  ("font-weight", AText fontWeight);
                  ("fill", t_attr (tp "axisColor"));
                  ("transform", ARotate (n_ (-90)) (x p - n_ 40)%num midY)]%string
          [Text yAxisName];
     generateAxisLabels p].

(** [v == null] *)
Definition loose_null (v : value) : bool :=
  match v with
  | VUndefined | VNull => true
  | _ => false
  end.

(** the body of [dataPoints.forEach((point, index) => ...)]: the markup
    one point adds, nothing for a point without label or coordinate *)
Definition drawPoint (p : area) (templateName : jsstring) (index : nat)
    (point : value) : res (list node) :=
  rbind (get point "label") (fun label =>
  if negb (truthy label) then Ok []
  else
  rbind (get point "x") (fun px =>
  if loose_null px then Ok []
  else
  rbind (get point "y") (fun py =>
  if loose_null py then Ok []
  else
  rbind (to_number px) (fun nx =>
  rbind (to_number py) (fun ny =>
  let cx := (x p + (nx / n_ 100) * a_width p)%num in
  let cy := (y p + a_height p - (ny / n_ 100) * a_height p)%num in
  let color := getPointColor h templateName index in
  let radius := tn "pointRadius" in
  let filter := if t_truthy (tp "pointShadow") then lit "url(#pointShadow)" else [] in
  let labelY := (cy - radius - n_ 8)%num in
  let text := escapeXml label in
  let labelWidth :=
    (n_ (Z.of_nat (length text)) * (tn "labelFontSize" * Fin 6 (-1)))%num in
  Ok [Elem "circle" [("cx", ANum cx); ("cy", ANum cy); ("r", ANum radius);
                     ("fill", t_attr color);
                     ("stroke", t_attr (tp "pointStroke"));
                     ("stroke-width", t_attr (tp "pointStrokeWidth"));
                     ("filter", AText filter)]%string [];
      Elem "rect" [("x", ANum (cx - labelWidth / n_ 2 - n_ 4)%num);
                   ("y", ANum (labelY - tn "labelFontSize")%num);
                   ("width", ANum (labelWidth + n_ 8)%num);
                   ("height", ANum (tn "labelFontSize" + n_ 4)%num);
                   ("fill", t_attr (tp "background"));
                   ("opacity", AText (lit "0.9")); ("rx", AText (lit "2"))]%string [];
      Elem "text" [("x", ANum cx); ("y", ANum labelY);
                   ("text-anchor", AText (lit "middle"));
                   ("font-family", AText (lit "Inter, sans-serif"));
                   ("font-size", t_attr (tp "labelFontSize"));
                   ("font-weight", AText (lit "500"));
                   ("fill", t_attr (tp "textColor"))]%string [Text text]]))))).

Fixpoint drawPoints (p : area) (templateName : jsstring) (index : nat)
    (points : list value) : res (list node) :=
  match points with
  | [] => Ok []
  | point :: r =>
      rbind (drawPoint p templateName index point) (fun a =>
      rbind (drawPoints p templateName (S index) r) (fun b => Ok (a ++ b)))
  end.

Definition generateDataPoints (dataPoints : list value) (p : area)
    (templateName : jsstring) : res node :=
  rbind (drawPoints p templateName 0 dataPoints) (fun body =>
  Ok (Elem "g" [("class", AText (lit "data-points"))]%string body)).

Definition generateFooter (d : dims) : node :=
  let fy := (height d - footerHeight d / n_ 2 + n_ 5)%num in
  Elem "g" [("class", AText (lit "footer"))]%string
    [Elem "line" [("x1", AText (lit "0")); ("y1", ANum (height d - footerHeight d)%num);
                  ("x2", ANum (width d)); ("y2", ANum (height d - footerHeight d)%num);
                  ("stroke", t_attr (tp "gridColor"));
                  ("stroke-width", AText (lit "1"))]%string [];
     Elem "text" [("x", ANum (width d - padding d)%num); ("y", ANum fy);
                  ("text-anchor", AText (lit "end"));
                  ("font-family", AText (lit "Inter, sans-serif"));
                  ("font-size", ANum (tn "footerFontSize" + n_ 1)%num);
                  ("fill", t_attr (tp "textColor"));
                  ("opacity", AText (lit "0.7"))]%string
          [Text (lit "https://arunkumarkundra.github.io/think2x2/")]].

(** the plot area [generateMatrix] computes *)
Definition plotArea (d : dims) (subtitle : jsstring) : area :=
  {| x := padding d;
     y := (padding d + (if is_nil subtitle then tn "titleMargin" * n_ 2
                        else tn "titleMargin" * n_ 3))%num;
     a_width := plotWidth d;
     a_height := plotHeight d |}.

(** the data points to draw: [data.dataPoints && data.dataPoints.length > 0];
    a string or an object with a positive [length] has no [forEach] *)
Definition points_to_draw (dp : value) : res (list value) :=
  match dp with
  | VArr pts => Ok pts
  | VStr (_ :: _) => Throw TypeError
  | VObj fs =>
      match lookup (lit "length") fs with
      | Some l => rbind (to_number l) (fun n =>
                    if num_ltb (Fin 0 0) n then Throw TypeError else Ok [])
      | None => Ok []
      end
  | _ => Ok []
  end.

(** the body of [generateMatrix] once the template is resolved *)
Definition render (data : value) (templateName : jsstring) (includeFooter : bool)
  : res node :=
  let d := calculateDimensions includeFooter in
  rbind (get data "title") (fun t =>
  rbind (get data "subtitle") (fun s =>
  rbind (get data "xAxisName") (fun xa =>
  rbind (get data "yAxisName") (fun ya =>
  let title := escapeXml (or_else t (VStr (lit "Untitled Matrix"))) in
  let subtitle := if truthy s then escapeXml s else [] in
  let xAxisName := escapeXml (or_else xa (VStr (lit "X Axis"))) in
  let yAxisName := escapeXml (or_else ya (VStr (lit "Y Axis"))) in
  let p := plotArea d subtitle in
  rbind (get data "dataPoints") (fun dp =>
  rbind (points_to_draw dp) (fun pts =>
  rbind (match pts with
         | [] => Ok []
         | _ => rbind (generateDataPoints pts p templateName) (fun g => Ok [g])
         end) (fun points =>
  Ok (Elem "svg" [("xmlns", AText (lit "http://www.w3.org/2000/svg"));
                  ("width", ANum (width d)); ("height", ANum (height d));
                  ("viewBox", AViewBox (n_ 0) (n_ 0) (width d) (height d));
                  ("role", AText (lit "img")); ("aria-label", AText title)]%string
        (generateSVGFilters ++ generateBackground d
         ++ generateTitle title subtitle d
         ++ generateQuadrants p
         ++ (if t_truthy (tp "showGrid") then [generateGrid p] else [])
         ++ [generateAxes p xAxisName yAxisName]
         ++ points
         ++ (if includeFooter then [generateFooter d] else [])))))))))).

End Render.

(** [generateMatrix(data, includeFooter)]: the scene, and the store with
    the copy of the template the call made *)
Definition generateMatrix (h : store) (data : value) (includeFooter : bool)
  : res node * store :=
  match get data "template" with
  | Throw e => (Throw e, h)
  | Ok tm =>
      match toStr (or_else tm (VStr (lit "modern"))), toStr tm with
      | Ok name, Ok raw =>
          let '(template, h') := getTemplate h name in
          (render h' template data raw includeFooter, h')
      | Throw e, _ | _, Throw e => (Throw e, h)
      end
  end.

(** the elements of a scene with a given tag, in document order *)
Fixpoint elements (tag : string) (n : node) : list node :=
  match n with
  | Elem t attrs children =>
      (if String.eqb t tag then [n] else [])
      ++ flat_map (elements tag) children
  | Text _ => []
  end.

Definition attribute (n : node) (k : string) : option attr :=
  match n with
  | Elem _ attrs _ =>
      match find (fun kv => String.eqb (fst kv) k) attrs with
      | Some kv => Some (snd kv)
      | None => None
      end
  | Text _ => None
  end.

End Matrix.

(** ** The vocabulary of the specification *)

(** [o.k] where reading cannot throw *)
Definition field (o : value) (k : string) : value :=
  match get o k with
  | Ok v => v
  | Throw _ => VUndefined
  end.

(** the points of a chart, none when it has no array of them *)
Definition points_of (chart : value) : list value :=
  match field chart "dataPoints" with
  | VArr pts => pts
  | _ => []
  end.

(** [0 <= n <= 100] *)
Definition in_range (n : number) : bool :=
  num_leb (Fin 0 0) n && num_leb n (Fin 1 2).

(** what the clamp of a coordinate can be: 0, 100, or a canonical finite
    number strictly between them *)
Definition clamped (n : number) : Prop :=
  n = Fin 0 0 \/ n = Fin 1 2 \/
  (num_wf n /\ num_ltb (Fin 0 0) n = true /\ num_ltb n (Fin 1 2) = true).

Definition template_names : list string := ["minimal"; "modern"; "vibrant"]%string.

(** a point as [sanitizeState] leaves it *)
Definition point_ok (q : value) : Prop :=
  exists l x y id,
    q = VObj [(lit "label", VStr l); (lit "x", VNum x); (lit "y", VNum y); (lit "id", id)]
    /\ l <> [] /\ (length l <= 50)%nat /\ clamped x /\ clamped y /\ truthy id = true.

(** a valid chart definition, as [sanitizeState] leaves it *)
Definition chart_ok (r : value) : Prop :=
  exists t s xa ya tm pts,
    r = VObj [(lit "title", VStr t); (lit "subtitle", VStr s);
              (lit "xAxisName", VStr xa); (lit "yAxisName", VStr ya);
              (lit "template", tm); (lit "dataPoints", VArr pts)]
    /\ (length t <= 100)%nat /\ (length s <= 100)%nat
    /\ xa <> [] /\ (length xa <= 50)%nat /\ ya <> [] /\ (length ya <= 50)%nat
    /\ includes template_names tm = true
    /\ (length pts <= 100)%nat /\ Forall point_ok pts.

(** a text field [sanitizeState] can cut: a string, or a falsy value *)
Definition text_ok (v : value) : bool :=
  match v with
  | VStr _ => true
  | _ => negb (truthy v)
  end.

(** [ToString(v)] does not throw *)
Definition convertible (v : value) : bool :=
  match toStr v with
  | Ok _ => true
  | Throw _ => false
  end.

(** the points [sanitizeState] keeps: labelled, the first hundred *)
Definition kept_points (data : value) : list value :=
  match field data "dataPoints" with
  | VArr pts => firstn 100 (filter Share.has_label pts)
  | _ => []
  end.

(** an input [sanitizeState] repairs without failing *)
Definition repairable (data : value) : bool :=
  truthy data
  && text_ok (field data "title") && text_ok (field data "subtitle")
  && text_ok (field data "xAxisName") && text_ok (field data "yAxisName")
  && forallb (fun p => is_str (field p "label")
                       && convertible (field p "x") && convertible (field p "y"))
             (kept_points data).

(** ** Values that JSON carries unchanged *)

Definition num_wfb (n : number) : bool :=
  match n with
  | Fin m e => if (m =? 0)%Z then (e =? 0)%Z else negb (m mod 10 =? 0)%Z
  | _ => false
  end.

Definition wf_stringb (s : jsstring) : bool := forallb (fun c => (c <? 65536)%N) s.

Fixpoint nodupb (ks : list jsstring) : bool :=
  match ks with
  | [] => true
  | k :: r => negb (existsb (str_eqb k) r) && nodupb r
  end.

(** no [undefined], no [NaN] or infinity, numbers in canonical form,
    strings of 16-bit units, no key twice in an object *)
Fixpoint clean (v : value) : bool :=
  match v with
  | VUndefined => false
  | VNull | VBool _ => true
  | VNum n => num_wfb n
  | VStr s => wf_stringb s
  | VArr xs => forallb clean xs
  | VObj fs =>
      forallb (fun kv => wf_stringb (fst kv) && clean (snd kv)) fs
      && nodupb (map fst fs)
  end.

(** the text of a value inside an array *)
Definition text_of (v : value) : jsstring :=
  match JSON.text v with
  | Some t => t
  | None => lit "null"
  end.

(** the number of nodes of a value, the calls the parser spends on it *)
Fixpoint vsize (v : value) : nat :=
  match v with
  | VArr xs => S (fold_right (fun x a => S (vsize x + a)) 0%nat xs)
  | VObj fs => S (fold_right (fun kv a => S (vsize (snd kv) + a)) 0%nat fs)
  | _ => 1%nat
  end.

(** ** Charts that the codec carries unchanged *)

(** a string of 16-bit units with a length between [lo] and [hi] *)
Definition str_within (lo hi : nat) (v : value) : bool :=
  match v with
  | VStr s => wf_stringb s && (lo <=? length s)%nat && (length s <=? hi)%nat
  | _ => false
  end.

(** a canonical number in [0, 100] *)
Definition coord_ok (v : value) : bool :=
  match v with
  | VNum n => num_wfb n && in_range n
  | _ => false
  end.

Definition valid_point (p : value) : bool :=
  truthy p && str_within 1 50 (field p "label")
  && coord_ok (field p "x") && coord_ok (field p "y").

(** a chart within the limits [sanitizeState] enforces: title and
    subtitle of at most 100 units, axis names of 1 to 50, a template of
    the registry, at most 100 points with labels of 1 to 50 units and
    coordinates in [0, 100] *)
Definition valid_chart (D : value) : bool :=
  truthy D
  && str_within 0 100 (field D "title") && str_within 0 100 (field D "subtitle")
  && str_within 1 50 (field D "xAxisName") && str_within 1 50 (field D "yAxisName")
  && includes template_names (field D "template")
  && match field D "dataPoints" with
     | VArr pts => (length pts <=? 100)%nat && forallb valid_point pts
     | _ => false
     end.

Definition same_point (p q : value) : Prop :=
  field q "label" = field p "label" /\ field q "x" = field p "x"
  /\ field q "y" = field p "y".

(** the same texts and template, the same points in the same order,
    identifiers apart *)
Definition same_content (D R : value) : Prop :=
  field R "title" = field D "title" /\ field R "subtitle" = field D "subtitle"
  /\ field R "xAxisName" = field D "xAxisName"
  /\ field R "yAxisName" = field D "yAxisName"
  /\ field R "template" = field D "template"
  /\ Forall2 same_point (points_of D) (points_of R).

(** * Definitions used to state the properties *)

Section Shape_defs.

Local Open Scope Z_scope.

Definition digits_ok (ds : list N) : Prop := Forall (fun d => (d < 10)%N) ds.

(** the text of a number as [JSON] and [parseFloat] accept it *)
Definition ntext_ok (t : ntext) : Prop :=
  digits_ok (nt_int t) /\ nt_int t <> [] /\
  match nt_int t with 0%N :: _ :: _ => False | _ => True end /\
  match nt_frac t with Some f => f <> [] /\ digits_ok f | None => True end /\
  match nt_exp t with Some (_, x) => x <> [] /\ digits_ok x | None => True end.

End Shape_defs.

Section Reading_defs.

Local Open Scope N_scope.

(** what may follow the text of a number: the end, or a character that
    cannot continue it *)
Definition stops (rest : jsstring) : Prop :=
  match rest with
  | [] => True
  | c :: _ => is_digit c = false /\ c <> 46 /\ c <> 101 /\ c <> 69
  end.

Definition no_digit (rest : jsstring) : Prop :=
  match rest with
  | [] => True
  | c :: _ => is_digit c = false
  end.

(** the text after the integer part: fraction, exponent, then [rest] *)
Definition tail_text (t : ntext) (rest : jsstring) : jsstring :=
  match nt_frac t with
  | Some f => lit "." ++ render_digits f
  | None => []
  end
  ++ match nt_exp t with
     | Some (s, x) => lit "e" ++ (if s then lit "-" else lit "+") ++ render_digits x
     | None => []
     end ++ rest.

Definition exp_text (t : ntext) (rest : jsstring) : jsstring :=
  match nt_exp t with
  | Some (s, x) => lit "e" ++ (if s then lit "-" else lit "+") ++ render_digits x
  | None => []
  end ++ rest.

End Reading_defs.

(** [Math.max(0, Math.min(100, n || 0))] *)
Definition clamp (n : number) : number :=
  Math_max (Fin 0 0) (Math_min (Fin 1 2) (if truthy (VNum n) then n else Fin 0 0)).

Definition tick_up (w : world) : world :=
  {| date_now := date_now w; random36 := random36 w;
     tick := S (tick w); console := console w |}.

Definition mk_point (l x y id : value) : value :=
  VObj [(lit "label", l); (lit "x", x); (lit "y", y); (lit "id", id)].

Definition mk_chart (t s xa ya tm dp : value) : value :=
  VObj [(lit "title", t); (lit "subtitle", s); (lit "xAxisName", xa);
        (lit "yAxisName", ya); (lit "template", tm); (lit "dataPoints", dp)].

(** the template [sanitizeState] settles on *)
Definition template_of (data : value) : value :=
  if includes template_names (field data "template") then field data "template"
  else VStr (lit "modern").

Section Base64Encode_defs.

Local Open Scope N_scope.

Definition bytes (s : list N) : Prop := Forall (fun c => c < 256) s.

(** the 6-bit groups of a byte sequence *)
Fixpoint sextets (bs : list N) : list N :=
  match bs with
  | [] => []
  | [a] => [a / 4; (a mod 4) * 16]
  | [a; b] => [a / 4; (a mod 4) * 16 + b / 16; (b mod 16) * 4]
  | a :: b :: c :: t =>
      a / 4 :: (a mod 4) * 16 + b / 16 :: (b mod 16) * 4 + c / 64 :: c mod 64
      :: sextets t
  end.

Definition padding (bs : list N) : nat :=
  match Nat.modulo (length bs) 3 with
  | 1%nat => 2%nat
  | 2%nat => 1%nat
  | _ => 0%nat
  end.

(** a character of the alphabet *)
Definition alpha (c : N) : Prop := exists v, Base64.b64_val c = Some v.

End Base64Encode_defs.

Section Utf8Round_defs.

Local Open Scope N_scope.

(** every surrogate has its partner *)
Fixpoint paired (s : list N) : bool :=
  match s with
  | [] => true
  | c :: t =>
      if Utf8.is_high c then
        match t with
        | d :: t' => Utf8.is_low d && paired t'
        | [] => false
        end
      else negb (Utf8.is_low c) && paired t
  end.

End Utf8Round_defs.

Section Values_defs.

Local Open Scope N_scope.

(** what follows a value inside a text: the end, a comma, or a closing
    bracket or brace *)
Definition delim (rest : list N) : Prop :=
  match rest with
  | [] => True
  | c :: _ => c = 44 \/ c = 93 \/ c = 125
  end.

Definition reads (v : value) : Prop :=
  forall fuel rest, (vsize v <= fuel)%nat -> delim rest ->
    JSON.parse_value fuel (text_of v ++ rest) = Some (v, rest).

Definition lsize (xs : list value) : nat :=
  fold_right (fun x a => S (vsize x + a)) 0%nat xs.

Definition fsize (fs : list (list N * value)) : nat :=
  fold_right (fun kv a => S (vsize (snd kv) + a)) 0%nat fs.

Definition member_text (kv : list N * value) : list N :=
  JSON.quote (fst kv) ++ 58 :: text_of (snd kv).

End Values_defs.

Section Good_defs.

Local Open Scope N_scope.

(** a well-formed UTF-16 string: 16-bit units, surrogates paired *)
Definition good (s : list N) : Prop := wf_string s /\ paired s = true.

End Good_defs.

(** the URL token of a text *)
Definition token_of (t : list N) : res (list N) :=
  rbind (Utf8.encode t) (fun bs =>
  rbind (Base64.btoa bs) (fun b64 => Ok (Share.urlSafe b64))).

Definition nullish (v : value) : bool :=
  match v with
  | VUndefined | VNull => true
  | _ => false
  end.

(** the point as the record carries it *)
Definition strip_point (p : value) : value :=
  VObj [(lit "l", field p "label"); (lit "x", field p "x"); (lit "y", field p "y")].

(** the array a [map] runs over: [v || []] when that is an array *)
Definition array_of (v : value) : option (list value) :=
  match or_else v (VArr []) with
  | VArr xs => Some xs
  | _ => None
  end.

(** the record [encodeState] builds *)
Definition state_of (D : value) (pts : list value) : value :=
  VObj [(lit "v", VNum (Fin 1 0));
        (lit "t", or_else (field D "title") (VStr []));
        (lit "s", or_else (field D "subtitle") (VStr []));
        (lit "x", or_else (field D "xAxisName") (VStr []));
        (lit "y", or_else (field D "yAxisName") (VStr []));
        (lit "tm", or_else (field D "template") (VStr (lit "modern")));
        (lit "p", VArr (map strip_point pts))].

Definition ticks (k : nat) (w : world) : world :=
  {| date_now := date_now w; random36 := random36 w;
     tick := k + tick w; console := console w |}.

(** the points [decodeState] makes of the record's points, the first
    identifier drawn at tick [n] *)
Fixpoint decoded_points (w : world) (n : nat) (ps : list value) : list value :=
  match ps with
  | [] => []
  | p :: r =>
      mk_point (field p "l") (field p "x") (field p "y") (VStr (point_id w n))
      :: decoded_points w (S n) r
  end.

(** the world after the version check: a warning when [v] is not 1 *)
Definition warned (st : value) (w : world) : world :=
  if Share.not_version1 (field st "v")
  then snd (console_warn "Unknown state version:" (field st "v") w)
  else w.

(** the chart [decodeState] makes of a record with points [ps], the first
    identifier drawn at the tick of [w] *)
Definition chart_of (st : value) (ps : list value) (w : world) : value :=
  mk_chart (or_else (field st "t") (VStr [])) (or_else (field st "s") (VStr []))
           (or_else (field st "x") (VStr [])) (or_else (field st "y") (VStr []))
           (or_else (field st "tm") (VStr (lit "modern")))
           (VArr (decoded_points w (tick w) ps)).

(** the points of a record [decodeState] can map: the record is not
    [null], its [p] is an array or falsy, and no point is [null] *)
Definition record_points (st : value) : option (list value) :=
  if nullish st then None
  else match array_of (field st "p") with
       | Some ps => if forallb (fun p => negb (nullish p)) ps then Some ps else None
       | None => None
       end.

(** the identifier of a sanitized point: the point's own when truthy,
    otherwise one drawn during the call *)
Definition id_kept_or_drawn (w w' : world) (p q : value) : Prop :=
  (truthy (field p "id") = true /\ field q "id" = field p "id")
  \/ (truthy (field p "id") = false
      /\ exists n, (tick w <= n < tick w')%nat /\ field q "id" = VStr (point_id w n)).

(** a sanitized point against the point it was made of *)
Definition repaired (w w' : world) (p q : value) : Prop :=
  exists l x y,
    field p "label" = VStr l
    /\ parseFloat (field p "x") = Ok x /\ parseFloat (field p "y") = Ok y
    /\ field q "label" = VStr (firstn 50 l)
    /\ field q "x" = VNum (clamp x) /\ field q "y" = VNum (clamp y)
    /\ clamped (clamp x) /\ clamped (clamp y)
    /\ id_kept_or_drawn w w' p q.

(** ** Charts, records and tokens of the scenarios *)

(** [sanitizeState(decodeState(encodeState(D)))] *)
Definition roundtrip (D : value) : M value :=
  fun w => let '(tok, w1) := Share.encodeState D w in
           let '(R, w2) := Share.decodeState tok w1 in
           Share.sanitizeState R w2.

(** a point of the data model: a label, coordinates in [0, 100] *)
Definition model_point (p : value) : bool :=
  truthy p && is_str (field p "label")
  && coord_ok (field p "x") && coord_ok (field p "y").

(** a chart of the data model: four texts, a template of the registry,
    at most 100 points *)
Definition model_chart (D : value) : bool :=
  truthy D
  && is_str (field D "title") && is_str (field D "subtitle")
  && is_str (field D "xAxisName") && is_str (field D "yAxisName")
  && includes template_names (field D "template")
  && match field D "dataPoints" with
     | VArr pts => (length pts <=? 100)%nat && forallb model_point pts
     | _ => false
     end.

(** two records that differ at most in their version *)
Definition same_but_version (st st1 : value) : Prop :=
  field st "t" = field st1 "t" /\ field st "s" = field st1 "s"
  /\ field st "x" = field st1 "x" /\ field st "y" = field st1 "y"
  /\ field st "tm" = field st1 "tm" /\ field st "p" = field st1 "p".

(** a number that a double holds as it is written: at most 15
    significant digits and a magnitude from 1e-300 up to 1e300.  A text
    of such a number is read by [JSON.parse] and [parseFloat] to a double
    that compares with other such numbers as the decimals do and that is
    written back with the same digits, so the exact decimals of this
    model and the doubles of the code agree on it.  A longer or smaller
    number is rounded by the code ([1e-400] is 0,
    [1.00000000000000000001] is 1) and kept as it is by the model. *)
Definition plain_number (n : number) : bool :=
  match n with
  | Fin m e => (Z.abs m <? 10 ^ 15)%Z && (-300 <=? e)%Z && (e <=? 285)%Z
  | _ => true
  end.

(** every number of a value is plain *)
Fixpoint plain (v : value) : bool :=
  match v with
  | VNum n => plain_number n
  | VArr xs => forallb plain xs
  | VObj fs => forallb (fun kv => plain (snd kv)) fs
  | _ => true
  end.

(** the numbers a token writes are plain *)
Definition plain_token (tok : jsstring) : bool :=
  match Share.decodeJSON tok with
  | Ok st => plain st
  | Throw _ => true
  end.

(** ** Sample data *)

Definition sample_world : world :=
  {| date_now := fun _ => 1700000000000%Z;
     random36 := fun _ => lit "0.4fzyo82mvyr";
     tick := 0; console := [] |}.

Definition sample_point (l : jsstring) (x y : value) : value :=
  VObj [(lit "label", VStr l); (lit "x", x); (lit "y", y)].

Definition sample_chart (t s xa ya : jsstring) (pts : list value) : value :=
  VObj [(lit "title", VStr t); (lit "subtitle", VStr s);
        (lit "xAxisName", VStr xa); (lit "yAxisName", VStr ya);
        (lit "template", VStr (lit "modern")); (lit "dataPoints", VArr pts)].

(** the chart of scenarios A and B, with its empty subtitle written out *)
Definition chart_Q4 : value :=
  sample_chart (lit "Q4") [] (lit "Feasibility") (lit "Impact")
    [sample_point (lit "A") (VNum (Fin 8 1)) (VNum (Fin 75 0))].

(** the chart of scenario A as the specification writes it *)
Definition scenario_A : value :=
  VObj [(lit "title", VStr (lit "Q4"));
        (lit "xAxisName", VStr (lit "Feasibility"));
        (lit "yAxisName", VStr (lit "Impact"));
        (lit "template", VStr (lit "modern"));
        (lit "dataPoints",
         VArr [VObj [(lit "label", VStr (lit "A")); (lit "x", VNum (Fin 8 1));
                     (lit "y", VNum (Fin 75 0))]])].

(** the input of scenario D *)
Definition scenario_D : value :=
  VObj [(lit "title", VStr (repeat 120%N 500));
        (lit "dataPoints",
         VArr [sample_point (lit "P") (VStr (lit "999")) (VStr (lit "-5"))])].

(** what [sanitizeState] makes of it, the identifier the first one drawn *)
Definition scenario_D_repaired : value :=
  VObj [(lit "title", VStr (repeat 120%N 100)); (lit "subtitle", VStr []);
        (lit "xAxisName", VStr (lit "X Axis")); (lit "yAxisName", VStr (lit "Y Axis"));
        (lit "template", VStr (lit "modern"));
        (lit "dataPoints",
         VArr [VObj [(lit "label", VStr (lit "P")); (lit "x", VNum (Fin 1 2));
                     (lit "y", VNum (Fin 0 0));
                     (lit "id", VStr (point_id sample_world 0))]])].

(** a chart with a title of 101 units *)
Definition long_title_chart : value :=
  sample_chart (repeat 120%N 101) [] (lit "Feasibility") (lit "Impact")
    [sample_point (lit "A") (VNum (Fin 8 1)) (VNum (Fin 75 0))].

(** a chart whose point carries an identifier *)
Definition chart_with_id : value :=
  sample_chart (lit "Q4") [] (lit "Feasibility") (lit "Impact")
    [VObj [(lit "label", VStr (lit "A")); (lit "x", VNum (Fin 8 1));
           (lit "y", VNum (Fin 75 0)); (lit "id", VStr (lit "p1"))]].

(** a chart with a label of 60 units *)
Definition long_label_chart : value :=
  sample_chart (lit "Q4") [] (lit "Feasibility") (lit "Impact")
    [sample_point (repeat 76%N 60) (VNum (Fin 8 1)) (VNum (Fin 75 0))].

(** the record of [chart_Q4] under a version *)
Definition record_Q4 (v : number) : value :=
  VObj [(lit "v", VNum v); (lit "t", VStr (lit "Q4")); (lit "s", VStr []);
        (lit "x", VStr (lit "Feasibility")); (lit "y", VStr (lit "Impact"));
        (lit "tm", VStr (lit "modern"));
        (lit "p", VArr [VObj [(lit "l", VStr (lit "A")); (lit "x", VNum (Fin 8 1));
                              (lit "y", VNum (Fin 75 0))]])].

(** the points a record holds *)
Definition points_of_record (st : value) : list value :=
  match field st "p" with
  | VArr ps => ps
  | _ => []
  end.

(** the token of [record_Q4 1], what [encodeState] gives for [chart_Q4] *)
Definition token_v1 : jsstring :=
  lit "eyJ2IjoxLCJ0IjoiUTQiLCJzIjoiIiwieCI6IkZlYXNpYmlsaXR5IiwieSI6IkltcGFjdCIsInRtIjoibW9kZXJuIiwicCI6W3sibCI6IkEiLCJ4Ijo4MCwieSI6NzV9XX0".

(** the token of [record_Q4 2] *)
Definition token_v2 : jsstring :=
  lit "eyJ2IjoyLCJ0IjoiUTQiLCJzIjoiIiwieCI6IkZlYXNpYmlsaXR5IiwieSI6IkltcGFjdCIsInRtIjoibW9kZXJuIiwicCI6W3sibCI6IkEiLCJ4Ijo4MCwieSI6NzV9XX0".

(** the token of a version 1 record whose point has x = 999 and y = -5 *)
Definition token_out_of_range : jsstring :=
  lit "eyJ2IjoxLCJ0IjoiIiwicyI6IiIsIngiOiIiLCJ5IjoiIiwidG0iOiJtb2Rlcm4iLCJwIjpbeyJsIjoiQSIsIngiOjk5OSwieSI6LTV9XX0".

(** the token of the record with [t] the number 5 and [p] the array [[7]] *)
Definition token_other_shape : jsstring := lit "eyJ0Ijo1LCJwIjpbN119".

Definition other_shape : value :=
  VObj [(lit "t", VNum (Fin 5 0)); (lit "p", VArr [VNum (Fin 7 0)])].

(** the token of the JSON text [null] *)
Definition token_null_record : jsstring := lit "bnVsbA".

(** what [decodeState] makes of [record_Q4] in the sample world *)
Definition chart_Q4_decoded : value :=
  VObj [(lit "title", VStr (lit "Q4")); (lit "subtitle", VStr []);
        (lit "xAxisName", VStr (lit "Feasibility")); (lit "yAxisName", VStr (lit "Impact"));
        (lit "template", VStr (lit "modern"));
        (lit "dataPoints",
         VArr [VObj [(lit "label", VStr (lit "A")); (lit "x", VNum (Fin 8 1));
                     (lit "y", VNum (Fin 75 0));
                     (lit "id", VStr (point_id sample_world 0))]])].

(** * More of the code: utilities, the share link, the import, the
      application state *)

(** ** js/utils.js ([src/unnamed/part_002]) *)

Module Utils.

(** [str.replace(/c/g, r)] for a pattern of one character *)
Definition replace_char (c : N) (r : jsstring) (str : jsstring) : jsstring :=
  flat_map (fun d => if (d =? c)%N then r else [d]) str.

(** [escapeXml(str)]: the five replacements in the order of the code *)
Definition escapeXml (str : value) : jsstring :=
  match str with
  | VStr s =>
      replace_char 39 (lit "&apos;")
        (replace_char 34 (lit "&quot;")
           (replace_char 62 (lit "&gt;")
              (replace_char 60 (lit "&lt;")
                 (replace_char 38 (lit "&amp;") s))))
  | _ => []
  end.

(** [isValidNumber(value, min, max)] *)
Definition isValidNumber (value : value) (min max : number) : res bool :=
  rbind (parseFloat value) (fun num =>
  Ok (negb (is_nan num) && num_leb min num && num_leb num max)).

(** [deepClone(obj)]: [JSON.parse(JSON.stringify(obj))] *)
Definition deepClone (obj : value) : res value :=
  rbind (toStr (JSON.stringify obj)) JSON.parse.

End Utils.

(** ** js/templates.js: the names of the registry *)

(** [getTemplateNames()]: [Object.keys(templates)] *)
Definition getTemplateNames (h : Templates.store) : list jsstring :=
  match nth_error h Templates.templates with
  | Some (Templates.CObj ps) => map fst ps
  | _ => []
  end.

(** [getPointColor(templateName, index)] as the module exports it, for a
    number [index] of any kind.  [Templates.getPointColor] is this
    function at the positions 0, 1, 2, ... that [forEach] passes. *)

Module Exported.

(** the integer a number is, if it is one *)
Definition num_to_int (n : number) : option Z :=
  match n with
  | Fin m e =>
      if (0 <=? e)%Z then Some (m * 10 ^ e)%Z
      else if (m mod 10 ^ (- e) =? 0)%Z then Some (m / 10 ^ (- e))%Z
      else None
  | _ => None
  end.

(** [items[index % items.length]].  The remainder has the sign of
    [index], and the item is looked up under the remainder written as a
    property name: a remainder that is a non-negative integer (also the
    -0 of a negative multiple) finds its item; a negative or fractional
    remainder and [NaN] (of an index that is [NaN] or infinite, or of an
    empty array) find nothing. *)
Definition item_at_rem (items : list Templates.tval) (index : number) : Templates.tval :=
  match num_to_int index with
  | Some z =>
      if is_nil items then Templates.TUndef
      else
        let r := Z.rem z (Z.of_nat (length items)) in
        if (r <? 0)%Z then Templates.TUndef
        else nth (Z.to_nat r) items Templates.TUndef
  | None => Templates.TUndef
  end.

Definition getPointColor (h : Templates.store) (templateName : jsstring)
    (index : number) : Templates.tval :=
  let t := Templates.lookup_template h templateName in
  let single := if Templates.t_truthy (Templates.get_prop h t "pointColor")
                then Templates.get_prop h t "pointColor"
                else Templates.S_ "#333333" in
  match Templates.get_prop h t "pointColors" with
  | Templates.TRef a =>
      match nth_error h a with
      | Some (Templates.CArr items) => item_at_rem items index
      | _ => single
      end
  | _ => single
  end.

End Exported.

(** the property names an object literal inherits from [Object.prototype],
    which [templates[name]] finds although the registry has no such
    template *)
Definition inherited_names : list string :=
  ["constructor"; "hasOwnProperty"; "isPrototypeOf"; "propertyIsEnumerable";
   "toLocaleString"; "toString"; "valueOf"; "__proto__"; "__defineGetter__";
   "__defineSetter__"; "__lookupGetter__"; "__lookupSetter__"]%string.

Definition inherited (name : jsstring) : bool :=
  existsb (fun n => str_eqb (lit n) name) inherited_names.

(** ** js/matrix.js: what a scene shows as text *)

(** the character data of a scene, in document order *)
Fixpoint texts (n : Matrix.node) : list jsstring :=
  match n with
  | Matrix.Elem _ _ children => flat_map texts children
  | Matrix.Text s => [s]
  end.

(** no character that opens or closes a tag or ends an attribute value *)
Definition markup_free (s : jsstring) : bool :=
  forallb (fun c => negb ((c =? 60) || (c =? 62) || (c =? 34) || (c =? 39))%N) s.

(** a point [generateDataPoints] draws: it has a label and both
    coordinates *)
Definition drawable (point : value) : bool :=
  truthy (field point "label")
  && negb (Matrix.loose_null (field point "x"))
  && negb (Matrix.loose_null (field point "y")).

(** the positions, counted from [index], of the points that are drawn *)
Fixpoint drawn_indices (index : nat) (points : list value) : list nat :=
  match points with
  | [] => []
  | p :: r => (if drawable p then [index] else []) ++ drawn_indices (S index) r
  end.

(** ** js/share.js: the share link and the import *)

Module ShareLink.

Local Open Scope js_scope.

(** [loadStateFromURL()], with [window.location.hash] as argument.  The
    warning has no value to show, written [undefined]. *)
Definition loadStateFromURL (location_hash : jsstring) : world -> value * world :=
  fun w =>
    let hash := skipn 1 location_hash in
    if is_nil hash then (VNull, w)
    else
      let '(data, w1) := Share.decodeState (VStr hash) w in
      if truthy data then (data, w1)
      else (VNull, snd (console_warn "Invalid state in URL" VUndefined w1)).

(** the body of [importStateFromJSON(file)] after [await file.text()].
    The toasts and the [console.error] that lists the validation errors
    are left out. *)
Definition importBody (text : jsstring) : M value :=
  data <- lift (JSON.parse text) ;;
  errors <- lift (Share.validateState data) ;;
  if negb (is_nil errors) then ret VNull
  else Share.sanitizeState data.

Definition importStateFromJSON (text : jsstring) : world -> value * world :=
  Share.try_catch (importBody text) "Failed to import state:".

End ShareLink.

(** ** The application state ([src/unnamed/part_000])

    The module-level [state] object is passed explicitly, as the list of
    its properties.  What the functions do to the page (the table rows,
    the preview, the URL hash) is left out. *)

Module App.

Local Open Scope js_scope.

Definition obj := list (jsstring * value).

(** [const state = { title: '', ..., template: DEFAULT_TEMPLATE, dataPoints: [] }] *)
Definition initial : obj :=
  [(lit "title", VStr []); (lit "subtitle", VStr []); (lit "xAxisName", VStr []);
   (lit "yAxisName", VStr []); (lit "template", VStr (lit "modern"));
   (lit "dataPoints", VArr [])].

(** [state.k] *)
Definition prop (state : obj) (k : string) : value :=
  match lookup (lit k) state with
  | Some v => v
  | None => VUndefined
  end.

(** [state.k = v] *)
Definition assign (state : obj) (k : string) (v : value) : obj :=
  JSON.obj_set (lit k) v state.

(** a parameter with a default value *)
Definition default_to (d v : value) : value :=
  match v with
  | VUndefined => d
  | _ => v
  end.

(** [addDataPoint(label = '', x = 50, y = 50)] *)
Definition addDataPoint (label x y : value) (state : obj) : M obj :=
  id <- fresh_id ;;
  let point := VObj [(lit "id", id); (lit "label", default_to (VStr []) label);
                     (lit "x", default_to (VNum (Fin 5 1)) x);
                     (lit "y", default_to (VNum (Fin 5 1)) y)] in
  match prop state "dataPoints" with
  | VArr pts => ret (assign state "dataPoints" (VArr (pts ++ [point])))
  | _ => throw TypeError
  end.

(** [p.id === id] for a string [id] *)
Definition id_is (id : jsstring) (pid : value) : bool :=
  match pid with
  | VStr s => str_eqb s id
  | _ => false
  end.

(** [dataPoints.findIndex(p => p.id === id)], [None] for -1 *)
Fixpoint findIndex (id : jsstring) (pts : list value) : res (option nat) :=
  match pts with
  | [] => Ok None
  | p :: r =>
      rbind (get p "id") (fun pid =>
      if id_is id pid then Ok (Some 0%nat)
      else rbind (findIndex id r) (fun i => Ok (option_map S i)))
  end.

(** [dataPoints.splice(index, 1)] *)
Definition splice1 (index : nat) (pts : list value) : list value :=
  firstn index pts ++ skipn (S index) pts.

(** [removeDataPoint(id)] *)
Definition removeDataPoint (id : jsstring) (state : obj) : res obj :=
  match prop state "dataPoints" with
  | VArr pts =>
      rbind (findIndex id pts) (fun index =>
      match index with
      | Some i => Ok (assign state "dataPoints" (VArr (splice1 i pts)))
      | None => Ok state
      end)
  | _ => Throw TypeError
  end.

(** [point[field] = v] for the point at [index] *)
Definition set_point (index : nat) (field : jsstring) (v : value) (pts : list value)
  : list value :=
  match nth_error pts index with
  | Some (VObj fs) => Templates.update pts index (VObj (JSON.obj_set field v fs))
  | _ => pts
  end.

(** [updateDataPoint(id, field, value)] *)
Definition updateDataPoint (id field : jsstring) (value : value) (state : obj)
  : res obj :=
  match prop state "dataPoints" with
  | VArr pts =>
      rbind (findIndex id pts) (fun index =>
      match index with
      | None => Ok state
      | Some i =>
          if str_eqb field (lit "label") then
            Ok (assign state "dataPoints" (VArr (set_point i field value pts)))
          else if str_eqb field (lit "x") || str_eqb field (lit "y") then
            rbind (parseFloat value) (fun numValue =>
            rbind (Utils.isValidNumber (VNum numValue) (Fin 0 0) (Fin 1 2)) (fun valid =>
            if valid
            then Ok (assign state "dataPoints"
                       (VArr (set_point i field (VNum numValue) pts)))
            else Ok state))
          else Ok state
      end)
  | _ => Throw TypeError
  end.

(** [Object.assign(state, source)] *)
Definition object_assign (state : obj) (source : value) : obj :=
  match source with
  | VObj fs => fold_left (fun st kv => JSON.obj_set (fst kv) (snd kv) st) fs state
  | _ => state
  end.

(** [loadState(data)] *)
Definition loadState (data : value) (state : obj) : M obj :=
  if negb (truthy data) then ret state
  else
    sanitized <- Share.sanitizeState data ;;
    ret (object_assign state sanitized).

(** [addDefaultDataPoints()] *)
Definition addDefaultDataPoints (state : obj) : M obj :=
  let s1 := assign state "title" (VStr (lit "Product Strategy")) in
  let s2 := assign s1 "xAxisName" (VStr (lit "Feasibility")) in
  let s3 := assign s2 "yAxisName" (VStr (lit "Impact")) in
  s4 <- addDataPoint (VStr (lit "Feature A")) (VNum (Fin 8 1)) (VNum (Fin 75 0)) s3 ;;
  s5 <- addDataPoint (VStr (lit "Feature B")) (VNum (Fin 4 1)) (VNum (Fin 85 0)) s4 ;;
  addDataPoint (VStr (lit "Feature C")) (VNum (Fin 7 1)) (VNum (Fin 3 1)) s5.

(** the values of the form inputs, [None] for an input the page lacks *)
Record form := {
  matrixTitle : option jsstring;
  matrixSubtitle : option jsstring;
  xAxisName : option jsstring;
  yAxisName : option jsstring;
  templateSelect : option jsstring
}.

Definition assign_input (k : string) (input : option jsstring) (state : obj) : obj :=
  match input with
  | Some s => assign state k (VStr s)
  | None => state
  end.

(** [updateStateFromForm()] *)
Definition updateStateFromForm (f : form) (state : obj) : obj :=
  assign_input "template" (templateSelect f)
    (assign_input "yAxisName" (yAxisName f)
       (assign_input "xAxisName" (xAxisName f)
          (assign_input "subtitle" (matrixSubtitle f)
             (assign_input "title" (matrixTitle f) state)))).

(** what the page lets happen after it is loaded *)
Inductive event :=
| AddClicked
| DeleteClicked (id : jsstring)
| CellEdited (id field value : jsstring)
| FormEdited (f : form)
| TemplateSelected (name : jsstring)
| HashChanged (location_hash : jsstring).

(** an exception that leaves a listener reaches the [error] listener of
    the window, which logs it; the state is as the listener left it.
    Every function above throws before it assigns, but for
    [addDefaultDataPoints], which runs on the initial state only, where
    [dataPoints] is an array and nothing throws. *)
Definition settle {A} (old : A) (r : res A * world) : A * world :=
  match r with
  | (Ok a, w) => (a, w)
  | (Throw e, w) => (old, snd (console_error "Application error:" e w))
  end.

(** the listener of each event *)
Definition handle (ev : event) (state : obj) (w : world) : obj * world :=
  match ev with
  | AddClicked => settle state (addDataPoint VUndefined VUndefined VUndefined state w)
  | DeleteClicked id => settle state (removeDataPoint id state, w)
  | CellEdited id field value =>
      settle state (updateDataPoint id field (VStr value) state, w)
  | FormEdited f => (updateStateFromForm f state, w)
  | TemplateSelected name => (assign state "template" (VStr name), w)
  | HashChanged location_hash =>
      let '(data, w1) := ShareLink.loadStateFromURL location_hash w in
      if truthy data then settle state (loadState data state w1) else (state, w1)
  end.

(** the [DOMContentLoaded] listener, with the [svg] and [canvas] flags of
    [checkBrowserSupport()]: nothing without them; else the state of the
    link, or the sample points *)
Definition startup (svg canvas : bool) (location_hash : jsstring) (w : world)
  : obj * world :=
  if negb svg || negb canvas then (initial, w)
  else
    let '(urlState, w1) := ShareLink.loadStateFromURL location_hash w in
    if truthy urlState then settle initial (loadState urlState initial w1)
    else settle initial (addDefaultDataPoints initial w1).

Fixpoint run (evs : list event) (s : obj * world) : obj * world :=
  match evs with
  | [] => s
  | ev :: r => run r (handle ev (fst s) (snd s))
  end.

End App.

(** ** What [encodeState] needs and what it gives *)

(** a character that a URL fragment carries as it is: a letter, a digit,
    [-] or [_] *)
Definition url_safe (c : N) : bool :=
  ((65 <=? c) && (c <=? 90) || (97 <=? c) && (c <=? 122) || (48 <=? c) && (c <=? 57)
   || (c =? 45) || (c =? 95))%N.

(** the points [encodeState] can map: the data is not [null], its
    dataPoints is an array or falsy, and no point is [null] *)
Definition chart_points (D : value) : option (list value) :=
  if nullish D then None
  else match array_of (field D "dataPoints") with
       | Some ps => if forallb (fun p => negb (nullish p)) ps then Some ps else None
       | None => None
       end.

(** a value of the model that stands for a JavaScript value: strings of
    16-bit units, finite numbers in canonical form *)
Fixpoint proper (v : value) : bool :=
  match v with
  | VNum (Fin m e) => num_wfb (Fin m e)
  | VStr s => wf_stringb s
  | VArr xs => forallb proper xs
  | VObj fs => forallb (fun kv => wf_stringb (fst kv) && proper (snd kv)) fs
  | _ => true
  end.

(** a string *)
Definition text_value (v : value) : bool :=
  match v with
  | VStr s => wf_stringb s
  | _ => false
  end.

(** a finite number *)
Definition finite_value (v : value) : bool :=
  match v with
  | VNum n => num_wfb n
  | _ => false
  end.

(** a chart that the token carries whole: its texts are strings of any
    length, its template a non-empty string, its points have a string
    for label and finite numbers for coordinates *)
Definition portable (D : value) : bool :=
  truthy D
  && text_value (field D "title") && text_value (field D "subtitle")
  && text_value (field D "xAxisName") && text_value (field D "yAxisName")
  && text_value (field D "template") && truthy (field D "template")
  && match field D "dataPoints" with
     | VArr pts => forallb (fun p => truthy p && text_value (field p "label")
                                     && finite_value (field p "x")
                                     && finite_value (field p "y")) pts
     | _ => false
     end.

(** a chart with texts longer than [sanitizeState] allows, an empty label
    and coordinates out of range *)
Definition unbounded_chart : value :=
  sample_chart (repeat 120%N 150) (lit "s") [] (repeat 121%N 60)
    [sample_point [] (VNum (Fin 999 0)) (VNum (Fin (-5) 0));
     sample_point (repeat 76%N 70) (VNum (Fin 125 (-1))) (VNum (Fin 0 0))].

(** ** What the application state keeps *)

(** a number in [0, 100] *)
Definition coord_in_range (v : value) : bool :=
  match v with
  | VNum n => in_range n
  | _ => false
  end.

(** a point of the state: an object whose id is a string and whose
    coordinates are numbers in [0, 100] *)
Definition point_inv (p : value) : bool :=
  match p with
  | VObj _ => is_str (field p "id") && coord_in_range (field p "x")
              && coord_in_range (field p "y")
  | _ => false
  end.

Definition state_inv (state : App.obj) : bool :=
  match App.prop state "dataPoints" with
  | VArr pts => forallb point_inv pts
  | _ => false
  end.

(** the points without the first one whose id is [id] *)
Fixpoint remove_first (id : jsstring) (pts : list value) : list value :=
  match pts with
  | [] => []
  | p :: r => if App.id_is id (field p "id") then r else p :: remove_first id r
  end.

(** the template of the state is a string *)
Definition template_inv (state : App.obj) : bool :=
  is_str (App.prop state "template").

(** an event that brings no template name which the registry object
    inherits from [Object.prototype] *)
Definition offered (ev : App.event) : bool :=
  match ev with
  | App.TemplateSelected name => negb (inherited name)
  | App.FormEdited f =>
      match App.templateSelect f with
      | Some name => negb (inherited name)
      | None => true
      end
  | _ => true
  end.

(** a session on the sample points: a point added, an x edited and a
    point deleted by identifier, the template changed *)
Definition sample_session : list App.event :=
  [App.AddClicked;
   App.CellEdited (point_id sample_world 1) (lit "x") (lit "12.5");
   App.DeleteClicked (point_id sample_world 0);
   App.TemplateSelected (lit "vibrant")].

(** two states that differ in their points at most *)
Definition points_only (state state' : App.obj) : Prop :=
  forall k, str_eqb (lit k) (lit "dataPoints") = false ->
            App.prop state' k = App.prop state k.

(** ** The colours of the points *)

(** the palette [getPointColor] reads for a template name other than
    minimal: that of vibrant, or that of modern, which also stands in for
    a name the registry lacks *)
Definition palette (name : jsstring) : list string :=
  if str_eqb name (lit "vibrant")
  then ["#d32f2f"; "#7b1fa2"; "#1976d2"; "#388e3c"; "#f57c00"; "#c2185b"]%string
  else ["#2196f3"; "#4caf50"; "#ff9800"; "#e91e63"; "#9c27b0"; "#00bcd4"]%string.

(** the position that [index % len] names in an array of [len] items: a
    non-negative integer names its remainder, a negative multiple of
    [len] names 0; an integer with a negative remainder, a fraction,
    [NaN] and the infinities name none *)
Definition position (index : number) (len : Z) : option nat :=
  match Exported.num_to_int index with
  | Some z => if (Z.rem z len <? 0)%Z then None else Some (Z.to_nat (Z.rem z len))
  | None => None
  end.

(** an index whose remainder is the same in doubles and in exact
    decimals: a plain number that, when it is an integer, is below 2^53 *)
Definition exact_index (index : number) : bool :=
  plain_number index
  && match Exported.num_to_int index with
     | Some z => (Z.abs z <? 2 ^ 53)%Z
     | None => true
     end.

(** ** What a scene holds *)

(** the texts of the nodes hold no markup character *)
Definition all_free (nodes : list Matrix.node) : bool :=
  forallb markup_free (flat_map texts nodes).

(** the circles of the nodes and their fill colours, in document order *)
Definition circles (nodes : list Matrix.node) : list Matrix.node :=
  flat_map (Matrix.elements "circle") nodes.

Definition fills (nodes : list Matrix.node) : list (option Matrix.attr) :=
  map (fun c => Matrix.attribute c "fill") (circles nodes).

(** a chart whose title and label hold markup characters *)
Definition markup_chart : value :=
  sample_chart (lit "<b>") [] (lit "X") (lit "Y")
    [sample_point (lit "a&b") (VNum (Fin 8 1)) (VNum (Fin 75 0))].

(** a record whose texts [sanitizeState] can cut once decoded: each of
    [t], [s], [x], [y] is a string or falsy, each label is a string or
    falsy, and the coordinates convert to strings *)
Definition loadable (st : value) (ps : list value) : bool :=
  text_ok (field st "t") && text_ok (field st "s")
  && text_ok (field st "x") && text_ok (field st "y")
  && forallb (fun p => text_ok (field p "l") && convertible (field p "x")
                       && convertible (field p "y")) ps.

(** the record of [chart_Q4] with the number 5 for title *)
Definition record_bad_title : value :=
  VObj [(lit "v", VNum (Fin 1 0)); (lit "t", VNum (Fin 5 0)); (lit "p", VArr [])].

(** * Properties *)

Ltac Zify.zify_post_hook ::= Z.to_euclidean_division_equations.

(** * Numbers and their text *)

(** [lia] reads [/] and [mod] by a constant through their Euclidean equations *)

Section Digits.

Local Open Scope N_scope.

Lemma of_digits_app (a b : list N) :
  of_digits (a ++ b) = of_digits a * 10 ^ N.of_nat (length b) + of_digits b.
Proof.
  unfold of_digits.
  assert (H : forall l x, fold_left (fun a d => 10 * a + d) l x
                        = x * 10 ^ N.of_nat (length l) + fold_left (fun a d => 10 * a + d) l 0).
  { induction l as [|d l IH]; intros x; cbn [fold_left].
    - simpl. lia.
    - rewrite IH. rewrite (IH (10 * 0 + d)).
      replace (N.of_nat (length (d :: l))) with (N.succ (N.of_nat (length l))) by (simpl; lia).
      rewrite N.pow_succ_r'. lia. }
  rewrite fold_left_app. rewrite H. reflexivity.
Qed.

Lemma of_digits_cons (d : N) (l : list N) :
  of_digits (d :: l) = d * 10 ^ N.of_nat (length l) + of_digits l.
Proof.
  change (d :: l) with ([d] ++ l). rewrite of_digits_app.
  unfold of_digits at 1. simpl. lia.
Qed.

Lemma of_digits_zeros (k : nat) : of_digits (repeat 0 k) = 0.
Proof.
  induction k as [|k IH]; [reflexivity|].
  simpl repeat. rewrite of_digits_cons, IH. lia.
Qed.

Lemma digits_acc_value (f : nat) : forall n acc,
  of_digits (digits_acc f n acc) = n * 10 ^ N.of_nat (length acc) + of_digits acc.
Proof.
  induction f as [|f IH]; intros n acc; simpl digits_acc.
  - apply of_digits_cons.
  - destruct (N.ltb_spec n 10).
    + apply of_digits_cons.
    + rewrite IH, of_digits_cons.
      replace (N.of_nat (length (n mod 10 :: acc))) with (N.succ (N.of_nat (length acc)))
        by (simpl; lia).
      rewrite N.pow_succ_r'.
      nia.
Qed.

Lemma of_digits_digits (n : N) : of_digits (digits n) = n.
Proof.
  unfold digits. rewrite digits_acc_value. simpl. unfold of_digits. simpl. lia.
Qed.

Lemma digits_acc_small (f : nat) : forall n acc,
  n < 2 ^ N.of_nat (S f) -> Forall (fun d => d < 10) acc ->
  Forall (fun d => d < 10) (digits_acc f n acc).
Proof.
  induction f as [|f IH]; intros n acc Hn Hacc; simpl digits_acc.
  - constructor; [|assumption]. simpl in Hn. lia.
  - destruct (N.ltb_spec n 10); [constructor; assumption|].
    apply IH.
    + replace (N.of_nat (S (S f))) with (N.succ (N.of_nat (S f))) in Hn by lia.
      rewrite N.pow_succ_r' in Hn.
      lia.
    + constructor; [|assumption]. lia.
Qed.

Lemma log2_fuel (n : N) : n < 2 ^ N.of_nat (S (N.to_nat (N.log2 n))).
Proof.
  replace (N.of_nat (S (N.to_nat (N.log2 n)))) with (N.succ (N.log2 n)) by lia.
  destruct n as [|p]; [reflexivity|].
  apply N.log2_spec. lia.
Qed.

Lemma digits_small (n : N) : Forall (fun d => d < 10) (digits n).
Proof. apply digits_acc_small; [apply log2_fuel | constructor]. Qed.

Lemma digits_acc_head (f : nat) : forall n acc,
  0 < n -> n < 2 ^ N.of_nat (S f) ->
  exists d r, digits_acc f n acc = d :: r /\ 0 < d /\ (length acc <= length r)%nat.
Proof.
  induction f as [|f IH]; intros n acc Hpos Hn; simpl digits_acc.
  - exists n, acc. auto.
  - destruct (N.ltb_spec n 10); [exists n, acc; auto|].
    destruct (IH (n / 10) (n mod 10 :: acc)) as (d & r & E & Hd & Hl).
    + lia.
    + replace (N.of_nat (S (S f))) with (N.succ (N.of_nat (S f))) in Hn by lia.
      rewrite N.pow_succ_r' in Hn. lia.
    + exists d, r. simpl in Hl. repeat split; auto. apply Nat.le_trans with (2 := Hl). auto.
Qed.

Lemma digits_head (n : N) : 0 < n -> exists d r, digits n = d :: r /\ 0 < d.
Proof.
  intros H. destruct (digits_acc_head (N.to_nat (N.log2 n)) n [] H (log2_fuel n))
    as (d & r & E & Hd & _).
  exists d, r. auto.
Qed.

End Digits.

Section Canonical.

Local Open Scope Z_scope.

Lemma strip10_pow (j : nat) : forall fuel m e,
  m mod 10 <> 0 -> (j <= fuel)%nat ->
  strip10 fuel (m * 10 ^ Z.of_nat j) e = (m, e + Z.of_nat j).
Proof.
  induction j as [|j IH]; intros fuel m e Hm Hf.
  - replace (m * 10 ^ Z.of_nat 0) with m by (simpl; lia).
    replace (e + Z.of_nat 0) with e by lia.
    destruct fuel; simpl; [reflexivity|].
    destruct (Z.eqb_spec (m mod 10) 0); [contradiction|reflexivity].
  - destruct fuel as [|fuel]; [lia|].
    replace (Z.of_nat (S j)) with (Z.succ (Z.of_nat j)) by lia.
    rewrite Z.pow_succ_r by lia.
    replace (m * (10 * 10 ^ Z.of_nat j)) with ((m * 10 ^ Z.of_nat j) * 10) by lia.
    cbn [strip10].
    rewrite Z.mod_mul by lia. rewrite Z.eqb_refl.
    rewrite Z.div_mul by lia.
    rewrite IH by (auto; lia). f_equal. lia.
Qed.

Lemma log2_pow10 (m : Z) (j : nat) :
  m <> 0 -> (j <= Z.to_nat (Z.log2 (Z.abs (m * 10 ^ Z.of_nat j))))%nat.
Proof.
  intros Hm.
  assert (H2 : 2 ^ Z.of_nat j <= Z.abs (m * 10 ^ Z.of_nat j)).
  { rewrite Z.abs_mul.
    assert (0 < 10 ^ Z.of_nat j) by (apply Z.pow_pos_nonneg; lia).
    assert (2 ^ Z.of_nat j <= 10 ^ Z.of_nat j) by (apply Z.pow_le_mono_l; lia).
    rewrite (Z.abs_eq (10 ^ _)) by lia. nia. }
  apply Z.log2_le_mono in H2. rewrite Z.log2_pow2 in H2 by lia. lia.
Qed.

(** a canonical mantissa scaled by a power of ten normalises back *)
Lemma norm_scaled (m e : Z) (j : nat) :
  m <> 0 -> m mod 10 <> 0 -> norm (m * 10 ^ Z.of_nat j) (e - Z.of_nat j) = Fin m e.
Proof.
  intros Hm Hc. unfold norm.
  assert (0 < 10 ^ Z.of_nat j) by (apply Z.pow_pos_nonneg; lia).
  destruct (Z.eqb_spec (m * 10 ^ Z.of_nat j) 0); [nia|].
  rewrite strip10_pow by (auto using log2_pow10).
  f_equal. lia.
Qed.

Lemma norm_canonical (m e : Z) : num_wf (Fin m e) -> norm m e = Fin m e.
Proof.
  intros [H0 H1]. destruct (Z.eq_dec m 0) as [->|Hm].
  - rewrite H0 by reflexivity. reflexivity.
  - pose proof (norm_scaled m e 0 Hm (H1 Hm)) as H.
    simpl in H. replace (m * 1) with m in H by lia.
    replace (e - 0) with e in H by lia. exact H.
Qed.

Lemma strip10_wf (fuel : nat) : forall m e m' e',
  m <> 0 -> Z.abs m < 2 ^ Z.of_nat (S fuel) ->
  strip10 fuel m e = (m', e') -> m' <> 0 /\ m' mod 10 <> 0.
Proof.
  induction fuel as [|fuel IH]; intros m e m' e' Hm Hb E; simpl in E.
  - inversion E; subst. change (2 ^ Z.of_nat 1) with 2 in Hb. lia.
  - destruct (Z.eqb_spec (m mod 10) 0).
    + apply IH in E; auto; [lia|].
      replace (Z.of_nat (S (S fuel))) with (Z.succ (Z.of_nat (S fuel))) in Hb by lia.
      rewrite Z.pow_succ_r in Hb by lia. lia.
    + inversion E; subst. auto.
Qed.

Lemma norm_wf (m e : Z) : num_wf (norm m e).
Proof.
  unfold norm. destruct (Z.eqb_spec m 0); [simpl; lia|].
  destruct (strip10 _ m e) as [m' e'] eqn:E.
  apply strip10_wf in E; auto.
  - simpl. split; intros; [lia | apply E].
  - replace (Z.of_nat (S (Z.to_nat (Z.log2 (Z.abs m))))) with (Z.succ (Z.log2 (Z.abs m))).
    + apply Z.log2_spec. lia.
    + pose proof (Z.log2_nonneg (Z.abs m)). lia.
Qed.

Lemma mk_fin_wf neg ds e : num_wf (mk_fin neg ds e).
Proof. apply norm_wf. Qed.

End Canonical.

Section Shape.

Local Open Scope Z_scope.

Lemma mk_fin_scaled (m e : Z) (ds : list N) (j : nat) :
  m <> 0 -> m mod 10 <> 0 ->
  of_digits ds = (Z.abs_N m * 10 ^ N.of_nat j)%N ->
  mk_fin (m <? 0) ds (e - Z.of_nat j) = Fin m e.
Proof.
  intros Hm Hc E. unfold mk_fin. rewrite E.
  rewrite N2Z.inj_mul, N2Z.inj_pow, N2Z.inj_abs_N, nat_N_Z.
  replace (if m <? 0 then - (Z.abs m * Z.of_N 10 ^ Z.of_nat j)
           else Z.abs m * Z.of_N 10 ^ Z.of_nat j) with (m * 10 ^ Z.of_nat j).
  - apply norm_scaled; assumption.
  - change (Z.of_N 10) with 10. destruct (Z.ltb_spec m 0); lia.
Qed.

Lemma digits_nonempty (n : N) : digits n <> [].
Proof.
  assert (G : forall f k acc, digits_acc f k acc <> []).
  { induction f as [|f IH]; intros k acc; cbn [digits_acc]; [discriminate|].
    destruct (k <? 10)%N; [discriminate | apply IH]. }
  apply G.
Qed.

Lemma digits_length_pos (n : N) : (0 < length (digits n))%nat.
Proof. pose proof (digits_nonempty n). destruct (digits n); [congruence | simpl; lia]. Qed.

Lemma repeat_digits_ok (k : nat) : digits_ok (repeat 0%N k).
Proof. induction k; simpl; constructor; [reflexivity | assumption]. Qed.

Lemma firstn_digits_ok k ds : digits_ok ds -> digits_ok (firstn k ds).
Proof.
  unfold digits_ok. intros H. revert k.
  induction H as [|d l Hd Hl IH]; intros [|k]; simpl; constructor; auto.
Qed.

Lemma skipn_digits_ok k ds : digits_ok ds -> digits_ok (skipn k ds).
Proof.
  unfold digits_ok. intros H. revert k.
  induction H as [|d l Hd Hl IH]; intros [|k]; simpl; auto.
Qed.

Lemma shape_value (m e : Z) :
  num_wf (Fin m e) -> ntext_value (number_shape m e) = Fin m e.
Proof.
  intros [H0 H1]. unfold number_shape.
  destruct (Z.eqb_spec m 0) as [->|Hm].
  { rewrite H0 by reflexivity. reflexivity. }
  specialize (H1 Hm).
  set (ds := digits (Z.abs_N m)).
  pose proof (digits_length_pos (Z.abs_N m)) as Hk. fold ds in Hk.
  assert (Hv : of_digits ds = Z.abs_N m) by apply of_digits_digits.
  destruct (andb (0 <=? e) (Z.of_nat (length ds) + e <=? 21)) eqn:C1.
  { apply andb_prop in C1 as [C1 _]. apply Z.leb_le in C1.
    unfold ntext_value; cbn [nt_neg nt_int nt_frac nt_exp].
    rewrite app_nil_r. cbn [length].
    replace (0 - Z.of_nat 0) with (e - Z.of_nat (Z.to_nat e)) by lia.
    apply mk_fin_scaled; auto.
    rewrite of_digits_app, of_digits_zeros, repeat_length, Hv. lia. }
  destruct (andb (0 <? Z.of_nat (length ds) + e) (Z.of_nat (length ds) + e <=? 21)) eqn:C2.
  { apply andb_prop in C2 as [C2 C2']. apply Z.ltb_lt in C2. apply Z.leb_le in C2'.
    assert (e < 0).
    { destruct (Z.leb_spec 0 e); [|assumption].
      apply Z.leb_le in C2'. rewrite C2' in C1.
      destruct (0 <=? e) eqn:E0; [discriminate | apply Z.leb_gt in E0; lia]. }
    unfold ntext_value; cbn [nt_neg nt_int nt_frac nt_exp].
    rewrite firstn_skipn, length_skipn.
    replace (0 - Z.of_nat (length ds - Z.to_nat (Z.of_nat (length ds) + e)))
      with (e - Z.of_nat 0) by lia.
    apply mk_fin_scaled; auto. rewrite Hv. simpl. lia. }
  destruct (andb (-6 <? Z.of_nat (length ds) + e) (Z.of_nat (length ds) + e <=? 0)) eqn:C3.
  { apply andb_prop in C3 as [C3 C3']. apply Z.ltb_lt in C3. apply Z.leb_le in C3'.
    unfold ntext_value; cbn [nt_neg nt_int nt_frac nt_exp].
    rewrite length_app, repeat_length.
    replace (0 - Z.of_nat (Z.to_nat (- (Z.of_nat (length ds) + e)) + length ds))
      with (e - Z.of_nat 0) by lia.
    apply mk_fin_scaled; auto.
    rewrite of_digits_app, of_digits_app, of_digits_zeros, Hv.
    unfold of_digits at 1. simpl fold_left. simpl N.of_nat. lia. }
  unfold ntext_value; cbn [nt_neg nt_int nt_frac nt_exp].
  rewrite of_digits_digits, N2Z.inj_abs_N.
  assert (Hf : firstn 1 ds ++ match match skipn 1 ds with [] => None | f => Some f end with
                              | Some f => f | None => [] end = ds).
  { rewrite <- (firstn_skipn 1 ds) at 3. destruct (skipn 1 ds); reflexivity. }
  assert (Hl : length (match match skipn 1 ds with [] => None | f => Some f end with
                       | Some f => f | None => [] end) = (length ds - 1)%nat).
  { rewrite <- (length_skipn 1 ds). destruct (skipn 1 ds); reflexivity. }
  rewrite Hf, Hl.
  replace ((if Z.of_nat (length ds) + e - 1 <? 0
            then - Z.abs (Z.of_nat (length ds) + e - 1)
            else Z.abs (Z.of_nat (length ds) + e - 1)) - Z.of_nat (length ds - 1))
    with (e - Z.of_nat 0) by (destruct (Z.ltb_spec (Z.of_nat (length ds) + e - 1) 0); lia).
  apply mk_fin_scaled; auto. rewrite Hv. simpl. lia.
Qed.

Lemma shape_ok (m e : Z) : num_wf (Fin m e) -> ntext_ok (number_shape m e).
Proof.
  intros [H0 H1]. unfold number_shape.
  destruct (Z.eqb_spec m 0) as [->|Hm].
  { repeat split; cbn; try discriminate; auto. constructor; [reflexivity|constructor]. }
  set (ds := digits (Z.abs_N m)).
  pose proof (digits_small (Z.abs_N m)) as Hs. fold ds in Hs.
  pose proof (digits_length_pos (Z.abs_N m)) as Hk. fold ds in Hk.
  destruct (digits_head (Z.abs_N m)) as (d & r & Hd & Hpos); [lia|]. fold ds in Hd.
  destruct (andb (0 <=? e) (Z.of_nat (length ds) + e <=? 21)) eqn:C1.
  { unfold ntext_ok; cbn [nt_neg nt_int nt_frac nt_exp]. repeat split; auto.
    - apply Forall_app; split; [assumption | apply repeat_digits_ok].
    - rewrite Hd. discriminate.
    - rewrite Hd. destruct d; [lia | exact I]. }
  destruct (andb (0 <? Z.of_nat (length ds) + e) (Z.of_nat (length ds) + e <=? 21)) eqn:C2.
  { apply andb_prop in C2 as [C2 C2']. apply Z.ltb_lt in C2. apply Z.leb_le in C2'.
    assert (e < 0).
    { apply Z.leb_le in C2'. rewrite C2' in C1.
      destruct (0 <=? e) eqn:E0; [discriminate | apply Z.leb_gt in E0; lia]. }
    unfold ntext_ok; cbn [nt_neg nt_int nt_frac nt_exp]. repeat split; auto.
    - apply firstn_digits_ok; assumption.
    - intros E. apply (f_equal (@length N)) in E. rewrite length_firstn in E. simpl in E. lia.
    - generalize (Z.to_nat (Z.of_nat (length ds) + e)). rewrite Hd.
      intros [|k']; [exact I|]. destruct d; [lia | exact I].
    - intros E. apply (f_equal (@length N)) in E. rewrite length_skipn in E. simpl in E. lia.
    - apply skipn_digits_ok; assumption. }
  destruct (andb (-6 <? Z.of_nat (length ds) + e) (Z.of_nat (length ds) + e <=? 0)) eqn:C3.
  { unfold ntext_ok; cbn [nt_neg nt_int nt_frac nt_exp]. repeat split; auto; try discriminate.
    - constructor; [reflexivity | constructor].
    - rewrite Hd. destruct (repeat _ _); discriminate.
    - apply Forall_app; split; [apply repeat_digits_ok | assumption]. }
  unfold ntext_ok; cbn [nt_neg nt_int nt_frac nt_exp]. repeat split; auto.
  - apply firstn_digits_ok; assumption.
  - rewrite Hd. discriminate.
  - rewrite Hd. destruct d; [lia | exact I].
  - destruct (skipn 1 ds) eqn:E; [exact I|]. split; [discriminate|].
    rewrite <- E. apply skipn_digits_ok; assumption.
  - apply digits_nonempty.
  - apply digits_small.
Qed.

End Shape.

Section Reading.

Local Open Scope N_scope.

Lemma stops_no_digit rest : stops rest -> no_digit rest.
Proof. destruct rest; simpl; tauto. Qed.

Lemma span_digits_render (ds : list N) (rest : jsstring) :
  digits_ok ds -> no_digit rest ->
  span_digits (render_digits ds ++ rest) = (ds, rest).
Proof.
  intros Hd Hr. induction Hd as [|d ds Hlt Hds IH]; cbn [render_digits map app].
  - destruct rest as [|c r]; [reflexivity|]. simpl in Hr.
    cbn [span_digits]. rewrite Hr. reflexivity.
  - cbn [span_digits]. unfold render_digits in IH. rewrite IH.
    unfold is_digit, digit_char.
    replace (48 <=? 48 + d) with true by (symmetry; apply N.leb_le; lia).
    replace (48 + d <=? 57) with true by (symmetry; apply N.leb_le; lia).
    cbn [andb]. f_equal. f_equal. lia.
Qed.

Lemma render_digits_head (ds : list N) (rest : jsstring) :
  digits_ok ds -> ds <> [] ->
  exists c r, render_digits ds ++ rest = c :: r /\ is_digit c = true.
Proof.
  intros Hd Hne. destruct Hd as [|d ds Hlt Hds]; [congruence|].
  exists (digit_char d), (render_digits ds ++ rest). split; [reflexivity|].
  unfold is_digit, digit_char.
  apply andb_true_intro; split; apply N.leb_le; lia.
Qed.

Lemma is_digit_range c : is_digit c = true -> 48 <= c <= 57.
Proof.
  unfold is_digit. intros H. apply andb_prop in H as [H1 H2].
  apply N.leb_le in H1, H2. lia.
Qed.

(** the exponent part as [scan_exp] reads it back *)
Lemma scan_exp_render (s : bool) (x : list N) (rest : jsstring) :
  x <> [] -> digits_ok x -> no_digit rest ->
  scan_exp (lit "e" ++ (if s then lit "-" else lit "+") ++ render_digits x ++ rest)
  = Some ((let v := Z.of_N (of_digits x) in if s then (- v)%Z else v), rest).
Proof.
  intros Hne Hx Hr.
  destruct s; cbn [lit map list_ascii_of_string app scan_exp N_of_ascii];
    simpl N.eqb; cbv iota; simpl orb; cbv iota;
    rewrite span_digits_render by assumption;
    destruct x; [congruence | reflexivity | congruence | reflexivity].
Qed.

Lemma scan_exp_stops (rest : jsstring) : stops rest -> scan_exp rest = None.
Proof.
  destruct rest as [|c r]; [reflexivity|].
  intros (_ & _ & H1 & H2). simpl.
  destruct (N.eqb_spec c 101); [contradiction|].
  destruct (N.eqb_spec c 69); [contradiction|]. reflexivity.
Qed.

Lemma render_split (t : ntext) (rest : jsstring) :
  render_ntext t ++ rest
  = (if nt_neg t then lit "-" else []) ++ render_digits (nt_int t) ++ tail_text t rest.
Proof.
  unfold render_ntext, tail_text. repeat rewrite <- app_assoc. reflexivity.
Qed.

Lemma tail_no_digit t rest : stops rest -> no_digit (tail_text t rest).
Proof.
  intros H. unfold tail_text.
  destruct (nt_frac t); [reflexivity|].
  destruct (nt_exp t) as [[s x]|]; [reflexivity|].
  simpl. apply stops_no_digit; assumption.
Qed.

Lemma exp_no_digit t rest : stops rest -> no_digit (exp_text t rest).
Proof.
  intros H. unfold exp_text.
  destruct (nt_exp t) as [[s x]|]; [reflexivity|].
  simpl. apply stops_no_digit; assumption.
Qed.

(** the fraction as both readers find it *)
Lemma frac_read (t : ntext) (rest : jsstring) :
  ntext_ok t -> stops rest ->
  read_frac (tail_text t rest)
  = (match nt_frac t with Some f => f | None => [] end, exp_text t rest).
Proof.
  intros (_ & _ & _ & Hf & He) Hr. unfold tail_text. fold (exp_text t rest).
  destruct (nt_frac t) as [f|].
  - destruct Hf as [Hne Hf].
    cbn [lit map list_ascii_of_string app N_of_ascii read_frac]. simpl N.eqb. cbv iota.
    apply span_digits_render; [assumption | apply exp_no_digit; assumption].
  - simpl app. unfold exp_text.
    destruct (nt_exp t) as [[s x]|].
    + reflexivity.
    + simpl. destruct rest as [|c r]; [reflexivity|].
      destruct Hr as (_ & H46 & _). simpl.
      destruct (N.eqb_spec c 46); [contradiction | reflexivity].
Qed.

Lemma exp_read (t : ntext) (rest : jsstring) :
  ntext_ok t -> stops rest ->
  scan_exp (exp_text t rest)
  = match nt_exp t with
    | Some (s, x) =>
        Some ((let v := Z.of_N (of_digits x) in if s then (- v)%Z else v), rest)
    | None => None
    end.
Proof.
  intros (_ & _ & _ & _ & He) Hr. unfold exp_text.
  destruct (nt_exp t) as [[s x]|].
  - destruct He. repeat rewrite <- app_assoc.
    apply scan_exp_render; auto using stops_no_digit.
  - apply scan_exp_stops; assumption.
Qed.

Lemma is_nil_app_l {A} (a b : list A) : a <> [] -> is_nil (a ++ b) = false.
Proof. destruct a; [congruence | reflexivity]. Qed.

Lemma parseFloat_str_render (t : ntext) (rest : jsstring) :
  ntext_ok t -> stops rest ->
  parseFloat_str (render_ntext t ++ rest) = ntext_value t.
Proof.
  intros Hok Hr. pose proof Hok as (Hi & Hne & Hz & Hf & He).
  rewrite render_split.
  destruct (render_digits_head (nt_int t) (tail_text t rest) Hi Hne) as (c & r & Ec & Hc).
  pose proof (is_digit_range c Hc) as Hrange.
  assert (Hsplit : split_sign (trim_start ((if nt_neg t then lit "-" else []) ++
                     render_digits (nt_int t) ++ tail_text t rest))
                   = (nt_neg t, render_digits (nt_int t) ++ tail_text t rest)).
  { destruct (nt_neg t).
    - reflexivity.
    - simpl app. rewrite Ec. unfold trim_start.
      replace (is_space c) with false.
      + unfold split_sign.
        destruct (N.eqb_spec c 45); [lia|]. destruct (N.eqb_spec c 43); [lia|]. reflexivity.
      + symmetry. unfold is_space. simpl.
        repeat match goal with
               | |- context [N.eqb c ?k] => destruct (N.eqb_spec c k); [lia|]
               end. reflexivity. }
  unfold parseFloat_str. rewrite Hsplit.
  replace (starts_with (lit "Infinity") (render_digits (nt_int t) ++ tail_text t rest))
    with false.
  2:{ rewrite Ec. change (lit "Infinity") with (73 :: lit "nfinity").
      cbn [starts_with]. destruct (N.eqb_spec 73 c); [lia | reflexivity]. }
  rewrite span_digits_render by (auto using tail_no_digit).
  rewrite (frac_read t rest Hok Hr).
  rewrite (exp_read t rest Hok Hr).
  rewrite is_nil_app_l by assumption.
  unfold ntext_value.
  destruct (nt_exp t) as [[s x]|]; reflexivity.
Qed.

Lemma json_sign (neg : bool) (body : jsstring) :
  head_is (N.eqb 45) body = false ->
  (if head_is (N.eqb 45) ((if neg then lit "-" else []) ++ body)
   then (true, tl ((if neg then lit "-" else []) ++ body))
   else (false, (if neg then lit "-" else []) ++ body)) = (neg, body).
Proof. intros H. destruct neg; [reflexivity|]. simpl app. rewrite H. reflexivity. Qed.

Lemma parse_number_render (t : ntext) (rest : jsstring) :
  ntext_ok t -> stops rest ->
  JSON.parse_number (render_ntext t ++ rest) = Some (ntext_value t, rest).
Proof.
  intros Hok Hr. pose proof Hok as (Hi & Hne & Hz & Hf & He).
  rewrite render_split.
  destruct (render_digits_head (nt_int t) (tail_text t rest) Hi Hne) as (c & r & Ec & Hc).
  pose proof (is_digit_range c Hc) as Hrange.
  unfold JSON.parse_number.
  rewrite (json_sign (nt_neg t) (render_digits (nt_int t) ++ tail_text t rest)).
  2:{ rewrite Ec. cbn [head_is]. destruct (N.eqb_spec 45 c); [lia | reflexivity]. }
  rewrite span_digits_render by (auto using tail_no_digit).
  rewrite (frac_read t rest Hok Hr).
  rewrite (exp_read t rest Hok Hr).
  replace (is_nil (nt_int t)) with false by (destruct (nt_int t); [congruence | reflexivity]).
  replace (JSON.leading_zero (nt_int t)) with false.
  2:{ unfold JSON.leading_zero. destruct (nt_int t) as [|[|p] [|d l]]; try reflexivity.
      contradiction. }
  replace (head_is (N.eqb 46) (tail_text t rest) &&
           is_nil match nt_frac t with Some f => f | None => [] end) with false.
  2:{ unfold tail_text. destruct (nt_frac t) as [f|].
      - destruct Hf as [Hfne _]. destruct f; [congruence|]. cbn [is_nil]. symmetry. apply andb_false_r.
      - simpl app. destruct (nt_exp t) as [[s x]|]; [reflexivity|].
        simpl app. destruct rest as [|c0 r0]; [reflexivity|]. cbn [head_is is_nil].
        rewrite andb_true_r.
        destruct Hr as (_ & H46 & _). destruct (N.eqb_spec 46 c0); [congruence | reflexivity]. }
  unfold ntext_value.
  destruct (nt_exp t) as [[s x]|] eqn:Ex.
  - rewrite andb_false_r. reflexivity.
  - replace (head_is JSON.is_e (exp_text t rest)) with false;
      [unfold exp_text; rewrite Ex; reflexivity|].
    unfold exp_text. rewrite Ex. simpl app. destruct rest as [|c0 r0]; [reflexivity|].
    cbn [head_is]. destruct Hr as (_ & _ & H1 & H2). unfold JSON.is_e.
    destruct (N.eqb_spec c0 101); [contradiction|].
    destruct (N.eqb_spec c0 69); [contradiction|]. reflexivity.
Qed.

(** *** The two round trips of a number through its text *)

Lemma parseFloat_str_num (m e : Z) :
  num_wf (Fin m e) -> parseFloat_str (num_to_string (Fin m e)) = Fin m e.
Proof.
  intros Hwf. unfold num_to_string.
  rewrite <- (app_nil_r (render_ntext _)).
  rewrite parseFloat_str_render; [apply shape_value | apply shape_ok | exact I]; assumption.
Qed.

Lemma parse_number_num (m e : Z) (rest : jsstring) :
  num_wf (Fin m e) -> stops rest ->
  JSON.parse_number (num_to_string (Fin m e) ++ rest) = Some (Fin m e, rest).
Proof.
  intros Hwf Hr. unfold num_to_string.
  rewrite parse_number_render; [|apply shape_ok|]; try assumption.
  rewrite shape_value by assumption. reflexivity.
Qed.

(** the text of a number starts with a digit or a minus sign *)
Lemma num_text_head (m e : Z) :
  num_wf (Fin m e) ->
  exists c r, num_to_string (Fin m e) = c :: r /\ (c = 45 \/ is_digit c = true).
Proof.
  intros Hwf. pose proof (shape_ok m e Hwf) as (Hi & Hne & _).
  unfold num_to_string, render_ntext.
  destruct (nt_neg (number_shape m e)).
  - eexists _, _. split; [reflexivity | left; reflexivity].
  - cbn [app].
    match goal with
    | |- context [render_digits ?i ++ ?tl] =>
        destruct (render_digits_head i tl Hi Hne) as (c & r & E & Hc)
    end.
    rewrite E. eauto.
Qed.

End Reading.

(** * sanitizeState *)

Section Monad.

Lemma bind_lift {A B} (r : res A) (k : A -> M B) (w : world) :
  bind (lift r) k w = match r with
                      | Ok a => k a w
                      | Throw e => (Throw e, w)
                      end.
Proof. destruct r; reflexivity. Qed.

Lemma bind_ret {A B} (a : A) (k : A -> M B) (w : world) : bind (ret a) k w = k a w.
Proof. reflexivity. Qed.

Lemma get_truthy (o : value) (k : string) :
  truthy o = true -> get o k = Ok (field o k).
Proof. destruct o; simpl; intros H; try discriminate; reflexivity. Qed.

Lemma call_substring0_inv (v x : value) (n : nat) :
  call_substring0 v n = Ok x -> exists s, v = VStr s /\ x = VStr (firstn n s).
Proof.
  destruct v; simpl; intros H; try discriminate.
  inversion H. eauto.
Qed.

(** a property of every pair of an input and the output [f] gives for it
    holds along [arr.map(f)] *)
Lemma mapM_Forall2 {A B} (f : A -> M B) (P : A -> B -> Prop) (Q : A -> Prop) :
  (forall x w y w', Q x -> f x w = (Ok y, w') -> P x y) ->
  forall l w ys w', Forall Q l -> mapM f l w = (Ok ys, w') -> Forall2 P l ys.
Proof.
  intros HP. induction l as [|x l IH]; intros w ys w' HQ E.
  - inversion E. constructor.
  - inversion HQ as [|? ? Hx Hl]; subst.
    cbn [mapM] in E. unfold bind at 1 in E.
    destruct (f x w) as [[y|e] w1] eqn:Ef; [|discriminate].
    unfold bind at 1 in E.
    destruct (mapM f l w1) as [[r|e] w2] eqn:Em; [|discriminate].
    inversion E; subst. constructor; eauto.
Qed.

(** [arr.map(f)] gives the elements back when [f] leaves each unchanged *)
Lemma mapM_fixed {A} (f : A -> M A) (l : list A) (w : world) :
  Forall (fun x => forall w, f x w = (Ok x, w)) l -> mapM f l w = (Ok l, w).
Proof.
  induction 1 as [|x l Hx Hl IH]; [reflexivity|].
  cbn [mapM]. unfold bind at 1. rewrite Hx. unfold bind at 1. rewrite IH. reflexivity.
Qed.

(** [arr.map(f)] returns when [f] returns on each element *)
Lemma mapM_returns {A B} (f : A -> M B) (l : list A) :
  Forall (fun x => forall w, exists y w', f x w = (Ok y, w')) l ->
  forall w, exists ys w', mapM f l w = (Ok ys, w').
Proof.
  induction 1 as [|x l Hx Hl IH]; intros w.
  - exists [], w. reflexivity.
  - destruct (Hx w) as (y & w1 & E1). destruct (IH w1) as (ys & w2 & E2).
    exists (y :: ys), w2. cbn [mapM]. unfold bind at 1. rewrite E1.
    unfold bind at 1. rewrite E2. reflexivity.
Qed.

End Monad.

Section Clamp.

Lemma parseFloat_str_wf (s : jsstring) : num_wf (parseFloat_str s).
Proof.
  unfold parseFloat_str.
  destruct (split_sign (trim_start s)) as [neg s1].
  destruct (starts_with _ s1); [exact I|].
  destruct (span_digits s1) as [ip s2].
  destruct (read_frac s2) as [fp s3].
  destruct (is_nil (ip ++ fp)); [exact I | apply mk_fin_wf].
Qed.

Lemma ltb_zero_nonzero (m e : Z) : num_ltb (Fin 0 0) (Fin m e) = true -> m <> 0%Z.
Proof.
  unfold num_ltb, num_compare, align. intros H Hm. subst m.
  rewrite Z.mul_0_l, Z.mul_0_l in H. discriminate.
Qed.

Lemma clamp_clamped (n : number) : num_wf n -> clamped (clamp n).
Proof.
  intros Hwf. unfold clamp.
  destruct (truthy (VNum n)) eqn:T; [|left; reflexivity].
  destruct n as [| s | m e]; [discriminate | |].
  - destruct s; [left | right; left]; reflexivity.
  - unfold Math_min. cbn [is_nan orb].
    destruct (num_ltb (Fin m e) (Fin 1 2)) eqn:L1; [|right; left; reflexivity].
    unfold Math_max. cbn [is_nan orb].
    destruct (num_ltb (Fin 0 0) (Fin m e)) eqn:L0; [|left; reflexivity].
    right; right. auto.
Qed.

Lemma clamp_fixed (n : number) : clamped n -> clamp n = n.
Proof.
  intros [->|[->|(Hwf & L0 & L1)]]; [reflexivity | reflexivity |].
  unfold clamp. destruct n as [| s | m e].
  - discriminate.
  - destruct s; discriminate.
  - replace (truthy (VNum (Fin m e))) with true.
    + unfold Math_min, Math_max. cbn [is_nan orb]. rewrite L1. cbn [is_nan orb].
      rewrite L0. reflexivity.
    + symmetry. simpl. apply negb_true_iff. apply Z.eqb_neq.
      apply (ltb_zero_nonzero m e L0).
Qed.

Lemma clamped_wf (n : number) : clamped n -> num_wf n.
Proof.
  intros [->|[->|(Hwf & _)]]; auto; simpl; split; intros; try lia; try discriminate.
Qed.

Lemma clamped_in_range (n : number) : clamped n -> in_range n = true.
Proof.
  intros [->|[->|(Hwf & L0 & L1)]]; [reflexivity | reflexivity |].
  unfold in_range, num_leb. unfold num_ltb in L0, L1.
  destruct (num_compare (Fin 0 0) n) as [[]|]; try discriminate.
  destruct (num_compare n (Fin 1 2)) as [[]|]; try discriminate. reflexivity.
Qed.

Lemma clamped_finite (n : number) : clamped n -> exists m e, n = Fin m e.
Proof.
  intros [->|[->|(Hwf & L0 & L1)]]; eauto.
  destruct n as [| s | m e]; [discriminate | destruct s; discriminate | eauto].
Qed.

Lemma clamp_coord_spec (c : value) :
  Share.clamp_coord c = rbind (parseFloat c) (fun n => Ok (VNum (clamp n))).
Proof. reflexivity. Qed.

Lemma clamp_coord_inv (c x : value) :
  Share.clamp_coord c = Ok x ->
  exists n, parseFloat c = Ok n /\ x = VNum (clamp n) /\ clamped (clamp n).
Proof.
  rewrite clamp_coord_spec. unfold parseFloat.
  destruct (toStr c) as [s|e]; simpl; [|discriminate].
  intros H. inversion H. exists (parseFloat_str s). repeat split.
  apply clamp_clamped, parseFloat_str_wf.
Qed.

Lemma clamp_coord_fixed (n : number) :
  clamped n -> Share.clamp_coord (VNum n) = Ok (VNum n).
Proof.
  intros H. rewrite clamp_coord_spec. unfold parseFloat. cbn [toStr rbind].
  destruct (clamped_finite n H) as (m & e & ->).
  rewrite parseFloat_str_num by (apply (clamped_wf _ H)).
  rewrite clamp_fixed by assumption. reflexivity.
Qed.

Lemma clamp_nan : clamp NaN = Fin 0 0.
Proof. reflexivity. Qed.

End Clamp.

Section Points.

Lemma has_label_truthy (p : value) : Share.has_label p = true -> truthy p = true.
Proof. unfold Share.has_label. intros H. apply andb_prop in H. tauto. Qed.

Lemma has_label_label (p : value) :
  Share.has_label p = true -> truthy (field p "label") = true.
Proof.
  unfold Share.has_label, field. intros H. apply andb_prop in H as [_ H].
  destruct (get p "label"); [assumption | discriminate].
Qed.

Lemma or_else_truthy (a b : value) : truthy a = true -> or_else a b = a.
Proof. unfold or_else. intros ->. reflexivity. Qed.

(** what the callback of [map] makes of a labelled point *)
Lemma sanitizePoint_inv (p q : value) (w w' : world) :
  Share.has_label p = true ->
  Share.sanitizePoint p w = (Ok q, w') ->
  exists l x y id,
    field p "label" = VStr l
    /\ parseFloat (field p "x") = Ok x /\ parseFloat (field p "y") = Ok y
    /\ q = VObj [(lit "label", VStr (firstn 50 l)); (lit "x", VNum (clamp x));
                 (lit "y", VNum (clamp y)); (lit "id", id)]
    /\ ((truthy (field p "id") = true /\ id = field p "id" /\ w' = w)
        \/ (truthy (field p "id") = false
            /\ id = VStr (point_id w (tick w)) /\ w' = tick_up w)).
Proof.
  intros Hl E. pose proof (has_label_truthy p Hl) as Hp.
  pose proof (has_label_label p Hl) as Hlab.
  unfold Share.sanitizePoint in E.
  rewrite bind_lift, (get_truthy p "label" Hp) in E.
  rewrite (or_else_truthy _ _ Hlab) in E.
  rewrite bind_lift in E.
  destruct (call_substring0 (field p "label") 50) as [lab|] eqn:El; [|discriminate].
  apply call_substring0_inv in El as (l & El & ->).
  rewrite bind_lift, (get_truthy p "x" Hp), bind_lift in E.
  destruct (Share.clamp_coord (field p "x")) as [x|] eqn:Ex; [|discriminate].
  apply clamp_coord_inv in Ex as (nx & Px & -> & _).
  rewrite bind_lift, (get_truthy p "y" Hp), bind_lift in E.
  destruct (Share.clamp_coord (field p "y")) as [y|] eqn:Ey; [|discriminate].
  apply clamp_coord_inv in Ey as (ny & Py & -> & _).
  rewrite bind_lift, (get_truthy p "id" Hp) in E.
  exists l, nx, ny.
  destruct (truthy (field p "id")) eqn:Tid.
  - rewrite bind_ret in E. inversion E; subst.
    exists (field p "id"). repeat split; auto.
  - unfold bind, fresh_id, ret in E. inversion E; subst.
    exists (VStr (point_id w (tick w))). repeat split; auto.
Qed.

Lemma firstn_nonempty {A} (n : nat) (l : list A) : l <> [] -> firstn (S n) l <> [].
Proof. destruct l; [congruence | discriminate]. Qed.

Lemma truthy_str (l : list N) : truthy (VStr l) = true -> l <> [].
Proof. destruct l; [discriminate | discriminate]. Qed.

Lemma point_id_truthy (w : world) (n : nat) : truthy (VStr (point_id w n)) = true.
Proof. reflexivity. Qed.

Lemma sanitizePoint_ok (p q : value) (w w' : world) :
  Share.has_label p = true ->
  Share.sanitizePoint p w = (Ok q, w') -> point_ok q.
Proof.
  intros Hl E. pose proof (has_label_label p Hl) as Hlab.
  destruct (sanitizePoint_inv p q w w' Hl E) as (l & x & y & id & El & Px & Py & -> & Hid).
  rewrite El in Hlab. apply truthy_str in Hlab.
  exists (firstn 50 l), (clamp x), (clamp y), id. repeat split.
  - apply firstn_nonempty; assumption.
  - apply firstn_le_length.
  - apply clamp_clamped. unfold parseFloat in Px.
    destruct (toStr (field p "x")); [|discriminate]. inversion Px. apply parseFloat_str_wf.
  - apply clamp_clamped. unfold parseFloat in Py.
    destruct (toStr (field p "y")); [|discriminate]. inversion Py. apply parseFloat_str_wf.
  - destruct Hid as [(T & -> & _)|(_ & -> & _)]; [assumption | reflexivity].
Qed.

Lemma firstn_fixed {A} (n : nat) (l : list A) : (length l <= n)%nat -> firstn n l = l.
Proof. intros H. apply firstn_all2; assumption. Qed.

Lemma firstn_idem {A} (n : nat) (l : list A) : firstn n (firstn n l) = firstn n l.
Proof. apply firstn_fixed, firstn_le_length. Qed.

Lemma point_ok_has_label (q : value) : point_ok q -> Share.has_label q = true.
Proof.
  intros (l & x & y & id & -> & Hne & _). destruct l; [congruence | reflexivity].
Qed.

Lemma mk_point_fields (l x y id : value) :
  get (mk_point l x y id) "label" = Ok l /\ get (mk_point l x y id) "x" = Ok x
  /\ get (mk_point l x y id) "y" = Ok y /\ get (mk_point l x y id) "id" = Ok id.
Proof. repeat split. Qed.

(** a sanitized point is left as it is, and no identifier is drawn *)
Lemma sanitizePoint_fixed (q : value) (w : world) :
  point_ok q -> Share.sanitizePoint q w = (Ok q, w).
Proof.
  intros (l & x & y & id & -> & Hne & Hlen & Hx & Hy & Hid).
  fold (mk_point (VStr l) (VNum x) (VNum y) id).
  destruct (mk_point_fields (VStr l) (VNum x) (VNum y) id) as (Gl & Gx & Gy & Gid).
  unfold Share.sanitizePoint.
  rewrite bind_lift, Gl.
  rewrite or_else_truthy by (destruct l; [congruence | reflexivity]).
  rewrite bind_lift. cbn [call_substring0]. unfold substring0.
  rewrite (firstn_fixed 50 l Hlen).
  rewrite bind_lift, Gx, bind_lift, (clamp_coord_fixed x Hx).
  rewrite bind_lift, Gy, bind_lift, (clamp_coord_fixed y Hy).
  rewrite bind_lift, Gid, Hid. reflexivity.
Qed.

End Points.

Section State.

Lemma mk_chart_fields (t s xa ya tm dp : value) :
  let c := mk_chart t s xa ya tm dp in
  get c "title" = Ok t /\ get c "subtitle" = Ok s /\ get c "xAxisName" = Ok xa
  /\ get c "yAxisName" = Ok ya /\ get c "template" = Ok tm /\ get c "dataPoints" = Ok dp.
Proof. repeat split. Qed.

Lemma sanitizeState_falsy (data : value) (w : world) :
  truthy data = false -> Share.sanitizeState data w = (Ok VNull, w).
Proof. intros H. unfold Share.sanitizeState. rewrite H. reflexivity. Qed.

Lemma sanitizeState_points (data : value) (w : world) :
  match field data "dataPoints" with
  | VArr pts => mapM Share.sanitizePoint (firstn 100 (filter Share.has_label pts))
  | _ => ret []
  end w = mapM Share.sanitizePoint (kept_points data) w.
Proof. unfold kept_points. destruct (field data "dataPoints"); reflexivity. Qed.

Lemma sanitizeState_inv (data r : value) (w w' : world) :
  truthy data = true ->
  Share.sanitizeState data w = (Ok r, w') ->
  exists t s xa ya pts,
    or_else (field data "title") (VStr []) = VStr t
    /\ or_else (field data "subtitle") (VStr []) = VStr s
    /\ or_else (field data "xAxisName") (VStr (lit "X Axis")) = VStr xa
    /\ or_else (field data "yAxisName") (VStr (lit "Y Axis")) = VStr ya
    /\ mapM Share.sanitizePoint (kept_points data) w = (Ok pts, w')
    /\ r = mk_chart (VStr (firstn 100 t)) (VStr (firstn 100 s))
                    (VStr (firstn 50 xa)) (VStr (firstn 50 ya))
                    (template_of data) (VArr pts).
Proof.
  intros T E. unfold Share.sanitizeState in E. rewrite T in E. cbn [negb] in E.
  rewrite bind_lift, (get_truthy data "title" T), bind_lift in E.
  destruct (call_substring0 _ 100) as [t'|] eqn:Et in E; [|discriminate].
  apply call_substring0_inv in Et as (t & Et & ->).
  rewrite bind_lift, (get_truthy data "subtitle" T), bind_lift in E.
  destruct (call_substring0 _ 100) as [s'|] eqn:Es in E; [|discriminate].
  apply call_substring0_inv in Es as (s & Es & ->).
  rewrite bind_lift, (get_truthy data "xAxisName" T), bind_lift in E.
  destruct (call_substring0 _ 50) as [xa'|] eqn:Exa in E; [|discriminate].
  apply call_substring0_inv in Exa as (xa & Exa & ->).
  rewrite bind_lift, (get_truthy data "yAxisName" T), bind_lift in E.
  destruct (call_substring0 _ 50) as [ya'|] eqn:Eya in E; [|discriminate].
  apply call_substring0_inv in Eya as (ya & Eya & ->).
  rewrite bind_lift, (get_truthy data "template" T) in E.
  rewrite bind_lift, (get_truthy data "dataPoints" T) in E.
  unfold bind at 1 in E. rewrite sanitizeState_points in E.
  destruct (mapM Share.sanitizePoint (kept_points data) w) as [[pts|] w1] eqn:Em;
    [|discriminate].
  unfold ret in E. inversion E; subst.
  exists t, s, xa, ya, pts. repeat split; auto.
Qed.

Lemma kept_points_labelled (data : value) : Forall (fun p => Share.has_label p = true) (kept_points data).
Proof.
  unfold kept_points. destruct (field data "dataPoints"); try constructor.
  apply Forall_forall. intros p Hp.
  assert (In p (filter Share.has_label xs)).
  { rewrite <- (firstn_skipn 100 (filter Share.has_label xs)). apply in_or_app. auto. }
  apply filter_In in H. tauto.
Qed.

Lemma kept_points_length (data : value) : (length (kept_points data) <= 100)%nat.
Proof.
  unfold kept_points. destruct (field data "dataPoints"); try (simpl; lia).
  apply firstn_le_length.
Qed.

Lemma mapM_length {A B} (f : A -> M B) : forall l w ys w',
  mapM f l w = (Ok ys, w') -> length ys = length l.
Proof.
  induction l as [|x l IH]; intros w ys w' E.
  - inversion E. reflexivity.
  - cbn [mapM] in E. unfold bind at 1 in E.
    destruct (f x w) as [[y|e] w1]; [|discriminate].
    unfold bind at 1 in E.
    destruct (mapM f l w1) as [[r|e] w2] eqn:Em; [|discriminate].
    inversion E; subst. simpl. f_equal. eapply IH; eauto.
Qed.

Lemma or_else_str_nonempty (v : value) (d x : list N) :
  d <> [] -> or_else v (VStr d) = VStr x -> x <> [].
Proof.
  unfold or_else. intros Hd. destruct (truthy v) eqn:T.
  - intros ->. apply truthy_str; assumption.
  - intros E. inversion E; subst. assumption.
Qed.

Lemma template_of_ok (data : value) : includes template_names (template_of data) = true.
Proof.
  unfold template_of. destruct (includes template_names (field data "template")) eqn:E;
    [assumption | reflexivity].
Qed.

(** whatever [sanitizeState] returns is [null] or a valid chart *)
Lemma sanitizeState_chart_ok (data r : value) (w w' : world) :
  Share.sanitizeState data w = (Ok r, w') ->
  (truthy data = false /\ r = VNull /\ w' = w) \/ (truthy data = true /\ chart_ok r).
Proof.
  intros E. destruct (truthy data) eqn:T.
  - right. split; [reflexivity|].
    destruct (sanitizeState_inv data r w w' T E)
      as (t & s & xa & ya & pts & Et & Es & Exa & Eya & Em & ->).
    exists (firstn 100 t), (firstn 100 s), (firstn 50 xa), (firstn 50 ya),
      (template_of data), pts.
    repeat split; try apply firstn_le_length.
    + apply firstn_nonempty. eapply or_else_str_nonempty; [|exact Exa]. discriminate.
    + apply firstn_nonempty. eapply or_else_str_nonempty; [|exact Eya]. discriminate.
    + apply template_of_ok.
    + rewrite (mapM_length _ _ _ _ _ Em). apply kept_points_length.
    + pose proof (mapM_Forall2 Share.sanitizePoint (fun _ q => point_ok q)
                    (fun p => Share.has_label p = true)) as H.
      specialize (H (fun x w y w' Hx Ex => sanitizePoint_ok x y w w' Hx Ex)).
      specialize (H _ _ _ _ (kept_points_labelled data) Em).
      clear - H. induction H as [|x y l l' Hxy Hl IH]; constructor; [exact Hxy | exact IH].
  - left. rewrite (sanitizeState_falsy data w T) in E. inversion E. auto.
Qed.

Lemma filter_all {A} (f : A -> bool) (l : list A) :
  Forall (fun x => f x = true) l -> filter f l = l.
Proof. induction 1 as [|x l Hx Hl IH]; simpl; [|rewrite Hx, IH]; reflexivity. Qed.

(** a valid chart is left as it is, and no identifier is drawn *)
Lemma sanitizeState_fixed (r : value) (w : world) :
  chart_ok r -> Share.sanitizeState r w = (Ok r, w).
Proof.
  intros (t & s & xa & ya & tm & pts & -> & Ht & Hs & Hxa & Hxl & Hya & Hyl & Htm & Hn & Hp).
  fold (mk_chart (VStr t) (VStr s) (VStr xa) (VStr ya) tm (VArr pts)).
  destruct (mk_chart_fields (VStr t) (VStr s) (VStr xa) (VStr ya) tm (VArr pts))
    as (Gt & Gs & Gxa & Gya & Gtm & Gdp).
  unfold Share.sanitizeState. cbn [truthy mk_chart negb].
  fold (mk_chart (VStr t) (VStr s) (VStr xa) (VStr ya) tm (VArr pts)).
  rewrite bind_lift, Gt, bind_lift.
  replace (or_else (VStr t) (VStr [])) with (VStr t) by (destruct t; reflexivity).
  cbn [call_substring0]. unfold substring0. rewrite (firstn_fixed 100 t Ht).
  rewrite bind_lift, Gs, bind_lift.
  replace (or_else (VStr s) (VStr [])) with (VStr s) by (destruct s; reflexivity).
  cbn [call_substring0]. unfold substring0. rewrite (firstn_fixed 100 s Hs).
  rewrite bind_lift, Gxa, bind_lift.
  rewrite or_else_truthy by (destruct xa; [congruence | reflexivity]).
  cbn [call_substring0]. unfold substring0. rewrite (firstn_fixed 50 xa Hxl).
  rewrite bind_lift, Gya, bind_lift.
  rewrite or_else_truthy by (destruct ya; [congruence | reflexivity]).
  cbn [call_substring0]. unfold substring0. rewrite (firstn_fixed 50 ya Hyl).
  rewrite bind_lift, Gtm. cbv iota.
  change (includes ["minimal"; "modern"; "vibrant"]%string tm)
    with (includes template_names tm). rewrite Htm.
  rewrite bind_lift, Gdp. cbv iota.
  rewrite filter_all by (eapply Forall_impl; [|exact Hp]; apply point_ok_has_label).
  rewrite (firstn_fixed 100 pts Hn).
  unfold bind at 1. rewrite mapM_fixed; [reflexivity|].
  eapply Forall_impl; [|exact Hp]. intros q Hq w0. apply sanitizePoint_fixed; assumption.
Qed.

End State.

Section Returns.

Lemma sanitizeState_eq (data : value) (w w' : world) (t s xa ya : list N) (pts : list value) :
  truthy data = true ->
  or_else (field data "title") (VStr []) = VStr t ->
  or_else (field data "subtitle") (VStr []) = VStr s ->
  or_else (field data "xAxisName") (VStr (lit "X Axis")) = VStr xa ->
  or_else (field data "yAxisName") (VStr (lit "Y Axis")) = VStr ya ->
  mapM Share.sanitizePoint (kept_points data) w = (Ok pts, w') ->
  Share.sanitizeState data w
  = (Ok (mk_chart (VStr (firstn 100 t)) (VStr (firstn 100 s))
                  (VStr (firstn 50 xa)) (VStr (firstn 50 ya))
                  (template_of data) (VArr pts)), w').
Proof.
  intros T Et Es Exa Eya Em. unfold Share.sanitizeState. rewrite T. cbn [negb].
  rewrite bind_lift, (get_truthy data "title" T), bind_lift, Et. cbn [call_substring0].
  rewrite bind_lift, (get_truthy data "subtitle" T), bind_lift, Es. cbn [call_substring0].
  rewrite bind_lift, (get_truthy data "xAxisName" T), bind_lift, Exa. cbn [call_substring0].
  rewrite bind_lift, (get_truthy data "yAxisName" T), bind_lift, Eya. cbn [call_substring0].
  rewrite bind_lift, (get_truthy data "template" T).
  rewrite bind_lift, (get_truthy data "dataPoints" T).
  unfold bind at 1. rewrite sanitizeState_points, Em. reflexivity.
Qed.

Lemma text_ok_or_else (v : value) (d : list N) :
  text_ok v = true -> exists x, or_else v (VStr d) = VStr x.
Proof.
  intros H. unfold or_else. destruct (truthy v) eqn:T; [|eauto].
  destruct v; cbn [text_ok] in H; try (rewrite T in H; discriminate H). eauto.
Qed.

Lemma clamp_coord_returns (c : value) :
  convertible c = true -> exists n, Share.clamp_coord c = Ok (VNum n).
Proof.
  unfold convertible. rewrite clamp_coord_spec. unfold parseFloat.
  destruct (toStr c) as [s|]; [|discriminate]. intros _. simpl. eauto.
Qed.

Lemma sanitizePoint_returns (p : value) (w : world) :
  Share.has_label p = true -> is_str (field p "label") = true ->
  convertible (field p "x") = true -> convertible (field p "y") = true ->
  exists q w', Share.sanitizePoint p w = (Ok q, w').
Proof.
  intros Hl Hs Hx Hy. pose proof (has_label_truthy p Hl) as Hp.
  pose proof (has_label_label p Hl) as Hlab.
  destruct (field p "label") as [| | | |l| |] eqn:El; try discriminate.
  destruct (clamp_coord_returns _ Hx) as (nx & Ex).
  destruct (clamp_coord_returns _ Hy) as (ny & Ey).
  unfold Share.sanitizePoint.
  rewrite bind_lift, (get_truthy p "label" Hp), El, (or_else_truthy _ _ Hlab).
  rewrite bind_lift. cbn [call_substring0].
  rewrite bind_lift, (get_truthy p "x" Hp), bind_lift, Ex.
  rewrite bind_lift, (get_truthy p "y" Hp), bind_lift, Ey.
  rewrite bind_lift, (get_truthy p "id" Hp).
  destruct (truthy (field p "id")); eexists _, _; reflexivity.
Qed.

(** on a repairable input [sanitizeState] returns a valid chart *)
Lemma sanitizeState_returns (data : value) (w : world) :
  repairable data = true ->
  exists r w', Share.sanitizeState data w = (Ok r, w') /\ chart_ok r.
Proof.
  unfold repairable. intros H.
  apply andb_prop in H as [H Hk]. apply andb_prop in H as [H Hya].
  apply andb_prop in H as [H Hxa]. apply andb_prop in H as [H Hs].
  apply andb_prop in H as [H Ht].
  destruct (text_ok_or_else _ [] Ht) as (t & Et).
  destruct (text_ok_or_else _ [] Hs) as (s & Es).
  destruct (text_ok_or_else _ (lit "X Axis") Hxa) as (xa & Exa).
  destruct (text_ok_or_else _ (lit "Y Axis") Hya) as (ya & Eya).
  destruct (mapM_returns Share.sanitizePoint (kept_points data)) with (w := w)
    as (pts & w' & Em).
  { pose proof (kept_points_labelled data) as Hl.
    rewrite forallb_forall in Hk. rewrite Forall_forall in Hl. apply Forall_forall.
    intros p Hp w1. specialize (Hk p Hp). specialize (Hl p Hp).
    apply andb_prop in Hk as [Hk Hy]. apply andb_prop in Hk as [Hk Hx].
    apply sanitizePoint_returns; assumption. }
  pose proof (sanitizeState_eq data w w' t s xa ya pts H Et Es Exa Eya Em) as E.
  eexists _, _. split; [exact E|].
  destruct (sanitizeState_chart_ok _ _ _ _ E) as [(T & _)|(_ & Hc)]; [congruence | exact Hc].
Qed.

End Returns.

(** * Base64 and the URL-safe alphabet *)

(** comparisons on [N] in the goal, split into their two cases *)
Ltac ncases :=
  repeat match goal with
         | |- context [N.ltb ?a ?b] => destruct (N.ltb_spec a b)
         | |- context [N.leb ?a ?b] => destruct (N.leb_spec a b)
         | |- context [N.eqb ?a ?b] => destruct (N.eqb_spec a b)
         end.

Section Base64Encode.

Local Open Scope N_scope.

Lemma list_ind3 {A} (P : list A -> Prop) :
  P [] -> (forall a, P [a]) -> (forall a b, P [a; b]) ->
  (forall a b c t, P t -> P (a :: b :: c :: t)) -> forall l, P l.
Proof.
  intros H0 H1 H2 H3.
  assert (G : forall l, P l /\ (forall a, P (a :: l)) /\ (forall a b, P (a :: b :: l))).
  { induction l as [|x l (IH0 & IH1 & IH2)]; repeat split; auto. }
  apply G.
Qed.

Lemma padding_step {A} (a b c : A) (t : list A) (f : nat -> nat) :
  Nat.modulo (length (a :: b :: c :: t)) 3 = Nat.modulo (length t) 3.
Proof.
  change (length (a :: b :: c :: t)) with (3 + length t)%nat.
  replace (3 + length t)%nat with (length t + 1 * 3)%nat by lia.
  apply Nat.Div0.mod_add.
Qed.

Lemma encode_spec (bs : list N) :
  Base64.encode bs = map Base64.b64_char (sextets bs) ++ repeat 61 (padding bs).
Proof.
  induction bs as [| a | a b | a b c t IH] using list_ind3; try reflexivity.
  cbn [Base64.encode sextets map app]. rewrite IH.
  unfold padding. rewrite (padding_step a b c t (fun x => x)). reflexivity.
Qed.

Lemma sextets_small (bs : list N) : bytes bs -> Forall (fun v => v < 64) (sextets bs).
Proof.
  unfold bytes.
  induction bs as [| a | a b | a b c t IH] using list_ind3; intros H; cbn [sextets].
  - constructor.
  - inversion H; subst. repeat constructor; lia.
  - inversion H as [|? ? Ha H']; subst. inversion H'; subst. repeat constructor; lia.
  - inversion H as [|? ? Ha H']; subst. inversion H' as [|? ? Hb H'']; subst.
    inversion H'' as [|? ? Hc Ht]; subst.
    repeat (constructor; [lia|]). apply IH; assumption.
Qed.

Lemma decode_sextets (bs : list N) : bytes bs -> Base64.decode (sextets bs) = bs.
Proof.
  unfold bytes.
  induction bs as [| a | a b | a b c t IH] using list_ind3; intros H;
    cbn [sextets Base64.decode].
  - reflexivity.
  - inversion H; subst. f_equal. lia.
  - inversion H as [|? ? Ha H']; subst. inversion H'; subst. f_equal; [lia|].
    f_equal. lia.
  - inversion H as [|? ? Ha H']; subst. inversion H' as [|? ? Hb H'']; subst.
    inversion H'' as [|? ? Hc Ht]; subst.
    rewrite IH by assumption. f_equal; [lia|]. f_equal; [lia|]. f_equal. lia.
Qed.

Lemma b64_val_char (v : N) : v < 64 -> Base64.b64_val (Base64.b64_char v) = Some v.
Proof.
  intros H. unfold Base64.b64_char.
  destruct (N.ltb_spec v 26); [|destruct (N.ltb_spec v 52); [|destruct (N.ltb_spec v 62);
    [|destruct (N.eqb_spec v 62)]]];
  unfold Base64.b64_val; ncases; cbn [andb]; try lia; f_equal; lia.
Qed.

Lemma values_chars (vs : list N) :
  Forall (fun v => v < 64) vs -> Base64.values (map Base64.b64_char vs) = Some vs.
Proof.
  induction 1 as [|v vs Hv Hvs IH]; [reflexivity|].
  cbn [map Base64.values]. rewrite b64_val_char by assumption. rewrite IH. reflexivity.
Qed.

Lemma alpha_char (v : N) : v < 64 -> alpha (Base64.b64_char v).
Proof. intros H. exists v. apply b64_val_char; assumption. Qed.

Lemma alpha_facts (c : N) :
  alpha c -> c <> 61 /\ c <> 45 /\ c <> 95 /\ Base64.is_ascii_ws c = false.
Proof.
  intros [v Hv].
  assert (Hn : forall k, Base64.b64_val k = None -> c <> k).
  { intros k Hk E. subst c. rewrite Hk in Hv. discriminate Hv. }
  split; [apply Hn; reflexivity|]. split; [apply Hn; reflexivity|].
  split; [apply Hn; reflexivity|]. unfold Base64.is_ascii_ws.
  repeat match goal with
         | |- context [N.eqb c ?k] =>
             destruct (N.eqb_spec c k) as [E|_];
             [exfalso; revert E; apply Hn; reflexivity|]
         end.
  reflexivity.
Qed.

Lemma body_alpha (bs : list N) :
  bytes bs -> Forall alpha (map Base64.b64_char (sextets bs)).
Proof.
  intros H. apply sextets_small in H. induction H; constructor; auto using alpha_char.
Qed.

End Base64Encode.

Section Atob.

Local Open Scope N_scope.

Lemma filter_none (s : list N) :
  Forall (fun c => Base64.is_ascii_ws c = false) s ->
  filter (fun c => negb (Base64.is_ascii_ws c)) s = s.
Proof.
  induction 1 as [|c s Hc Hs IH]; [reflexivity|]. simpl. rewrite Hc, IH. reflexivity.
Qed.

Lemma sextets_length (bs : list N) :
  Nat.modulo (length (sextets bs)) 4
  = match padding bs with 0%nat => 0%nat | 1%nat => 3%nat | _ => 2%nat end.
Proof.
  induction bs as [| a | a b | a b c t IH] using list_ind3; try reflexivity.
  unfold padding. rewrite (padding_step a b c t (fun x => x)). fold (padding t).
  rewrite <- IH. cbn [sextets length]. 
  replace (S (S (S (S (length (sextets t)))))) with (length (sextets t) + 1 * 4)%nat by lia.
  apply Nat.Div0.mod_add.
Qed.

Lemma padding_le (bs : list N) : (padding bs <= 2)%nat.
Proof.
  unfold padding. destruct (Nat.modulo (length bs) 3) as [|[|[|n]]]; lia.
Qed.

Lemma drop_padding_spec (body : list N) (k : nat) :
  Forall (fun c => c <> 61) body -> (k <= 2)%nat ->
  Base64.drop_padding (body ++ repeat 61 k) = body.
Proof.
  intros Hb Hk. unfold Base64.drop_padding. rewrite rev_app_distr.
  assert (Hr : match rev body with 61 :: _ => False | _ => True end).
  { destruct (rev body) as [|c r] eqn:E; [exact I|].
    assert (In c body) by (apply in_rev; rewrite E; left; reflexivity).
    rewrite Forall_forall in Hb. specialize (Hb c H).
    destruct c as [|p]; [exact I|].
    destruct (N.eq_dec (N.pos p) 61) as [E'|E']; [contradiction|].
    repeat (destruct p as [p|p|]; try exact I). congruence. }
  destruct k as [|[|[|k]]]; [| | |lia]; cbn [repeat rev app].
  - destruct (rev body) as [|c r] eqn:E; [apply app_nil_r|].
    destruct (N.eq_dec c 61) as [->|Hc]; [contradiction|].
    clear E Hr. destruct c as [|p]; [apply app_nil_r|].
    repeat (destruct p as [p|p|]; try apply app_nil_r). congruence.
  - destruct (rev body) as [|c r] eqn:E.
    + apply (f_equal (@rev N)) in E. rewrite rev_involutive in E. symmetry. exact E.
    + destruct (N.eq_dec c 61) as [->|Hc]; [contradiction|].
      assert (Eb : rev (c :: r) = body) by (rewrite <- E; apply rev_involutive).
      clear E Hr. destruct c as [|p]; [exact Eb|].
      repeat (destruct p as [p|p|]; try exact Eb). congruence.
  - cbn [app]. apply rev_involutive.
Qed.

Lemma encode_length (bs : list N) : Nat.modulo (length (Base64.encode bs)) 4 = 0%nat.
Proof.
  induction bs as [| a | a b | a b c t IH] using list_ind3; try reflexivity.
  cbn [Base64.encode length].
  replace (S (S (S (S (length (Base64.encode t))))))
    with (length (Base64.encode t) + 1 * 4)%nat by lia.
  rewrite Nat.Div0.mod_add. exact IH.
Qed.

(** [atob] undoes [btoa] *)
Lemma atob_encode (bs : list N) : bytes bs -> Base64.atob (Base64.encode bs) = Ok bs.
Proof.
  intros Hb. pose proof (body_alpha bs Hb) as Ha.
  unfold Base64.atob.
  rewrite filter_none.
  2:{ rewrite encode_spec. apply Forall_app. split.
      - eapply Forall_impl; [|exact Ha]. intros c Hc. apply alpha_facts; assumption.
      - apply Forall_forall. intros c Hc. apply repeat_spec in Hc. subst. reflexivity. }
  rewrite encode_length. cbn [Nat.eqb].
  rewrite encode_spec, drop_padding_spec.
  2:{ eapply Forall_impl; [|exact Ha]. intros c Hc. apply alpha_facts; assumption. }
  2:{ apply padding_le. }
  rewrite length_map, sextets_length.
  rewrite values_chars by (apply sextets_small; assumption).
  rewrite decode_sextets by assumption.
  destruct (padding bs) as [|[|n]]; reflexivity.
Qed.

Lemma btoa_bytes (s : list N) : bytes s -> Base64.btoa s = Ok (Base64.encode s).
Proof.
  intros H. unfold Base64.btoa.
  replace (forallb (fun c => c <? 256) s) with true; [reflexivity|].
  symmetry. apply forallb_forall. intros c Hc.
  unfold bytes in H. rewrite Forall_forall in H. apply N.ltb_lt. auto.
Qed.

End Atob.

Section UrlSafe.

Local Open Scope N_scope.

Lemma strip_repeat (k : nat) : Share.strip_trailing_eq (repeat 61 k) = [].
Proof. induction k as [|k IH]; [reflexivity|]. simpl. rewrite IH. reflexivity. Qed.

Lemma strip_trailing_spec (s : list N) (k : nat) :
  Forall (fun c => c <> 61) s -> Share.strip_trailing_eq (s ++ repeat 61 k) = s.
Proof.
  induction 1 as [|c s Hc Hs IH]; [apply strip_repeat|].
  cbn [app Share.strip_trailing_eq]. rewrite IH.
  destruct s; [|reflexivity].
  destruct (N.eqb_spec c 61); [contradiction | reflexivity].
Qed.

Lemma replace_all_app a b s t :
  Share.replace_all a b (s ++ t) = Share.replace_all a b s ++ Share.replace_all a b t.
Proof. apply map_app. Qed.

Lemma replace_all_same a b s :
  Forall (fun c => c <> a) s -> Share.replace_all a b s = s.
Proof.
  induction 1 as [|c s Hc Hs IH]; [reflexivity|].
  cbn [Share.replace_all map]. fold (Share.replace_all a b s). rewrite IH.
  destruct (N.eqb_spec c a); [contradiction | reflexivity].
Qed.

(** the URL-safe form of a body of the alphabet, and back *)
Lemma url_back (s : list N) :
  Forall alpha s ->
  Share.replace_all 95 47 (Share.replace_all 45 43
    (Share.replace_all 47 95 (Share.replace_all 43 45 s))) = s.
Proof.
  induction 1 as [|c s Hc Hs IH]; [reflexivity|].
  unfold Share.replace_all in *. cbn [map]. rewrite IH. f_equal.
  apply alpha_facts in Hc as (_ & H45 & H95 & _).
  destruct (N.eqb_spec c 43) as [->|H43]; [reflexivity|].
  destruct (N.eqb_spec c 47) as [->|H47]; [reflexivity|].
  destruct (N.eqb_spec c 45); [contradiction|].
  destruct (N.eqb_spec c 95); [contradiction|]. reflexivity.
Qed.

Lemma url_no_eq (s : list N) :
  Forall alpha s ->
  Forall (fun c => c <> 61) (Share.replace_all 47 95 (Share.replace_all 43 45 s)).
Proof.
  induction 1 as [|c s Hc Hs IH]; [constructor|].
  unfold Share.replace_all in *. cbn [map]. constructor; [|exact IH].
  apply alpha_facts in Hc as (H61 & _).
  destruct (N.eqb_spec c 43) as [->|H43]; [discriminate|].
  destruct (N.eqb_spec c 47) as [->|H47]; [discriminate | assumption].
Qed.

Lemma pad4_spec (s : list N) (k : nat) :
  Nat.modulo (length s) 4 = match k with 0%nat => 0%nat | 1%nat => 3%nat | _ => 2%nat end ->
  (k <= 2)%nat -> Share.pad4 3 s = s ++ repeat 61 k.
Proof.
  intros Hm Hk.
  assert (L : forall t : list N, length (t ++ [61]) = S (length t))
    by (intros; rewrite length_app; simpl; lia).
  destruct k as [|[|[|k]]]; [| | |lia]; cbn [repeat Share.pad4].
  - rewrite Hm. cbn [Nat.eqb]. symmetry. apply app_nil_r.
  - rewrite Hm. cbn [Nat.eqb]. rewrite L.
    replace (Nat.modulo (S (length s)) 4) with 0%nat; [reflexivity|].
    symmetry. rewrite <- Nat.add_1_r, Nat.Div0.add_mod, Hm. reflexivity.
  - rewrite Hm. cbn [Nat.eqb]. rewrite L.
    replace (Nat.modulo (S (length s)) 4) with 3%nat.
    2:{ symmetry. rewrite <- Nat.add_1_r, Nat.Div0.add_mod, Hm. reflexivity. }
    cbn [Nat.eqb]. rewrite L, L.
    replace (Nat.modulo (S (S (length s))) 4) with 0%nat.
    2:{ symmetry. replace (S (S (length s))) with (length s + 2)%nat by lia.
        rewrite Nat.Div0.add_mod, Hm. reflexivity. }
    rewrite <- app_assoc. reflexivity.
Qed.

(** the token of a byte sequence reads back as the sequence *)
Lemma token_bytes (bs : list N) :
  bytes bs ->
  Base64.atob (Share.pad4 3 (Share.replace_all 95 47 (Share.replace_all 45 43
      (Share.urlSafe (Base64.encode bs))))) = Ok bs.
Proof.
  intros Hb. pose proof (body_alpha bs Hb) as Ha.
  assert (He : Forall (fun c : N => c <> 43 /\ c <> 47) (repeat 61 (padding bs))).
  { apply Forall_forall. intros c Hc. apply repeat_spec in Hc. subst. lia. }
  unfold Share.urlSafe. rewrite encode_spec.
  rewrite !replace_all_app.
  rewrite (replace_all_same 43 45 (repeat 61 _))
    by (eapply Forall_impl; [|exact He]; simpl; tauto).
  rewrite (replace_all_same 47 95 (repeat 61 _))
    by (eapply Forall_impl; [|exact He]; simpl; tauto).
  rewrite strip_trailing_spec by (apply url_no_eq; assumption).
  rewrite url_back by assumption.
  rewrite (pad4_spec _ (padding bs)).
  - rewrite <- encode_spec. apply atob_encode; assumption.
  - rewrite length_map. apply sextets_length.
  - apply padding_le.
Qed.

End UrlSafe.

(** * UTF-8 *)

(** comparisons on [N] in the goal, settled by arithmetic *)
Ltac settle :=
  repeat match goal with
         | |- context [N.ltb ?a ?b] =>
             first [ replace (N.ltb a b) with true by (symmetry; apply N.ltb_lt; lia)
                   | replace (N.ltb a b) with false by (symmetry; apply N.ltb_ge; lia) ]
         | |- context [N.leb ?a ?b] =>
             first [ replace (N.leb a b) with true by (symmetry; apply N.leb_le; lia)
                   | replace (N.leb a b) with false by (symmetry; apply N.leb_gt; lia) ]
         end.

Section Utf8Round.

Local Open Scope N_scope.

Lemma high_range c : Utf8.is_high c = true -> 55296 <= c < 56320.
Proof.
  unfold Utf8.is_high. intros H. apply andb_prop in H as [H1 H2].
  apply N.leb_le in H1. apply N.ltb_lt in H2. lia.
Qed.

Lemma low_range c : Utf8.is_low c = true -> 56320 <= c < 57344.
Proof.
  unfold Utf8.is_low. intros H. apply andb_prop in H as [H1 H2].
  apply N.leb_le in H1. apply N.ltb_lt in H2. lia.
Qed.

Lemma not_high c : Utf8.is_high c = false -> c < 55296 \/ 56320 <= c.
Proof.
  unfold Utf8.is_high. destruct (N.leb_spec 55296 c); destruct (N.ltb_spec c 56320);
    cbn [andb]; intros; try discriminate; lia.
Qed.

Lemma not_low c : Utf8.is_low c = false -> c < 56320 \/ 57344 <= c.
Proof.
  unfold Utf8.is_low. destruct (N.leb_spec 56320 c); destruct (N.ltb_spec c 57344);
    cbn [andb]; intros; try discriminate; lia.
Qed.

Lemma is_cont_intro b : 128 <= b < 192 -> Utf8.is_cont b = true.
Proof.
  intros H. unfold Utf8.is_cont. apply andb_true_intro.
  split; [apply N.leb_le | apply N.ltb_lt]; lia.
Qed.

Lemma rbind_ok {A B} (m : res A) (k : A -> res B) (b : B) :
  rbind m k = Ok b -> exists a, m = Ok a /\ k a = Ok b.
Proof. destruct m; simpl; [eauto | discriminate]. Qed.

Lemma split64 (n : N) : n = 64 * (n / 64) + n mod 64 /\ n mod 64 < 64.
Proof. lia. Qed.

Lemma div4096 (n : N) : n / 4096 = n / 64 / 64.
Proof. rewrite N.Div0.div_div. reflexivity. Qed.

Lemma div262144 (n : N) : n / 262144 = n / 64 / 64 / 64.
Proof. rewrite !N.Div0.div_div. reflexivity. Qed.

Lemma pair_back (x y : N) :
  y < 1024 -> (x * 1024 + y) / 1024 = x /\ (x * 1024 + y) mod 1024 = y.
Proof. intros H. lia. Qed.

Lemma Ok_inj {A} (a b : A) : Ok a = Ok b -> a = b.
Proof. congruence. Qed.

(** the bytes [encode] writes read back as the string *)
Lemma utf8_round (n : nat) : forall s bs,
  (length s <= n)%nat -> wf_string s -> Utf8.encode s = Ok bs ->
  bytes bs /\ Utf8.decode bs = Ok s.
Proof.
  induction n as [|n IH]; intros s bs Hn Hwf E.
  { destruct s; [|simpl in Hn; lia]. inversion E. split; [constructor | reflexivity]. }
  destruct s as [|c t]; [inversion E; split; [constructor | reflexivity]|].
  inversion Hwf as [|? ? Hc Ht]; subst.
  cbn [Utf8.encode] in E.
  destruct (N.ltb_spec c 128) as [C1|C1].
  { apply rbind_ok in E as (r & Er & E). apply Ok_inj in E. subst bs.
    destruct (IH t r) as [Hb Hd]; auto; [simpl in Hn; lia|].
    split; [apply Forall_cons; [lia | exact Hb]|].
    cbn [Utf8.decode]. settle. rewrite Hd. reflexivity. }
  destruct (N.ltb_spec c 2048) as [C2|C2].
  { apply rbind_ok in E as (r & Er & E). apply Ok_inj in E. subst bs.
    destruct (IH t r) as [Hb Hd]; auto; [simpl in Hn; lia|].
    set (a := c / 64) in *. set (d := c mod 64) in *.
    assert (F : c = a * 64 + d /\ d < 64 /\ 2 <= a < 32) by (subst a d; lia).
    clearbody a d. destruct F as (-> & Fd & Fa).
    split; [repeat (apply Forall_cons; [lia|]); exact Hb|].
    cbn [Utf8.decode]. settle.
    rewrite is_cont_intro by lia. cbn [andb]. rewrite Hd. cbn [rbind].
    f_equal. f_equal. lia. }
  destruct (Utf8.is_high c) eqn:Hh.
  { apply high_range in Hh.
    destruct t as [|d t']; [discriminate|].
    destruct (Utf8.is_low d) eqn:Hl; [|discriminate].
    apply low_range in Hl.
    inversion Ht as [|? ? Hd' Ht']; subst.
    apply rbind_ok in E as (r & Er & E). apply Ok_inj in E. subst bs.
    destruct (IH t' r) as [Hb Hd]; auto; [simpl in Hn; lia|].
    set (x := c - 55296) in *. set (y := d - 56320) in *.
    assert (Fx : c = 55296 + x /\ d = 56320 + y /\ x < 1024 /\ y < 1024)
      by (subst x y; lia).
    clearbody x y. destruct Fx as (-> & -> & Fx & Fy).
    set (cp := 65536 + x * 1024 + y) in *.
    rewrite div262144, div4096.
    destruct (split64 cp) as [S0 M0]. destruct (split64 (cp / 64)) as [S1 M1].
    destruct (split64 (cp / 64 / 64)) as [S2 M2].
    set (b3 := cp mod 64) in *. set (q1 := cp / 64) in *.
    set (b2 := q1 mod 64) in *. set (q2 := q1 / 64) in *.
    set (b1 := q2 mod 64) in *. set (b0 := q2 / 64) in *.
    clearbody b3 b2 b1 b0 q1 q2.
    assert (Fcp : 65536 <= cp < 1114112) by (subst cp; lia).
    assert (F : cp = b0 * 262144 + b1 * 4096 + b2 * 64 + b3 /\ b0 < 5) by lia.
    destruct F as (F & F0).
    assert (Fc : 55296 + x = 55296 + (cp - 65536) / 1024
                 /\ 56320 + y = 56320 + (cp - 65536) mod 1024).
    { replace (cp - 65536) with (x * 1024 + y) by (subst cp; lia).
      destruct (pair_back x y Fy) as [-> ->]. split; reflexivity. }
    destruct Fc as [Fc Fd].
    split; [repeat (apply Forall_cons; [lia|]); exact Hb|].
    cbn [Utf8.decode].
    replace ((240 + b0 - 240) * 262144 + (128 + b1 - 128) * 4096
             + (128 + b2 - 128) * 64 + (128 + b3 - 128)) with cp by lia.
    clearbody cp. clear S0 S1 S2 F. settle.
    rewrite !is_cont_intro by lia. cbn [andb]. rewrite Hd. cbn [rbind].
    rewrite <- Fc, <- Fd. reflexivity. }
  destruct (Utf8.is_low c) eqn:Hl; [discriminate|].
  apply not_high in Hh. apply not_low in Hl.
  apply rbind_ok in E as (r & Er & E). apply Ok_inj in E. subst bs.
  destruct (IH t r) as [Hb Hd]; auto; [simpl in Hn; lia|].
  rewrite div4096.
  destruct (split64 c) as [S0 M0]. destruct (split64 (c / 64)) as [S1 M1].
  set (b2 := c mod 64) in *. set (q1 := c / 64) in *.
  set (b1 := q1 mod 64) in *. set (b0 := q1 / 64) in *.
  clearbody b2 b1 b0 q1.
  assert (F : c = b0 * 4096 + b1 * 64 + b2 /\ b0 < 16) by lia.
  destruct F as (F & F0). clear S0 S1.
  split; [repeat (apply Forall_cons; [lia|]); exact Hb|].
  cbn [Utf8.decode].
  replace ((224 + b0 - 224) * 4096 + (128 + b1 - 128) * 64 + (128 + b2 - 128))
    with c by lia.
  settle. rewrite !is_cont_intro by lia. cbn [andb].
  replace (Utf8.is_high c || Utf8.is_low c) with false.
  2:{ symmetry. unfold Utf8.is_high, Utf8.is_low.
      destruct Hh, Hl; try lia; settle; reflexivity. }
  cbn [negb]. rewrite Hd. reflexivity.
Qed.

Lemma utf8_decode_encode (s bs : list N) :
  wf_string s -> Utf8.encode s = Ok bs -> bytes bs /\ Utf8.decode bs = Ok s.
Proof. intros. eapply utf8_round; eauto. Qed.

(** a string whose surrogates are paired has a UTF-8 form *)
Lemma utf8_encode_paired (n : nat) : forall s,
  (length s <= n)%nat -> paired s = true -> exists bs, Utf8.encode s = Ok bs.
Proof.
  induction n as [|n IH]; intros s Hn Hp.
  { destruct s; [|simpl in Hn; lia]. exists []. reflexivity. }
  destruct s as [|c t]; [exists []; reflexivity|].
  cbn [paired] in Hp. cbn [Utf8.encode].
  destruct (Utf8.is_high c) eqn:Hh.
  - apply high_range in Hh.
    destruct t as [|d t']; [discriminate|].
    apply andb_prop in Hp as [Hl Hp]. rewrite Hl.
    destruct (IH t') as [r Er]; auto; [simpl in Hn; lia|].
    settle. rewrite Er. eexists. reflexivity.
  - apply andb_prop in Hp as [Hl Hp]. apply negb_true_iff in Hl. rewrite Hl.
    destruct (IH t) as [r Er]; auto; [simpl in Hn; lia|].
    rewrite Er. destruct (c <? 128); [eexists; reflexivity|].
    destruct (c <? 2048); eexists; reflexivity.
Qed.

End Utf8Round.

(** * JSON: what [stringify] writes, [parse] reads *)

Section Strings.

Local Open Scope N_scope.

Lemma str_eqb_eq (a b : list N) : str_eqb a b = true <-> a = b.
Proof.
  revert b. induction a as [|x a IH]; intros [|y b]; simpl; split; intros H;
    try discriminate; try reflexivity.
  - apply andb_prop in H as [H1 H2]. apply N.eqb_eq in H1. apply IH in H2. congruence.
  - inversion H; subst. rewrite N.eqb_refl. apply IH. reflexivity.
Qed.

Lemma str_eqb_refl (a : list N) : str_eqb a a = true.
Proof. apply str_eqb_eq. reflexivity. Qed.

Lemma str_eqb_neq (a b : list N) : a <> b -> str_eqb a b = false.
Proof.
  intros H. destruct (str_eqb a b) eqn:E; [|reflexivity].
  apply str_eqb_eq in E. contradiction.
Qed.

Lemma hex_val_char (x : N) : x < 16 -> JSON.hex_val (JSON.hex_char x) = Some x.
Proof.
  intros H. unfold JSON.hex_char.
  destruct (N.ltb_spec x 10); unfold JSON.hex_val; ncases; cbn [andb]; try lia; f_equal; lia.
Qed.

Lemma split16 (n : N) : n = 16 * (n / 16) + n mod 16 /\ n mod 16 < 16.
Proof. lia. Qed.

Lemma parse_esc_u (c : N) (X : list N) :
  c < 65536 ->
  JSON.parse_chars (JSON.esc_u c ++ X) = JSON.prepend c (JSON.parse_chars X).
Proof.
  intros Hc. unfold JSON.esc_u.
  replace (c / 4096) with (c / 16 / 16 / 16) by (rewrite !N.Div0.div_div; reflexivity).
  replace (c / 256) with (c / 16 / 16) by (rewrite !N.Div0.div_div; reflexivity).
  destruct (split16 c) as [S0 M0]. destruct (split16 (c / 16)) as [S1 M1].
  destruct (split16 (c / 16 / 16)) as [S2 M2].
  set (d0 := c mod 16) in *. set (q1 := c / 16) in *.
  set (d1 := q1 mod 16) in *. set (q2 := q1 / 16) in *.
  set (d2 := q2 mod 16) in *. set (d3 := q2 / 16) in *.
  clearbody d0 d1 d2 d3 q1 q2.
  assert (H3 : d3 < 16) by lia.
  cbn [app JSON.parse_chars]. cbn [N.eqb Pos.eqb].
  rewrite !hex_val_char by assumption.
  f_equal. lia.
Qed.

Lemma parse_plain (c : N) (X : list N) :
  32 <= c -> c <> 34 -> c <> 92 ->
  JSON.parse_chars (c :: X) = JSON.prepend c (JSON.parse_chars X).
Proof.
  intros H1 H2 H3. cbn [JSON.parse_chars].
  destruct (N.eqb_spec c 34); [contradiction|].
  destruct (N.eqb_spec c 92); [contradiction|].
  destruct (N.ltb_spec c 32); [lia | reflexivity].
Qed.

Lemma parse_quote_unit (c : N) (X : list N) :
  JSON.parse_chars (JSON.quote_unit c ++ X) = JSON.prepend c (JSON.parse_chars X).
Proof.
  unfold JSON.quote_unit.
  destruct (N.eqb_spec c 8) as [->|?]; [reflexivity|].
  destruct (N.eqb_spec c 9) as [->|?]; [reflexivity|].
  destruct (N.eqb_spec c 10) as [->|?]; [reflexivity|].
  destruct (N.eqb_spec c 12) as [->|?]; [reflexivity|].
  destruct (N.eqb_spec c 13) as [->|?]; [reflexivity|].
  destruct (N.eqb_spec c 34) as [->|?]; [reflexivity|].
  destruct (N.eqb_spec c 92) as [->|?]; [reflexivity|].
  destruct (N.ltb_spec c 32); [apply parse_esc_u; lia|].
  apply parse_plain; assumption.
Qed.

(** a quoted string reads back, whatever follows the closing quote *)
Lemma parse_quoted (n : nat) : forall s rest,
  (length s <= n)%nat ->
  JSON.parse_chars (JSON.quote_body s ++ 34 :: rest) = Some (s, rest).
Proof.
  induction n as [|n IH]; intros s rest Hn.
  { destruct s; [reflexivity | simpl in Hn; lia]. }
  destruct s as [|c t]; [reflexivity|].
  cbn [JSON.quote_body].
  destruct (Utf8.is_high c) eqn:Hh.
  - pose proof (high_range c Hh) as Rc.
    destruct t as [|d t'].
    + rewrite parse_esc_u by lia. reflexivity.
    + destruct (Utf8.is_low d) eqn:Hl.
      * pose proof (low_range d Hl) as Rd.
        cbn [app]. rewrite parse_plain by lia. rewrite parse_plain by lia.
        rewrite IH by (simpl in *; lia). reflexivity.
      * rewrite <- app_assoc, parse_esc_u by lia.
        rewrite IH by (simpl in *; lia). reflexivity.
  - destruct (Utf8.is_low c) eqn:Hl.
    + pose proof (low_range c Hl) as Rc.
      rewrite <- app_assoc, parse_esc_u by lia.
      rewrite IH by (simpl in *; lia). reflexivity.
    + rewrite <- app_assoc, parse_quote_unit.
      rewrite IH by (simpl in *; lia). reflexivity.
Qed.

Lemma parse_quote (s rest : list N) :
  JSON.parse_chars (JSON.quote_body s ++ 34 :: rest) = Some (s, rest).
Proof. eapply parse_quoted; eauto. Qed.

End Strings.

Section Values.

Local Open Scope N_scope.

Lemma value_ind' (P : value -> Prop) :
  P VUndefined -> P VNull -> (forall b, P (VBool b)) -> (forall n, P (VNum n)) ->
  (forall s, P (VStr s)) ->
  (forall xs, Forall P xs -> P (VArr xs)) ->
  (forall fs, Forall (fun kv => P (snd kv)) fs -> P (VObj fs)) ->
  forall v, P v.
Proof.
  intros Hu Hn Hb Hnum Hs Harr Hobj. fix IH 1.
  intros [| | b | n | s | xs | fs].
  - exact Hu.
  - exact Hn.
  - apply Hb.
  - apply Hnum.
  - apply Hs.
  - apply Harr. induction xs as [|x xs IHxs]; constructor; [apply IH | exact IHxs].
  - apply Hobj. induction fs as [|kv fs IHfs]; constructor; [apply IH | exact IHfs].
Qed.

Lemma delim_stops rest : delim rest -> stops rest.
Proof.
  destruct rest as [|c r]; [trivial|]. simpl.
  intros [ -> | [ -> | -> ] ]; repeat split; discriminate.
Qed.

Lemma skip_ws_head (c : N) (r : list N) :
  JSON.is_ws c = false -> JSON.skip_ws (c :: r) = c :: r.
Proof. intros H. cbn [JSON.skip_ws]. rewrite H. reflexivity. Qed.

Lemma num_wfb_wf (n : number) : num_wfb n = true -> exists m e, n = Fin m e /\ num_wf n.
Proof.
  destruct n as [| s | m e]; simpl; try discriminate.
  intros H. exists m, e. split; [reflexivity|].
  destruct (Z.eqb_spec m 0).
  - apply Z.eqb_eq in H. split; intros; [assumption | contradiction].
  - apply negb_true_iff, Z.eqb_neq in H. split; intros; [contradiction | assumption].
Qed.

(** the first character of the text of a value *)
Lemma text_head (v : value) :
  clean v = true ->
  exists c r, text_of v = c :: r /\ JSON.is_ws c = false /\ c <> 93 /\ c <> 125.
Proof.
  destruct v as [| | b | n | s | xs | fs]; intros H; try discriminate.
  - eexists _, _. split; [reflexivity|]. repeat split; discriminate.
  - destruct b; eexists _, _; (split; [reflexivity|]); repeat split; discriminate.
  - apply num_wfb_wf in H as (m & e & -> & Hwf).
    destruct (num_text_head m e Hwf) as (c & r & E & Hc).
    exists c, r. split; [exact E|].
    destruct Hc as [->|Hd]; [repeat split; discriminate|].
    apply is_digit_range in Hd. unfold JSON.is_ws.
    repeat split; try lia. ncases; first [lia | reflexivity].
  - eexists _, _. split; [reflexivity|]. repeat split; discriminate.
  - eexists _, _. split; [reflexivity|]. repeat split; discriminate.
  - eexists _, _. split; [reflexivity|]. repeat split; discriminate.
Qed.

Lemma parse_value_number (f : nat) (c : N) (r : list N) :
  c = 45 \/ is_digit c = true ->
  JSON.parse_value (S f) (c :: r)
  = match JSON.parse_number (c :: r) with
    | Some (n, r') => Some (VNum n, r')
    | None => None
    end.
Proof.
  intros [->|Hd]; [reflexivity|].
  apply is_digit_range in Hd.
  cbn [JSON.parse_value].
  rewrite skip_ws_head by (unfold JSON.is_ws; ncases; first [lia | reflexivity]).
  destruct (N.eqb_spec c 34); [lia|]. destruct (N.eqb_spec c 91); [lia|].
  destruct (N.eqb_spec c 123); [lia|].
  change (lit "true") with (116 :: lit "rue").
  change (lit "false") with (102 :: lit "alse").
  change (lit "null") with (110 :: lit "ull").
  cbn [starts_with].
  destruct (N.eqb_spec 116 c); [lia|]. destruct (N.eqb_spec 102 c); [lia|].
  destruct (N.eqb_spec 110 c); [lia|]. reflexivity.
Qed.

Lemma text_clean (v : value) : clean v = true -> JSON.text v = Some (text_of v).
Proof. destruct v; intros H; try discriminate; reflexivity. Qed.

Lemma text_of_arr (xs : list value) :
  text_of (VArr xs) = 91 :: JSON.join (map text_of xs) ++ [93].
Proof. reflexivity. Qed.

Lemma text_of_obj (fs : list (list N * value)) :
  forallb (fun kv => wf_stringb (fst kv) && clean (snd kv)) fs = true ->
  text_of (VObj fs) = 123 :: JSON.join (map member_text fs) ++ [125].
Proof.
  intros H. unfold text_of. cbn [JSON.text]. f_equal. f_equal. f_equal.
  induction fs as [|kv fs IH]; [reflexivity|].
  cbn [forallb] in H. apply andb_prop in H as [H1 H2]. apply andb_prop in H1 as [_ H1].
  cbn [flat_map map]. rewrite (text_clean _ H1), IH by assumption. reflexivity.
Qed.

Lemma join_cons2 (a b : list N) (l : list (list N)) :
  JSON.join (a :: b :: l) = a ++ 44 :: JSON.join (b :: l).
Proof. reflexivity. Qed.

Lemma elems_read (xs : list value) :
  xs <> [] -> Forall (fun x => clean x = true /\ reads x) xs ->
  forall fuel rest, (lsize xs <= fuel)%nat ->
    JSON.parse_elems fuel (JSON.join (map text_of xs) ++ 93 :: rest) = Some (xs, rest).
Proof.
  intros Hne H. induction H as [|x xs [Hc Hx] Hxs IH]; [congruence|].
  intros fuel rest Hf. destruct fuel as [|f]; [simpl in Hf; lia|].
  cbn [lsize fold_right] in Hf. fold (lsize xs) in Hf.
  destruct xs as [|y l].
  - cbn [map JSON.join JSON.parse_elems].
    rewrite Hx by (first [lia | simpl; auto]).
    reflexivity.
  - cbn [map]. rewrite join_cons2, <- app_assoc. cbn [app JSON.parse_elems].
    rewrite Hx by (first [lia | simpl; auto]).
    cbn [JSON.skip_ws JSON.is_ws N.eqb Pos.eqb orb].
    change (map text_of (y :: l)) with (text_of y :: map text_of l) in IH.
    rewrite IH by (first [discriminate | lia]). reflexivity.
Qed.

Lemma members_read (fs : list (list N * value)) :
  fs <> [] -> Forall (fun kv => clean (snd kv) = true /\ reads (snd kv)) fs ->
  forall fuel rest, (fsize fs <= fuel)%nat ->
    JSON.parse_members fuel (JSON.join (map member_text fs) ++ 125 :: rest)
    = Some (fs, rest).
Proof.
  intros Hne H. induction H as [|[k x] fs [Hc Hx] Hfs IH]; [congruence|].
  intros fuel rest Hf. destruct fuel as [|f]; [simpl in Hf; lia|].
  cbn [fsize fold_right snd] in Hf. fold (fsize fs) in Hf. cbn [snd] in Hc, Hx.
  destruct fs as [|kv' l].
  - cbn [map JSON.join]. unfold member_text, JSON.quote. cbn [fst snd].
    cbn [app JSON.parse_members JSON.skip_ws JSON.is_ws N.eqb Pos.eqb orb].
    rewrite <- !app_assoc. cbn [app]. rewrite parse_quote.
    cbn [JSON.skip_ws JSON.is_ws N.eqb Pos.eqb orb].
    rewrite Hx by (first [lia | simpl; auto]). reflexivity.
  - cbn [map]. rewrite join_cons2, <- app_assoc.
    unfold member_text at 1, JSON.quote. cbn [fst snd].
    cbn [app JSON.parse_members JSON.skip_ws JSON.is_ws N.eqb Pos.eqb orb].
    rewrite <- !app_assoc. cbn [app]. rewrite parse_quote.
    cbn [JSON.skip_ws JSON.is_ws N.eqb Pos.eqb orb].
    rewrite Hx by (first [lia | simpl; auto]).
    cbn [JSON.skip_ws JSON.is_ws N.eqb Pos.eqb orb].
    change (map member_text (kv' :: l)) with (member_text kv' :: map member_text l) in IH.
    rewrite IH by (first [discriminate | lia]). reflexivity.
Qed.

End Values.

Section Parse.

Local Open Scope N_scope.

Lemma obj_set_fresh (k : list N) (v : value) (acc : list (list N * value)) :
  existsb (str_eqb k) (map fst acc) = false -> JSON.obj_set k v acc = acc ++ [(k, v)].
Proof.
  induction acc as [|[k' v'] acc IH]; intros H; [reflexivity|].
  cbn [map fst existsb] in H. apply orb_false_elim in H as [H1 H2].
  cbn [JSON.obj_set app]. rewrite H1, IH by assumption. reflexivity.
Qed.

Lemma existsb_app_false {A} (f : A -> bool) (a b : list A) :
  existsb f (a ++ b) = false <-> existsb f a = false /\ existsb f b = false.
Proof. rewrite existsb_app. apply orb_false_iff. Qed.

Lemma str_eqb_sym (a b : list N) : str_eqb a b = str_eqb b a.
Proof.
  destruct (str_eqb a b) eqn:E.
  - apply str_eqb_eq in E. subst. symmetry. apply str_eqb_refl.
  - symmetry. apply str_eqb_neq. intros ->. rewrite str_eqb_refl in E. discriminate.
Qed.

Lemma nodupb_app_cons (acc : list (list N)) (k : list N) (r : list (list N)) :
  nodupb (acc ++ k :: r) = true ->
  existsb (str_eqb k) acc = false /\ nodupb ((acc ++ [k]) ++ r) = true.
Proof.
  intros H. rewrite <- app_assoc. cbn [app]. split; [|exact H].
  induction acc as [|a acc IH]; [reflexivity|].
  cbn [app nodupb] in H. apply andb_prop in H as [H1 H2].
  apply negb_true_iff in H1. apply existsb_app_false in H1 as [_ H1].
  cbn [existsb] in H1. apply orb_false_elim in H1 as [H1 _].
  cbn [existsb]. rewrite str_eqb_sym, H1. cbn [orb]. apply IH. exact H2.
Qed.

Lemma obj_of_acc (ps acc : list (list N * value)) :
  nodupb (map fst (acc ++ ps)) = true ->
  fold_left (fun o kv => JSON.obj_set (fst kv) (snd kv) o) ps acc = acc ++ ps.
Proof.
  revert acc. induction ps as [|[k v] ps IH]; intros acc H.
  - symmetry. apply app_nil_r.
  - cbn [fold_left fst snd].
    rewrite map_app in H. cbn [map fst] in H.
    apply nodupb_app_cons in H as [H1 H2].
    rewrite obj_set_fresh by assumption.
    rewrite IH.
    + rewrite <- app_assoc. reflexivity.
    + rewrite map_app, map_app. exact H2.
Qed.

Lemma obj_of_nodup (ps : list (list N * value)) :
  nodupb (map fst ps) = true -> JSON.obj_of ps = ps.
Proof. intros H. unfold JSON.obj_of. apply (obj_of_acc ps []). exact H. Qed.

Lemma forallb_Forall {A} (f : A -> bool) (l : list A) :
  forallb f l = true -> Forall (fun x => f x = true) l.
Proof. intros H. apply Forall_forall. apply forallb_forall. exact H. Qed.

(** every clean value is read back from its text *)
Lemma text_reads (v : value) : clean v = true -> reads v.
Proof.
  induction v as [| | b | n | s | xs IH | fs IH] using value_ind'; intros Hc;
    try discriminate; intros fuel rest Hf Hd;
    (destruct fuel as [|f]; [simpl in Hf; lia|]).
  - reflexivity.
  - destruct b; reflexivity.
  - cbn [clean] in Hc. apply num_wfb_wf in Hc as (m & e & -> & Hwf).
    destruct (num_text_head m e Hwf) as (c & r & E & Hh).
    change (text_of (VNum (Fin m e))) with (num_to_string (Fin m e)).
    pose proof (parse_number_num m e rest Hwf (delim_stops rest Hd)) as P.
    rewrite E in *. cbn [app] in *.
    rewrite parse_value_number by assumption. rewrite P. reflexivity.
  - change (text_of (VStr s)) with (JSON.quote s). unfold JSON.quote.
    cbn [app JSON.parse_value JSON.skip_ws JSON.is_ws N.eqb Pos.eqb orb].
    rewrite <- app_assoc. cbn [app]. rewrite parse_quote. reflexivity.
  - cbn [clean] in Hc. rewrite text_of_arr.
    cbn [app JSON.parse_value JSON.skip_ws JSON.is_ws N.eqb Pos.eqb orb].
    destruct xs as [|x l]; [reflexivity|].
    rewrite <- app_assoc. cbn [app].
    assert (Hall : Forall (fun x => clean x = true /\ reads x) (x :: l)).
    { apply forallb_Forall in Hc. rewrite Forall_forall in *.
      intros y Hy. split; [apply Hc | apply IH]; auto. }
    pose proof (elems_read (x :: l) ltac:(discriminate) Hall f rest) as P.
    cbn [vsize] in Hf. fold (lsize (x :: l)) in Hf. specialize (P ltac:(lia)).
    inversion Hall as [|? ? [Hcx _] _]; subst.
    destruct (text_head x Hcx) as (c & r & E & Hws & H93 & _).
    destruct l as [|y l'].
    + cbn [map JSON.join] in *.
      rewrite E in *. cbn [app] in *. rewrite skip_ws_head by assumption.
      destruct (N.eqb_spec c 93); [contradiction|]. rewrite P. reflexivity.
    + change (map text_of (x :: y :: l')) with (text_of x :: text_of y :: map text_of l') in *.
      rewrite join_cons2 in *.
      rewrite <- app_assoc in *. rewrite E in *. cbn [app] in *.
      rewrite skip_ws_head by assumption.
      destruct (N.eqb_spec c 93); [contradiction|]. rewrite P. reflexivity.
  - cbn [clean] in Hc. apply andb_prop in Hc as [Hc Hnd].
    rewrite text_of_obj by assumption.
    cbn [app JSON.parse_value JSON.skip_ws JSON.is_ws N.eqb Pos.eqb orb].
    destruct fs as [|kv l]; [reflexivity|].
    rewrite <- app_assoc. cbn [app].
    assert (Hall : Forall (fun kv => clean (snd kv) = true /\ reads (snd kv)) (kv :: l)).
    { apply forallb_Forall in Hc. rewrite Forall_forall in *.
      intros y Hy. specialize (Hc y Hy). apply andb_prop in Hc as [_ Hc].
      split; [exact Hc | apply IH; auto]. }
    pose proof (members_read (kv :: l) ltac:(discriminate) Hall f rest) as P.
    cbn [vsize] in Hf. fold (fsize (kv :: l)) in Hf. specialize (P ltac:(lia)).
    assert (E : exists r, JSON.join (map member_text (kv :: l)) ++ 125 :: rest = 34 :: r).
    { cbn [map JSON.join]. destruct l; unfold member_text, JSON.quote;
        cbn [app]; eexists; reflexivity. }
    destruct E as [r E]. rewrite E in *.
    cbn [JSON.skip_ws JSON.is_ws N.eqb Pos.eqb orb]. rewrite P.
    rewrite (obj_of_nodup _ Hnd). reflexivity.
Qed.

End Parse.

Section Size.

Lemma join_length_bound (ts : list (list N)) (sizes : list nat) :
  Forall2 (fun t n => (n <= length t)%nat) ts sizes ->
  (fold_right (fun n a => S (n + a)) 0 sizes <= length (JSON.join ts) + 1)%nat.
Proof.
  induction 1 as [|t n ts sizes Ht Hts IH]; [simpl; lia|].
  destruct ts as [|t' ts'].
  - inversion Hts; subst. simpl. lia.
  - rewrite join_cons2, length_app. cbn [fold_right length]. cbn [fold_right] in IH. lia.
Qed.

Lemma fold_right_map {A} (f : A -> nat) (l : list A) :
  fold_right (fun x a => S (f x + a)) 0 l = fold_right (fun n a => S (n + a)) 0 (map f l).
Proof. induction l as [|x l IH]; simpl; [|rewrite IH]; reflexivity. Qed.

Lemma vsize_le (v : value) : clean v = true -> (vsize v <= length (text_of v))%nat.
Proof.
  induction v as [| | b | n | s | xs IH | fs IH] using value_ind'; intros Hc;
    try discriminate.
  - simpl. lia.
  - destruct b; simpl; lia.
  - cbn [clean] in Hc. apply num_wfb_wf in Hc as (m & e & -> & Hwf).
    destruct (num_text_head m e Hwf) as (c & r & E & _).
    change (text_of (VNum (Fin m e))) with (num_to_string (Fin m e)).
    rewrite E. simpl. lia.
  - change (text_of (VStr s)) with (JSON.quote s). unfold JSON.quote. simpl. lia.
  - cbn [clean] in Hc. rewrite text_of_arr. cbn [vsize length]. rewrite length_app.
    cbn [length]. rewrite fold_right_map.
    assert (H : Forall2 (fun t n => (n <= length t)%nat) (map text_of xs) (map vsize xs)).
    { apply forallb_Forall in Hc. clear - Hc IH.
      induction xs as [|x xs IHxs]; [constructor|].
      inversion Hc; subst. inversion IH; subst. constructor; auto. }
    apply join_length_bound in H. lia.
  - cbn [clean] in Hc. apply andb_prop in Hc as [Hc _].
    rewrite text_of_obj by assumption. cbn [vsize length]. rewrite length_app.
    cbn [length]. rewrite (fold_right_map (fun kv => vsize (snd kv))).
    assert (H : Forall2 (fun t n => (n <= length t)%nat)
                  (map member_text fs) (map (fun kv => vsize (snd kv)) fs)).
    { apply forallb_Forall in Hc. clear - Hc IH.
      induction fs as [|kv fs IHfs]; [constructor|].
      inversion Hc as [|? ? Hkv Hr]; subst. inversion IH; subst.
      apply andb_prop in Hkv as [_ Hkv].
      constructor; auto. unfold member_text. rewrite length_app. cbn [length].
      specialize (H1 Hkv). lia. }
    apply join_length_bound in H. lia.
Qed.

(** [JSON.parse] undoes [JSON.stringify] on clean values *)
Lemma parse_text (v : value) : clean v = true -> JSON.parse (text_of v) = Ok v.
Proof.
  intros Hc. unfold JSON.parse.
  pose proof (text_reads v Hc (S (length (text_of v))) []) as H.
  rewrite app_nil_r in H. rewrite H; [reflexivity | | exact I].
  pose proof (vsize_le v Hc). lia.
Qed.

End Size.

Section Good.

Local Open Scope N_scope.

Lemma paired_app_n (n : nat) : forall a b,
  (length a <= n)%nat -> paired a = true -> paired (a ++ b) = paired b.
Proof.
  induction n as [|n IH]; intros a b Hn Hp.
  { destruct a; [reflexivity | simpl in Hn; lia]. }
  destruct a as [|c t]; [reflexivity|].
  cbn [paired app] in *.
  destruct (Utf8.is_high c).
  - destruct t as [|d t']; [discriminate|].
    apply andb_prop in Hp as [Hl Hp]. cbn [app]. rewrite Hl. cbn [andb].
    apply IH; [simpl in *; lia | assumption].
  - apply andb_prop in Hp as [Hl Hp]. rewrite Hl. cbn [andb].
    apply IH; [simpl in *; lia | assumption].
Qed.

Lemma good_app (a b : list N) : good a -> good b -> good (a ++ b).
Proof.
  intros [Wa Pa] [Wb Pb]. split.
  - apply Forall_app. split; assumption.
  - rewrite (paired_app_n (length a)); auto.
Qed.

Lemma good_nil : good [].
Proof. split; [constructor | reflexivity]. Qed.

Lemma good_ascii (s : list N) : Forall (fun c => c < 128) s -> good s.
Proof.
  induction 1 as [|c s Hc Hs [W P]]; [apply good_nil|].
  split; [constructor; [lia | exact W]|].
  cbn [paired]. unfold Utf8.is_high, Utf8.is_low. settle. cbn [andb negb]. exact P.
Qed.

Lemma good_cons_ascii (c : N) (s : list N) : c < 128 -> good s -> good (c :: s).
Proof.
  intros Hc Hs. change (c :: s) with ([c] ++ s).
  apply good_app; [apply good_ascii; constructor; [exact Hc | constructor] | exact Hs].
Qed.

Lemma hex_char_ascii (x : N) : x < 16 -> JSON.hex_char x < 128.
Proof. intros H. unfold JSON.hex_char. destruct (x <? 10); lia. Qed.

Lemma esc_u_good (c : N) : c < 65536 -> good (JSON.esc_u c).
Proof.
  intros Hc. apply good_ascii. unfold JSON.esc_u.
  repeat (constructor; [first [lia | apply hex_char_ascii; lia]|]). constructor.
Qed.

Lemma quote_unit_good (c : N) :
  c < 65536 -> Utf8.is_high c = false -> Utf8.is_low c = false -> good (JSON.quote_unit c).
Proof.
  intros Hc Hh Hl. unfold JSON.quote_unit.
  repeat match goal with
         | |- context [N.eqb c ?k] => destruct (N.eqb_spec c k);
                                      [apply good_ascii; repeat constructor|]
         end.
  destruct (N.ltb_spec c 32); [apply esc_u_good; assumption|].
  split; [constructor; [assumption | constructor]|].
  cbn [paired]. rewrite Hh, Hl. reflexivity.
Qed.

Lemma quote_body_good (n : nat) : forall s,
  (length s <= n)%nat -> wf_string s -> good (JSON.quote_body s).
Proof.
  induction n as [|n IH]; intros s Hn Hwf.
  { destruct s; [apply good_nil | simpl in Hn; lia]. }
  destruct s as [|c t]; [apply good_nil|].
  inversion Hwf as [|? ? Hc Ht]; subst.
  cbn [JSON.quote_body].
  destruct (Utf8.is_high c) eqn:Hh.
  - destruct t as [|d t']; [apply esc_u_good; assumption|].
    destruct (Utf8.is_low d) eqn:Hl.
    + inversion Ht as [|? ? Hd Ht']; subst.
      destruct (IH t') as [W P]; [simpl in *; lia | assumption|].
      split; [repeat (constructor; [assumption|]); exact W|].
      cbn [paired]. rewrite Hh, Hl. exact P.
    + apply good_app; [apply esc_u_good; assumption|].
      apply IH; [simpl in *; lia | assumption].
  - destruct (Utf8.is_low c) eqn:Hl.
    + apply good_app; [apply esc_u_good; assumption|].
      apply IH; [simpl in *; lia | assumption].
    + apply good_app; [apply quote_unit_good; assumption|].
      apply IH; [simpl in *; lia | assumption].
Qed.

Lemma wf_stringb_wf (s : list N) : wf_stringb s = true -> wf_string s.
Proof.
  intros H. apply forallb_Forall in H.
  eapply Forall_impl; [|exact H]. intros c Hc. apply N.ltb_lt. exact Hc.
Qed.

Lemma quote_good (s : list N) : wf_string s -> good (JSON.quote s).
Proof.
  intros H. unfold JSON.quote. apply good_cons_ascii; [lia|].
  apply good_app; [eapply quote_body_good; eauto|].
  apply good_ascii. repeat constructor.
Qed.

Lemma render_digits_ascii (ds : list N) :
  digits_ok ds -> Forall (fun c => c < 128) (render_digits ds).
Proof.
  induction 1 as [|d ds Hd Hds IH]; [constructor|].
  cbn [render_digits map]. constructor; [unfold digit_char; lia | exact IH].
Qed.

Lemma num_text_good (m e : Z) : num_wf (Fin m e) -> good (num_to_string (Fin m e)).
Proof.
  intros Hwf. destruct (shape_ok m e Hwf) as (Hi & _ & _ & Hf & He).
  unfold num_to_string, render_ntext.
  apply good_app; [destruct (nt_neg _); apply good_ascii; repeat constructor|].
  apply good_app; [apply good_ascii, render_digits_ascii; assumption|].
  apply good_app.
  - destruct (nt_frac _) as [f|]; [|apply good_nil].
    apply good_app; [apply good_ascii; repeat constructor|].
    apply good_ascii, render_digits_ascii. tauto.
  - destruct (nt_exp _) as [[s x]|]; [|apply good_nil].
    apply good_app; [apply good_ascii; repeat constructor|].
    apply good_app; [destruct s; apply good_ascii; repeat constructor|].
    apply good_ascii, render_digits_ascii. tauto.
Qed.

Lemma join_good (ts : list (list N)) : Forall good ts -> good (JSON.join ts).
Proof.
  induction 1 as [|t ts Ht Hts IH]; [apply good_nil|].
  destruct ts as [|t' ts']; [exact Ht|].
  rewrite join_cons2. apply good_app; [exact Ht|].
  apply good_cons_ascii; [lia | exact IH].
Qed.

(** the text of a clean value is well-formed UTF-16 *)
Lemma text_good (v : value) : clean v = true -> good (text_of v).
Proof.
  induction v as [| | b | n | s | xs IH | fs IH] using value_ind'; intros Hc;
    try discriminate.
  - apply good_ascii. repeat constructor.
  - destruct b; apply good_ascii; repeat constructor.
  - cbn [clean] in Hc. apply num_wfb_wf in Hc as (m & e & -> & Hwf).
    apply num_text_good; assumption.
  - apply quote_good, wf_stringb_wf. exact Hc.
  - cbn [clean] in Hc. rewrite text_of_arr.
    apply good_cons_ascii; [lia|]. apply good_app; [|apply good_ascii; repeat constructor].
    apply join_good. apply forallb_Forall in Hc. clear - Hc IH.
    induction xs as [|x xs IHxs]; [constructor|].
    inversion Hc; subst. inversion IH; subst. constructor; auto.
  - cbn [clean] in Hc. apply andb_prop in Hc as [Hc _].
    rewrite text_of_obj by assumption.
    apply good_cons_ascii; [lia|]. apply good_app; [|apply good_ascii; repeat constructor].
    apply join_good. apply forallb_Forall in Hc. clear - Hc IH.
    induction fs as [|kv fs IHfs]; [constructor|].
    inversion Hc as [|? ? Hkv Hr]; subst. inversion IH; subst.
    apply andb_prop in Hkv as [Hk Hkv].
    constructor; auto. unfold member_text.
    apply good_app; [apply quote_good, wf_stringb_wf; exact Hk|].
    apply good_cons_ascii; [lia | auto].
Qed.

End Good.

(** * encodeState and decodeState *)

Section Range.

Local Open Scope Z_scope.

Lemma pow10_pos (k : Z) : 0 <= k -> 0 < 10 ^ k.
Proof. intros. apply Z.pow_pos_nonneg; lia. Qed.

Lemma pow10_step (k : Z) : 1 <= k -> 10 ^ k = 10 * 10 ^ (k - 1).
Proof.
  intros H. replace k with (Z.succ (k - 1)) at 1 by lia.
  apply Z.pow_succ_r. lia.
Qed.

Lemma num_compare_fin (m1 e1 m2 e2 : Z) :
  num_compare (Fin m1 e1) (Fin m2 e2)
  = Some (m1 * 10 ^ (e1 - Z.min e1 e2) ?= m2 * 10 ^ (e2 - Z.min e1 e2)).
Proof. reflexivity. Qed.

Lemma Some_inj {A} (a b : A) : Some a = Some b -> a = b.
Proof. congruence. Qed.

(** a canonical number in [0, 100] is what the clamp leaves alone *)
Lemma in_range_clamped (n : number) : num_wf n -> in_range n = true -> clamped n.
Proof.
  intros Hwf H. unfold in_range in H. apply andb_prop in H as [L0 L1].
  destruct n as [| s | m e].
  - discriminate.
  - destruct s; discriminate.
  - destruct Hwf as [W0 W1].
    unfold num_leb in L0, L1.
    destruct (num_compare (Fin 0 0) (Fin m e)) as [[]|] eqn:C0; try discriminate.
    + left. rewrite num_compare_fin in C0. apply Some_inj in C0.
      apply Z.compare_eq in C0.
      assert (0 < 10 ^ (e - Z.min 0 e)) by (apply pow10_pos; lia).
      assert (m = 0) by nia. subst m. rewrite W0 by reflexivity. reflexivity.
    + destruct (num_compare (Fin m e) (Fin 1 2)) as [[]|] eqn:C1; try discriminate.
      * right; left. rewrite num_compare_fin in C1. apply Some_inj in C1.
        apply Z.compare_eq in C1.
        destruct (Z.le_gt_cases e 2) as [Le|Gt].
        -- rewrite Z.min_l in C1 by assumption.
           replace (e - e) with 0 in C1 by lia. rewrite Z.pow_0_r in C1.
           destruct (Z.eq_dec e 2) as [->|Ne].
           ++ replace (2 - 2) with 0 in C1 by lia. rewrite Z.pow_0_r in C1.
              f_equal. lia.
           ++ exfalso. rewrite pow10_step in C1 by lia.
              assert (m <> 0).
              { assert (0 < 10 ^ (2 - e - 1)) by (apply pow10_pos; lia). lia. }
              specialize (W1 H). apply W1.
              replace m with ((10 ^ (2 - e - 1)) * 10) by lia.
              apply Z.mod_mul. lia.
        -- exfalso. rewrite Z.min_r in C1 by lia.
           replace (2 - 2) with 0 in C1 by lia. rewrite Z.pow_0_r in C1.
           rewrite pow10_step in C1 by lia.
           assert (0 < 10 ^ (e - 2 - 1)) by (apply pow10_pos; lia). nia.
      * right; right. unfold num_ltb. rewrite C0, C1. repeat split; assumption.
Qed.

End Range.

Section Pipeline.

(** the token of a well-formed text reads back as the text *)
Lemma token_round (t : list N) :
  good t -> exists tok, token_of t = Ok tok /\ Share.decodeJSON tok = JSON.parse t.
Proof.
  intros [W P].
  destruct (utf8_encode_paired (length t) t (le_n _) P) as [bs E].
  destruct (utf8_decode_encode t bs W E) as [Hb Hd].
  exists (Share.urlSafe (Base64.encode bs)). split.
  - unfold token_of. rewrite E. cbn [rbind]. rewrite btoa_bytes by assumption. reflexivity.
  - unfold Share.decodeJSON. rewrite token_bytes by assumption. cbn [rbind].
    rewrite Hd. reflexivity.
Qed.

Lemma decodeJSON_nil : Share.decodeJSON [] = Throw SyntaxError.
Proof. reflexivity. Qed.

Lemma get_ok (o : value) (k : string) : nullish o = false -> get o k = Ok (field o k).
Proof. destruct o; simpl; intros H; try discriminate; reflexivity. Qed.

Lemma get_nullish (o : value) (k : string) : nullish o = true -> get o k = Throw TypeError.
Proof. destruct o; simpl; intros H; try discriminate; reflexivity. Qed.

Lemma truthy_not_nullish (v : value) : truthy v = true -> nullish v = false.
Proof. destruct v; simpl; intros H; try discriminate; reflexivity. Qed.

(** [arr.map(f)] for a callback that returns [g x] and leaves the world alone *)
Lemma mapM_pure {A B} (f : A -> M B) (g : A -> B) (l : list A) (w : world) :
  Forall (fun x => forall w, f x w = (Ok (g x), w)) l -> mapM f l w = (Ok (map g l), w).
Proof.
  induction 1 as [|x l Hx Hl IH]; [reflexivity|].
  cbn [mapM map]. unfold bind at 1. rewrite Hx. unfold bind at 1. rewrite IH. reflexivity.
Qed.

Lemma encodePoint_eq (p : value) (w : world) :
  nullish p = false -> Share.encodePoint p w = (Ok (strip_point p), w).
Proof.
  intros H. unfold Share.encodePoint.
  rewrite bind_lift, (get_ok p "label" H), bind_lift, (get_ok p "x" H).
  rewrite bind_lift, (get_ok p "y" H). reflexivity.
Qed.

Lemma map_array_eq {A} (v : value) (f : value -> M A) (w : world) :
  Share.map_array v f w
  = match array_of v with
    | Some xs => mapM f xs w
    | None => (Throw TypeError, w)
    end.
Proof. unfold Share.map_array, array_of. destruct (or_else v (VArr [])); reflexivity. Qed.

Lemma encodeBody_eq (D : value) (pts : list value) (w : world) :
  nullish D = false -> array_of (field D "dataPoints") = Some pts ->
  Forall (fun p => nullish p = false) pts ->
  Share.encodeBody D w
  = (match token_of (text_of (state_of D pts)) with
     | Ok tok => Ok (VStr tok)
     | Throw e => Throw e
     end, w).
Proof.
  intros HD Hp Hpts. unfold Share.encodeBody.
  rewrite bind_lift, (get_ok D "title" HD).
  rewrite bind_lift, (get_ok D "subtitle" HD).
  rewrite bind_lift, (get_ok D "xAxisName" HD).
  rewrite bind_lift, (get_ok D "yAxisName" HD).
  rewrite bind_lift, (get_ok D "template" HD).
  rewrite bind_lift, (get_ok D "dataPoints" HD).
  unfold bind at 1. rewrite map_array_eq, Hp.
  rewrite (mapM_pure Share.encodePoint strip_point).
  2:{ eapply Forall_impl; [|exact Hpts]. intros p Hn w0. apply encodePoint_eq. exact Hn. }
  fold (state_of D pts).
  rewrite bind_lift.
  replace (toStr (JSON.stringify (state_of D pts))) with (Ok (text_of (state_of D pts)))
    by reflexivity.
  cbv iota. unfold token_of.
  rewrite bind_lift. destruct (Utf8.encode _) as [bs|e]; [|reflexivity].
  rewrite bind_lift. cbn [rbind]. destruct (Base64.btoa bs) as [b64|e]; reflexivity.
Qed.

End Pipeline.

Section Decode.

Lemma decodePoint_eq (p : value) (w : world) :
  nullish p = false ->
  Share.decodePoint p w
  = (Ok (mk_point (field p "l") (field p "x") (field p "y")
           (VStr (point_id w (tick w)))), tick_up w).
Proof.
  intros H. unfold Share.decodePoint.
  rewrite bind_lift, (get_ok p "l" H), bind_lift, (get_ok p "x" H).
  rewrite bind_lift, (get_ok p "y" H). reflexivity.
Qed.

Lemma decodePoint_nullish (p : value) (w : world) :
  nullish p = true -> Share.decodePoint p w = (Throw TypeError, w).
Proof.
  intros H. unfold Share.decodePoint. rewrite bind_lift, (get_nullish p "l" H). reflexivity.
Qed.

Lemma decoded_points_world (w w' : world) (n : nat) (ps : list value) :
  date_now w' = date_now w -> random36 w' = random36 w ->
  decoded_points w' n ps = decoded_points w n ps.
Proof.
  intros Hd Hr. revert n. induction ps as [|p r IH]; intros n; [reflexivity|].
  cbn [decoded_points]. rewrite IH. unfold point_id. rewrite Hd, Hr. reflexivity.
Qed.

Lemma ticks_up (k : nat) (w : world) : ticks k (tick_up w) = ticks (S k) w.
Proof. unfold ticks, tick_up. cbn. f_equal. lia. Qed.

Lemma ticks_zero (w : world) : ticks 0 w = w.
Proof. destruct w. reflexivity. Qed.

Lemma mapM_decode (ps : list value) : forall w,
  Forall (fun p => nullish p = false) ps ->
  mapM Share.decodePoint ps w
  = (Ok (decoded_points w (tick w) ps), ticks (length ps) w).
Proof.
  induction ps as [|p r IH]; intros w H.
  - cbn. rewrite ticks_zero. reflexivity.
  - inversion H as [|? ? Hp Hr]; subst.
    cbn [mapM]. unfold bind at 1. rewrite decodePoint_eq by assumption.
    unfold bind at 1. rewrite IH by assumption.
    cbn [ret length decoded_points]. rewrite ticks_up.
    rewrite (decoded_points_world w (tick_up w)) by reflexivity. reflexivity.
Qed.

Lemma mapM_decode_inv (ps : list value) : forall w qs w',
  mapM Share.decodePoint ps w = (Ok qs, w') ->
  Forall (fun p => nullish p = false) ps.
Proof.
  induction ps as [|p r IH]; intros w qs w' E; [constructor|].
  cbn [mapM] in E. unfold bind at 1 in E.
  destruct (nullish p) eqn:Hp.
  - rewrite decodePoint_nullish in E by assumption. discriminate.
  - rewrite decodePoint_eq in E by assumption.
    unfold bind at 1 in E.
    destruct (mapM Share.decodePoint r (tick_up w)) as [[qs'|] w1] eqn:Em; [|discriminate].
    constructor; [assumption | eapply IH; eauto].
Qed.

Lemma decodeRecord_eq (st : value) (ps : list value) (w : world) :
  nullish st = false -> array_of (field st "p") = Some ps ->
  Forall (fun p => nullish p = false) ps ->
  Share.decodeRecord st w = (Ok (chart_of st ps w), ticks (length ps) (warned st w)).
Proof.
  intros Hs Hp Hps. unfold Share.decodeRecord.
  rewrite bind_lift, (get_ok st "v" Hs).
  assert (Hw : forall (k : unit -> M value),
             bind (if Share.not_version1 (field st "v")
                   then console_warn "Unknown state version:" (field st "v")
                   else ret tt) k w = k tt (warned st w)).
  { intros k. unfold warned. destruct (Share.not_version1 _); reflexivity. }
  rewrite Hw.
  rewrite bind_lift, (get_ok st "t" Hs), bind_lift, (get_ok st "s" Hs).
  rewrite bind_lift, (get_ok st "x" Hs), bind_lift, (get_ok st "y" Hs).
  rewrite bind_lift, (get_ok st "tm" Hs), bind_lift, (get_ok st "p" Hs).
  unfold bind at 1. rewrite map_array_eq, Hp, mapM_decode by assumption.
  unfold ret, chart_of, mk_chart.
  rewrite (decoded_points_world w (warned st w)).
  - replace (tick (warned st w)) with (tick w); [reflexivity|].
    unfold warned. destruct (Share.not_version1 _); reflexivity.
  - unfold warned. destruct (Share.not_version1 _); reflexivity.
  - unfold warned. destruct (Share.not_version1 _); reflexivity.
Qed.

Lemma decodeRecord_inv (st r : value) (w w' : world) :
  Share.decodeRecord st w = (Ok r, w') ->
  exists ps, nullish st = false /\ array_of (field st "p") = Some ps
             /\ Forall (fun p => nullish p = false) ps
             /\ r = chart_of st ps w /\ w' = ticks (length ps) (warned st w).
Proof.
  intros E. destruct (nullish st) eqn:Hs.
  { unfold Share.decodeRecord in E. rewrite bind_lift, (get_nullish st "v" Hs) in E.
    discriminate. }
  destruct (array_of (field st "p")) as [ps|] eqn:Hp.
  - assert (Hps : Forall (fun p => nullish p = false) ps).
    { unfold Share.decodeRecord in E.
      rewrite bind_lift, (get_ok st "v" Hs) in E.
      unfold bind at 1 in E.
      destruct ((if Share.not_version1 (field st "v")
                 then console_warn "Unknown state version:" (field st "v")
                 else ret tt) w) as [[u|] w1] eqn:Ew.
      2:{ destruct (Share.not_version1 _); discriminate. }
      rewrite bind_lift, (get_ok st "t" Hs), bind_lift, (get_ok st "s" Hs) in E.
      rewrite bind_lift, (get_ok st "x" Hs), bind_lift, (get_ok st "y" Hs) in E.
      rewrite bind_lift, (get_ok st "tm" Hs), bind_lift, (get_ok st "p" Hs) in E.
      unfold bind at 1 in E. rewrite map_array_eq, Hp in E.
      destruct (mapM Share.decodePoint ps w1) as [[qs|] w2] eqn:Em; [|discriminate].
      eapply mapM_decode_inv; eauto. }
    rewrite (decodeRecord_eq st ps w Hs Hp Hps) in E. inversion E; subst.
    exists ps. repeat split; auto.
  - exfalso. unfold Share.decodeRecord in E.
    rewrite bind_lift, (get_ok st "v" Hs) in E.
    unfold bind at 1 in E.
    destruct ((if Share.not_version1 (field st "v")
               then console_warn "Unknown state version:" (field st "v")
               else ret tt) w) as [[u|] w1] eqn:Ew.
    2:{ destruct (Share.not_version1 _); discriminate. }
    rewrite bind_lift, (get_ok st "t" Hs), bind_lift, (get_ok st "s" Hs) in E.
    rewrite bind_lift, (get_ok st "x" Hs), bind_lift, (get_ok st "y" Hs) in E.
    rewrite bind_lift, (get_ok st "tm" Hs), bind_lift, (get_ok st "p" Hs) in E.
    unfold bind at 1 in E. rewrite map_array_eq, Hp in E. discriminate.
Qed.

End Decode.

Section RoundTrip.

Lemma str_within_inv (lo hi : nat) (v : value) :
  str_within lo hi v = true ->
  exists s, v = VStr s /\ wf_stringb s = true /\ (lo <= length s <= hi)%nat.
Proof.
  destruct v; simpl; try discriminate. intros H.
  apply andb_prop in H as [H H2]. apply andb_prop in H as [H0 H1].
  apply Nat.leb_le in H1, H2. eauto.
Qed.

Lemma coord_ok_inv (v : value) :
  coord_ok v = true -> exists n, v = VNum n /\ num_wfb n = true /\ clamped n.
Proof.
  destruct v; simpl; try discriminate. intros H.
  apply andb_prop in H as [H0 H1]. exists n. repeat split; auto.
  destruct (num_wfb_wf n H0) as (m & e & -> & Hwf).
  apply in_range_clamped; assumption.
Qed.

Lemma or_else_str (s d : list N) : or_else (VStr s) (VStr []) = VStr s.
Proof. destruct s; reflexivity. Qed.

Lemma includes_inv (v : value) :
  includes template_names v = true -> exists s, v = VStr s /\ s <> [] /\ wf_stringb s = true.
Proof.
  destruct v; try discriminate. intros H. exists s. split; [reflexivity|].
  unfold includes, template_names in H. cbn [existsb] in H.
  repeat (apply orb_prop in H as [H|H];
          [apply str_eqb_eq in H; subst; split;
           [intros E; cbv in E; discriminate E | reflexivity]|]).
  discriminate H.
Qed.

Lemma valid_point_inv (p : value) :
  valid_point p = true ->
  nullish p = false /\
  exists l x y, field p "label" = VStr l /\ wf_stringb l = true /\ l <> []
                /\ (length l <= 50)%nat
                /\ field p "x" = VNum x /\ num_wfb x = true /\ clamped x
                /\ field p "y" = VNum y /\ num_wfb y = true /\ clamped y.
Proof.
  unfold valid_point. intros H.
  apply andb_prop in H as [H Hy]. apply andb_prop in H as [H Hx].
  apply andb_prop in H as [Ht Hl].
  split; [apply truthy_not_nullish; assumption|].
  apply str_within_inv in Hl as (l & El & Wl & Ll).
  apply coord_ok_inv in Hx as (x & Ex & Wx & Cx).
  apply coord_ok_inv in Hy as (y & Ey & Wy & Cy).
  exists l, x, y. repeat split; auto; try lia.
  destruct l; [simpl in Ll; lia | discriminate].
Qed.

Lemma strip_point_clean (p : value) : valid_point p = true -> clean (strip_point p) = true.
Proof.
  intros H. destruct (valid_point_inv p H) as (_ & l & x & y & El & Wl & _ & _ & Ex & Wx & _ & Ey & Wy & _).
  unfold strip_point. rewrite El, Ex, Ey. cbn [clean forallb fst snd map].
  rewrite Wl, Wx, Wy. reflexivity.
Qed.

Lemma decoded_points_ok (w : world) (pts : list value) : forall n,
  Forall (fun p => valid_point p = true) pts ->
  Forall point_ok (decoded_points w n (map strip_point pts))
  /\ Forall2 same_point pts (decoded_points w n (map strip_point pts)).
Proof.
  induction pts as [|p r IH]; intros n H; [split; constructor|].
  inversion H as [|? ? Hp Hr]; subst.
  destruct (IH (S n) Hr) as [IH1 IH2].
  destruct (valid_point_inv p Hp)
    as (_ & l & x & y & El & Wl & Nl & Ll & Ex & Wx & Cx & Ey & Wy & Cy).
  cbn [map decoded_points].
  replace (field (strip_point p) "l") with (VStr l) by (rewrite <- El; reflexivity).
  replace (field (strip_point p) "x") with (VNum x) by (rewrite <- Ex; reflexivity).
  replace (field (strip_point p) "y") with (VNum y) by (rewrite <- Ey; reflexivity).
  split; constructor; auto.
  - exists l, x, y, (VStr (point_id w n)). repeat split; auto.
  - unfold same_point. rewrite El, Ex, Ey. repeat split.
Qed.

Lemma decoded_points_length (w : world) (ps : list value) : forall n,
  length (decoded_points w n ps) = length ps.
Proof. induction ps as [|p r IH]; intros n; simpl; [|rewrite IH]; reflexivity. Qed.

(** The codec composed: a valid chart is encoded to a token, the token
    decodes to a chart that [sanitizeState] leaves alone, and that chart
    has the content of the first. *)
Lemma codec_round (D : value) (w : world) :
  valid_chart D = true ->
  exists tok R w',
    Share.encodeState D w = (VStr tok, w)
    /\ Share.decodeState (VStr tok) w = (R, w')
    /\ Share.sanitizeState R w' = (Ok R, w')
    /\ same_content D R.
Proof.
  unfold valid_chart. intros H.
  apply andb_prop in H as [H Hp]. apply andb_prop in H as [H Htm].
  apply andb_prop in H as [H Hya]. apply andb_prop in H as [H Hxa].
  apply andb_prop in H as [H Hs]. apply andb_prop in H as [HD Ht].
  apply str_within_inv in Ht as (t & Et & Wt & Lt).
  apply str_within_inv in Hs as (s & Es & Ws & Ls).
  apply str_within_inv in Hxa as (xa & Exa & Wxa & Lxa).
  apply str_within_inv in Hya as (ya & Eya & Wya & Lya).
  apply includes_inv in Htm as Htm'. destruct Htm' as (tm & Etm & Ntm & Wtm).
  destruct (field D "dataPoints") as [| | | | |pts|] eqn:Edp; try discriminate.
  apply andb_prop in Hp as [Ln Hpts]. apply Nat.leb_le in Ln.
  apply forallb_Forall in Hpts.
  pose proof (truthy_not_nullish D HD) as ND.
  assert (Harr : array_of (field D "dataPoints") = Some pts) by (rewrite Edp; reflexivity).
  assert (Hnn : Forall (fun p => nullish p = false) pts).
  { eapply Forall_impl; [|exact Hpts]. intros p Hv. apply valid_point_inv in Hv. tauto. }
  set (st := state_of D pts).
  assert (Est : st = VObj [(lit "v", VNum (Fin 1 0)); (lit "t", VStr t); (lit "s", VStr s);
                           (lit "x", VStr xa); (lit "y", VStr ya); (lit "tm", VStr tm);
                           (lit "p", VArr (map strip_point pts))]).
  { unfold st, state_of. rewrite Et, Es, Exa, Eya, Etm, !or_else_str by exact [].
    rewrite (or_else_truthy (VStr tm)) by (destruct tm; [congruence | reflexivity]).
    reflexivity. }
  assert (Hclean : clean st = true).
  { rewrite Est. cbn [clean forallb fst snd map]. rewrite Wt, Ws, Wxa, Wya, Wtm.
    cbn [andb wf_stringb forallb lit list_ascii_of_string N_of_ascii].
    replace (forallb clean (map strip_point pts)) with true; [reflexivity|].
    symmetry. apply forallb_forall. intros q Hq. apply in_map_iff in Hq as (p & <- & Hin).
    apply strip_point_clean. rewrite Forall_forall in Hpts. auto. }
  destruct (token_round (text_of st) (text_good st Hclean)) as (tok & Etok & Edec).
  rewrite (parse_text st Hclean) in Edec.
  assert (Ntok : tok <> []).
  { intros ->. rewrite decodeJSON_nil in Edec. discriminate. }
  assert (Hps : Forall (fun p => nullish p = false) (map strip_point pts)).
  { apply Forall_forall. intros q Hq. apply in_map_iff in Hq as (p & <- & _). reflexivity. }
  assert (Hsp : array_of (field st "p") = Some (map strip_point pts))
    by (rewrite Est; reflexivity).
  assert (Hw : warned st w = w) by (rewrite Est; reflexivity).
  destruct (decoded_points_ok w pts (tick w) Hpts) as [Hok Hsame].
  exists tok, (chart_of st (map strip_point pts) w), (ticks (length (map strip_point pts)) w).
  split; [|split; [|split]].
  - unfold Share.encodeState, Share.try_catch.
    rewrite (encodeBody_eq D pts w ND Harr Hnn). fold st. rewrite Etok. reflexivity.
  - unfold Share.decodeState, Share.try_catch, Share.decodeBody.
    replace (truthy (VStr tok)) with true by (destruct tok; [congruence | reflexivity]).
    cbn [negb]. rewrite bind_lift, Edec.
    rewrite (decodeRecord_eq st _ w) by (auto; rewrite Est; reflexivity).
    rewrite Hw. reflexivity.
  - apply sanitizeState_fixed. unfold chart_of. rewrite Est.
    exists t, s, xa, ya, (VStr tm), (decoded_points w (tick w) (map strip_point pts)).
    split.
    { change (field (VObj _) "t") with (VStr t). change (field (VObj _) "s") with (VStr s).
      change (field (VObj _) "x") with (VStr xa). change (field (VObj _) "y") with (VStr ya).
      change (field (VObj _) "tm") with (VStr tm).
      rewrite !or_else_str by exact [].
      rewrite (or_else_truthy (VStr tm)) by (destruct tm; [congruence | reflexivity]).
      reflexivity. }
    repeat split; try lia.
    + destruct xa; [simpl in Lxa; lia | discriminate].
    + destruct ya; [simpl in Lya; lia | discriminate].
    + rewrite <- Etm. exact Htm.
    + rewrite decoded_points_length, length_map. exact Ln.
    + exact Hok.
  - unfold same_content, chart_of, points_of. rewrite Est, Edp, Et, Es, Exa, Eya, Etm.
    change (field (VObj _) "t") with (VStr t). change (field (VObj _) "s") with (VStr s).
    change (field (VObj _) "x") with (VStr xa). change (field (VObj _) "y") with (VStr ya).
    change (field (VObj _) "tm") with (VStr tm).
    rewrite !or_else_str by exact [].
    rewrite (or_else_truthy (VStr tm)) by (destruct tm; [congruence | reflexivity]).
    repeat split. exact Hsame.
Qed.

End RoundTrip.

(** * The codec at its boundary *)

Section Boundary.

Lemma record_points_inv (st : value) (ps : list value) :
  record_points st = Some ps ->
  nullish st = false /\ array_of (field st "p") = Some ps
  /\ Forall (fun p => nullish p = false) ps.
Proof.
  unfold record_points. destruct (nullish st); [discriminate|].
  destruct (array_of (field st "p")) as [qs|]; [|discriminate].
  destruct (forallb _ qs) eqn:F; [|discriminate].
  intros E. inversion E; subst. repeat split.
  apply Forall_forall. intros p Hp.
  rewrite forallb_forall in F. specialize (F p Hp).
  destruct (nullish p); [discriminate | reflexivity].
Qed.

Lemma record_points_intro (st : value) (ps : list value) :
  nullish st = false -> array_of (field st "p") = Some ps ->
  Forall (fun p => nullish p = false) ps -> record_points st = Some ps.
Proof.
  intros Hs Hp Hps. unfold record_points. rewrite Hs, Hp.
  replace (forallb _ ps) with true; [reflexivity|].
  symmetry. apply forallb_forall. intros p Hin.
  rewrite Forall_forall in Hps. rewrite (Hps p Hin). reflexivity.
Qed.

(** what [decodeState] returns for a string *)
Lemma decodeState_fst (tok : jsstring) (w : world) :
  fst (Share.decodeState (VStr tok) w)
  = match Share.decodeJSON tok with
    | Ok st => match record_points st with
               | Some ps => chart_of st ps w
               | None => VNull
               end
    | Throw _ => VNull
    end.
Proof.
  unfold Share.decodeState, Share.try_catch, Share.decodeBody.
  destruct tok as [|c tok].
  - rewrite decodeJSON_nil. reflexivity.
  - change (truthy (VStr (c :: tok))) with true. cbn [negb].
    rewrite bind_lift.
    destruct (Share.decodeJSON (c :: tok)) as [st|e]; [|reflexivity].
    destruct (record_points st) as [ps|] eqn:R.
    + destruct (record_points_inv st ps R) as (Hs & Hp & Hps).
      rewrite (decodeRecord_eq st ps w Hs Hp Hps). reflexivity.
    + destruct (Share.decodeRecord st w) as [[r|e] w'] eqn:E; [|reflexivity].
      destruct (decodeRecord_inv st r w w' E) as (ps & Hs & Hp & Hps & _).
      rewrite (record_points_intro st ps Hs Hp Hps) in R. discriminate.
Qed.

(** the world [decodeState] leaves when it decodes *)
Lemma decodeState_snd (tok : jsstring) (st : value) (ps : list value) (w : world) :
  Share.decodeJSON tok = Ok st -> record_points st = Some ps ->
  snd (Share.decodeState (VStr tok) w) = ticks (length ps) (warned st w).
Proof.
  intros Ej R. unfold Share.decodeState, Share.try_catch, Share.decodeBody.
  destruct tok as [|c tok]; [rewrite decodeJSON_nil in Ej; discriminate|].
  change (truthy (VStr (c :: tok))) with true. cbn [negb].
  rewrite bind_lift, Ej.
  destruct (record_points_inv st ps R) as (Hs & Hp & Hps).
  rewrite (decodeRecord_eq st ps w Hs Hp Hps). reflexivity.
Qed.

Lemma chart_of_not_null (st : value) (ps : list value) (w : world) :
  chart_of st ps w <> VNull.
Proof. discriminate. Qed.

Lemma points_of_chart_of (st : value) (ps : list value) (w : world) :
  points_of (chart_of st ps w) = decoded_points w (tick w) ps.
Proof. reflexivity. Qed.

(** the identifiers of decoded points: one draw each, in order *)
Lemma decoded_points_ids (w : world) (ps : list value) : forall n,
  map (fun q => field q "id") (decoded_points w n ps)
  = map (fun i => VStr (point_id w i)) (seq n (length ps)).
Proof.
  induction ps as [|p r IH]; intros n; [reflexivity|].
  cbn [decoded_points length seq map]. rewrite IH. reflexivity.
Qed.

(** the coordinates of decoded points are the record's *)
Lemma decoded_points_coords (w : world) (ps : list value) : forall n,
  Forall2 (fun p q => field q "label" = field p "l" /\ field q "x" = field p "x"
                      /\ field q "y" = field p "y") ps (decoded_points w n ps).
Proof.
  induction ps as [|p r IH]; intros n; constructor; [|apply IH].
  repeat split.
Qed.

End Boundary.

(** * What [sanitizeState] does to each point *)

Section Pointwise.

Lemma id_kept_or_drawn_wider (w0 w1 w2 w3 : world) (p q : value) :
  date_now w1 = date_now w0 -> random36 w1 = random36 w0 ->
  (tick w0 <= tick w1)%nat -> (tick w2 <= tick w3)%nat ->
  id_kept_or_drawn w1 w2 p q -> id_kept_or_drawn w0 w3 p q.
Proof.
  intros Hd Hr H01 H23 [H|(Hf & n & Hn & E)]; [left; exact H|].
  right. split; [exact Hf|]. exists n. split; [lia|].
  rewrite E. unfold point_id. rewrite Hd, Hr. reflexivity.
Qed.

Lemma repaired_wider (w0 w1 w2 w3 : world) (p q : value) :
  date_now w1 = date_now w0 -> random36 w1 = random36 w0 ->
  (tick w0 <= tick w1)%nat -> (tick w2 <= tick w3)%nat ->
  repaired w1 w2 p q -> repaired w0 w3 p q.
Proof.
  intros Hd Hr H01 H23 (l & x & y & H1 & H2 & H3 & H4 & H5 & H6 & H7 & H8 & H9).
  exists l, x, y. repeat split; auto.
  eapply id_kept_or_drawn_wider; eauto.
Qed.

Lemma sanitizePoint_repaired (p q : value) (w w' : world) :
  Share.has_label p = true -> Share.sanitizePoint p w = (Ok q, w') ->
  date_now w' = date_now w /\ random36 w' = random36 w
  /\ (tick w <= tick w')%nat /\ repaired w w' p q.
Proof.
  intros Hl E.
  pose proof (sanitizePoint_ok p q w w' Hl E) as (l' & x' & y' & id' & Eq' & _ & _ & Cx & Cy & _).
  destruct (sanitizePoint_inv p q w w' Hl E) as (l & x & y & id & El & Px & Py & Eq & Hid).
  rewrite Eq in Eq'. inversion Eq'; subst l' x' y' id'.
  assert (Hw : date_now w' = date_now w /\ random36 w' = random36 w
               /\ (tick w <= tick w')%nat).
  { destruct Hid as [(_ & _ & ->)|(_ & _ & ->)]; cbn; repeat split; lia. }
  destruct Hw as (Hd & Hr & Ht). repeat split; auto.
  exists l, x, y. subst q. repeat split; auto.
  destruct Hid as [(T & -> & _)|(T & -> & ->)].
  - left. split; [exact T | reflexivity].
  - right. split; [exact T|]. exists (tick w). split; [cbn; lia | reflexivity].
Qed.

Lemma mapM_sanitize_repaired (ps : list value) : forall w qs w',
  Forall (fun p => Share.has_label p = true) ps ->
  mapM Share.sanitizePoint ps w = (Ok qs, w') ->
  date_now w' = date_now w /\ random36 w' = random36 w
  /\ (tick w <= tick w')%nat /\ Forall2 (repaired w w') ps qs.
Proof.
  induction ps as [|p r IH]; intros w qs w' Hl E.
  - inversion E; subst. repeat split; auto.
  - inversion Hl as [|? ? Hp Hr]; subst.
    cbn [mapM] in E. unfold bind at 1 in E.
    destruct (Share.sanitizePoint p w) as [[q|e] w1] eqn:Ep; [|discriminate].
    unfold bind at 1 in E.
    destruct (mapM Share.sanitizePoint r w1) as [[qs'|e] w2] eqn:Em; [|discriminate].
    inversion E; subst qs w'.
    destruct (sanitizePoint_repaired p q w w1 Hp Ep) as (Hd1 & Hr1 & Ht1 & R1).
    destruct (IH w1 qs' w2 Hr Em) as (Hd2 & Hr2 & Ht2 & R2).
    repeat split; try congruence; try lia.
    constructor.
    + apply (repaired_wider w w w1 w2); auto.
    + eapply Forall2_impl; [|exact R2].
      intros a b Hab. apply (repaired_wider w w1 w2 w2); auto.
Qed.

(** every point of the output is the repair of a kept point of the input *)
Lemma sanitizeState_repaired (data r : value) (w w' : world) :
  Share.sanitizeState data w = (Ok r, w') ->
  Forall2 (repaired w w') (kept_points data) (points_of r).
Proof.
  intros E. destruct (truthy data) eqn:T.
  - destruct (sanitizeState_inv data r w w' T E)
      as (t & s & xa & ya & pts & _ & _ & _ & _ & Em & ->).
    change (points_of (mk_chart _ _ _ _ _ (VArr pts))) with pts.
    apply (mapM_sanitize_repaired _ _ _ _ (kept_points_labelled data) Em).
  - rewrite (sanitizeState_falsy data w T) in E. inversion E; subst.
    replace (kept_points data) with (@nil value); [constructor|].
    unfold kept_points, field. destruct data; try discriminate; try reflexivity.
Qed.

End Pointwise.

(** * The claims of the specification *)

(** ** C1 *)

(** C1, as the code has it: for every chart [D] within the limits that
    [sanitizeState] enforces (title and subtitle of at most 100 units, axis
    names and labels of 1 to 50 units, a template of the registry, at most
    100 points with coordinates in [0, 100]),
    [sanitizeState(decodeState(encodeState(D)))] returns a chart with the
    title, subtitle, axis names and template of [D] and with the labels,
    x and y of its points in the same order. *)
Theorem roundtrip_preserves_content (D : value) (w : world) :
  valid_chart D = true ->
  exists R w', roundtrip D w = (Ok R, w') /\ same_content D R.
Proof.
  intros H. destruct (codec_round D w H) as (tok & R & w' & He & Hd & Hs & Hc).
  exists R, w'. split; [|exact Hc].
  unfold roundtrip. rewrite He, Hd. exact Hs.
Qed.

Lemma roundtrip_preserves_content_witness :
  valid_chart chart_Q4 = true
  /\ exists R w', roundtrip chart_Q4 sample_world = (Ok R, w') /\ same_content chart_Q4 R.
Proof.
  split; [reflexivity|].
  apply (roundtrip_preserves_content chart_Q4 sample_world). reflexivity.
Defined.

(** C1 as stated fails: a chart of the data model, which [validateState]
    accepts, with a title of 101 units comes back with the first 100. *)
Lemma roundtrip_cuts_long_title :
  exists R w',
    model_chart long_title_chart = true
    /\ Share.isValid long_title_chart = true
    /\ roundtrip long_title_chart sample_world = (Ok R, w')
    /\ field long_title_chart "title" = VStr (repeat 120%N 101)
    /\ field R "title" = VStr (repeat 120%N 100)
    /\ ~ same_content long_title_chart R.
Proof.
  do 2 eexists. split; [reflexivity|]. split; [reflexivity|].
  split; [vm_compute; reflexivity|].
  split; [reflexivity|]. split; [reflexivity|].
  intros (Ht & _). vm_compute in Ht. discriminate Ht.
Qed.

(** ** C2 *)

(** C2, as the code has it: [sanitizeState] returns [null] for a falsy
    input; for a truthy input whose texts are strings or falsy and whose
    labelled points have string labels and coordinates that convert to
    strings, it returns a valid chart, which is not [null]. *)
Theorem sanitizeState_repairs (data : value) (w : world) :
  (truthy data = false -> Share.sanitizeState data w = (Ok VNull, w))
  /\ (repairable data = true ->
      exists r w', Share.sanitizeState data w = (Ok r, w') /\ chart_ok r /\ r <> VNull).
Proof.
  split; [apply sanitizeState_falsy|].
  intros H. destruct (sanitizeState_returns data w H) as (r & w' & E & Hok).
  exists r, w'. repeat split; auto.
  destruct Hok as (t & s & xa & ya & tm & pts & -> & _). discriminate.
Qed.

Lemma sanitizeState_repairs_witness :
  truthy VUndefined = false
  /\ Share.sanitizeState VUndefined sample_world = (Ok VNull, sample_world)
  /\ repairable scenario_D = true
  /\ exists r w', Share.sanitizeState scenario_D sample_world = (Ok r, w')
                  /\ chart_ok r /\ r <> VNull.
Proof.
  split; [reflexivity|].
  split; [apply (proj1 (sanitizeState_repairs VUndefined sample_world)); reflexivity|].
  split; [reflexivity|].
  apply (proj2 (sanitizeState_repairs scenario_D sample_world)). reflexivity.
Defined.

(** C2 as stated fails: [sanitizeState] returns [null] for [null] and
    for [undefined], by its first line; the empty object is repaired. *)
Lemma sanitizeState_null_for_null :
  Share.sanitizeState VNull sample_world = (Ok VNull, sample_world)
  /\ Share.sanitizeState VUndefined sample_world = (Ok VNull, sample_world)
  /\ Share.sanitizeState (VObj []) sample_world
     = (Ok (sample_chart [] [] (lit "X Axis") (lit "Y Axis") []), sample_world).
Proof. repeat split. Qed.

(** ** C3 *)

(** C3, as the code has it: every point of a non-null result of
    [decodeState] has an identifier generated during the call, the i-th
    point the i-th one drawn; [sanitizeState] keeps the identifier of a
    point when it is truthy and generates one only otherwise. *)
Theorem ids_drawn_on_decode_kept_on_sanitize
    (tok : jsstring) (data r : value) (w w' : world) :
  (fst (Share.decodeState (VStr tok) w) <> VNull ->
   map (fun q => field q "id") (points_of (fst (Share.decodeState (VStr tok) w)))
   = map (fun i => VStr (point_id w i))
         (seq (tick w) (length (points_of (fst (Share.decodeState (VStr tok) w))))))
  /\ (Share.sanitizeState data w = (Ok r, w') ->
      Forall2 (id_kept_or_drawn w w') (kept_points data) (points_of r)).
Proof.
  split.
  - rewrite decodeState_fst.
    destruct (Share.decodeJSON tok) as [st|e]; [|intros H; contradiction H; reflexivity].
    destruct (record_points st) as [ps|]; [|intros H; contradiction H; reflexivity].
    intros _. rewrite points_of_chart_of, decoded_points_ids, decoded_points_length.
    reflexivity.
  - intros E. eapply Forall2_impl; [|exact (sanitizeState_repaired data r w w' E)].
    intros p q (l & x & y & _ & _ & _ & _ & _ & _ & _ & _ & H). exact H.
Qed.

Lemma ids_drawn_on_decode_kept_on_sanitize_witness :
  fst (Share.decodeState (VStr token_v1) sample_world) <> VNull
  /\ map (fun q => field q "id")
         (points_of (fst (Share.decodeState (VStr token_v1) sample_world)))
     = [VStr (point_id sample_world 0)]
  /\ Share.sanitizeState chart_with_id sample_world = (Ok chart_with_id, sample_world)
  /\ Forall2 (id_kept_or_drawn sample_world sample_world)
       (kept_points chart_with_id) (points_of chart_with_id).
Proof.
  pose proof (ids_drawn_on_decode_kept_on_sanitize token_v1 chart_with_id chart_with_id
                sample_world sample_world) as [Hd Hs].
  assert (N : fst (Share.decodeState (VStr token_v1) sample_world) <> VNull).
  { vm_compute. discriminate. }
  split; [exact N|]. split; [exact (Hd N)|].
  split; [reflexivity|]. apply Hs. reflexivity.
Defined.

(** C3 as stated fails: [sanitizeState] carries the identifier [p1] of an
    input point through to its output. *)
Lemma sanitizeState_keeps_id :
  exists r w',
    Share.sanitizeState chart_with_id sample_world = (Ok r, w')
    /\ map (fun q => field q "id") (points_of chart_with_id) = [VStr (lit "p1")]
    /\ map (fun q => field q "id") (points_of r) = [VStr (lit "p1")].
Proof. do 2 eexists. repeat split. Qed.

(** ** C4 *)

(** C4, as the code has it: every point of the output of [sanitizeState]
    has the coordinates [clamp(parseFloat(x))] and [clamp(parseFloat(y))]
    of the input point, which lie in [0, 100] and are 0 when the input is
    not numeric; [decodeState] copies the coordinates of the record as
    they are. *)
Theorem coordinates_clamped_by_sanitize_only
    (data r : value) (tok : jsstring) (st : value) (ps : list value) (w w' : world) :
  (Share.sanitizeState data w = (Ok r, w') ->
   Forall2 (fun p q =>
              exists x y,
                parseFloat (field p "x") = Ok x /\ parseFloat (field p "y") = Ok y
                /\ field q "x" = VNum (clamp x) /\ field q "y" = VNum (clamp y)
                /\ in_range (clamp x) = true /\ in_range (clamp y) = true
                /\ (is_nan x = true -> clamp x = Fin 0 0)
                /\ (is_nan y = true -> clamp y = Fin 0 0))
           (kept_points data) (points_of r))
  /\ (Share.decodeJSON tok = Ok st -> record_points st = Some ps ->
      Forall2 (fun p q => field q "x" = field p "x" /\ field q "y" = field p "y")
              ps (points_of (fst (Share.decodeState (VStr tok) w)))).
Proof.
  split.
  - intros E. eapply Forall2_impl; [|exact (sanitizeState_repaired data r w w' E)].
    intros p q (l & x & y & _ & Px & Py & _ & Ex & Ey & Cx & Cy & _).
    exists x, y. repeat split; auto using clamped_in_range.
    + destruct x; try discriminate. reflexivity.
    + destruct y; try discriminate. reflexivity.
  - intros Ej R. rewrite decodeState_fst, Ej, R, points_of_chart_of.
    eapply Forall2_impl; [|apply decoded_points_coords].
    intros p q (_ & Hx & Hy). split; assumption.
Qed.

Lemma coordinates_clamped_by_sanitize_only_witness :
  Share.sanitizeState scenario_D sample_world
  = (Ok scenario_D_repaired, tick_up sample_world)
  /\ Share.decodeJSON token_v1 = Ok (record_Q4 (Fin 1 0))
  /\ record_points (record_Q4 (Fin 1 0)) = Some (points_of_record (record_Q4 (Fin 1 0)))
  /\ Forall2 (fun p q =>
              exists x y,
                parseFloat (field p "x") = Ok x /\ parseFloat (field p "y") = Ok y
                /\ field q "x" = VNum (clamp x) /\ field q "y" = VNum (clamp y)
                /\ in_range (clamp x) = true /\ in_range (clamp y) = true
                /\ (is_nan x = true -> clamp x = Fin 0 0)
                /\ (is_nan y = true -> clamp y = Fin 0 0))
           (kept_points scenario_D) (points_of scenario_D_repaired)
  /\ Forall2 (fun p q => field q "x" = field p "x" /\ field q "y" = field p "y")
        (points_of_record (record_Q4 (Fin 1 0)))
        (points_of (fst (Share.decodeState (VStr token_v1) sample_world))).
Proof.
  assert (Es : Share.sanitizeState scenario_D sample_world
               = (Ok scenario_D_repaired, tick_up sample_world))
    by (vm_compute; reflexivity).
  assert (Ej : Share.decodeJSON token_v1 = Ok (record_Q4 (Fin 1 0)))
    by (vm_compute; reflexivity).
  assert (Er : record_points (record_Q4 (Fin 1 0))
               = Some (points_of_record (record_Q4 (Fin 1 0)))) by reflexivity.
  pose proof (coordinates_clamped_by_sanitize_only scenario_D scenario_D_repaired
                token_v1 (record_Q4 (Fin 1 0)) (points_of_record (record_Q4 (Fin 1 0)))
                sample_world (tick_up sample_world)) as [Hs Hd].
  split; [exact Es|]. split; [exact Ej|]. split; [exact Er|].
  split; [exact (Hs Es) | exact (Hd Ej Er)].
Defined.

(** C4 as stated fails: [decodeState] returns a point with x = 999 and
    y = -5 for a token whose record holds them. *)
Lemma decodeState_out_of_range :
  exists r p,
    fst (Share.decodeState (VStr token_out_of_range) sample_world) = r
    /\ points_of r = [p]
    /\ field p "x" = VNum (Fin 999 0) /\ field p "y" = VNum (Fin (-5) 0)
    /\ in_range (Fin 999 0) = false /\ in_range (Fin (-5) 0) = false.
Proof. do 2 eexists. vm_compute. repeat split. Qed.

(** ** C5 *)




(** ** C6 *)

(** C6: [sanitizeState(sanitizeState(X))] is [sanitizeState(X)] for every
    input [X]: the second call returns what the first returned, draws no
    identifier, and the call that throws throws. *)
Theorem sanitizeState_idempotent (X : value) (w : world) :
  bind (Share.sanitizeState X) Share.sanitizeState w = Share.sanitizeState X w.
Proof.
  unfold bind. destruct (Share.sanitizeState X w) as [[r|e] w'] eqn:E; [|reflexivity].
  destruct (sanitizeState_chart_ok X r w w' E) as [(_ & -> & _)|(_ & Hok)].
  - apply sanitizeState_falsy. reflexivity.
  - apply sanitizeState_fixed. exact Hok.
Qed.

(** ** C7 *)

(** the top-level properties of the copy are its own: assigning to one
    leaves what a later [getTemplate] returns unchanged *)
Lemma getTemplate_copy_top_level (name : jsstring) (k : string) (v : Templates.tval) :
  Templates.template_content
    (Templates.set_prop (snd (Templates.getTemplate Templates.registry name))
       (fst (Templates.getTemplate Templates.registry name)) k v) name
  = Templates.template_content Templates.registry name.
Proof.
  assert (Hl : forall h, nth_error h 0 = nth_error Templates.registry 0 ->
                 Templates.lookup_template h name
                 = Templates.lookup_template Templates.registry name).
  { intros h E. unfold Templates.lookup_template, Templates.templates.
    rewrite E. reflexivity. }
  assert (Hc : Templates.lookup_template Templates.registry name = Templates.minimal
               \/ Templates.lookup_template Templates.registry name = Templates.modern
               \/ Templates.lookup_template Templates.registry name = Templates.vibrant).
  { unfold Templates.lookup_template.
    cbn [nth_error Templates.registry Templates.templates Templates.props_get
         Templates.P_].
    destruct (str_eqb name (lit "minimal")); [left; reflexivity|].
    destruct (str_eqb name (lit "modern")); [right; left; reflexivity|].
    destruct (str_eqb name (lit "vibrant")); [right; right|right; left]; reflexivity. }
  unfold Templates.template_content, Templates.getTemplate.
  destruct Hc as [E|[E|E]]; rewrite E;
    (rewrite Hl; [rewrite E; vm_compute; reflexivity | vm_compute; reflexivity]).
Qed.

(** C7 fails in the code: [getTemplate] copies the top-level properties
    only, so the copy holds the registry's own quadrant record and point
    palette.  Assigning to [quadrants.topLeft] or to [pointColors[0]] of the
    copy changes the registry, and a later [getTemplate('modern')] returns
    the changed content. *)
Theorem getTemplate_copy_shares_nested :
  exists t h q a,
    Templates.getTemplate Templates.registry (lit "modern") = (t, h)
    /\ Templates.get_prop h t "quadrants" = Templates.TRef q
    /\ Templates.get_prop h t "pointColors" = Templates.TRef a
    /\ Templates.get_prop Templates.registry Templates.modern "quadrants" = Templates.TRef q
    /\ Templates.get_prop Templates.registry Templates.modern "pointColors" = Templates.TRef a
    /\ Templates.template_content
         (Templates.set_prop h q "topLeft" (Templates.S_ "#000000")) (lit "modern")
       <> Templates.template_content Templates.registry (lit "modern")
    /\ Templates.template_content
         (Templates.set_item h a 0 (Templates.S_ "#000000")) (lit "modern")
       <> Templates.template_content Templates.registry (lit "modern").
Proof.
  do 4 eexists. split; [vm_compute; reflexivity|].
  split; [vm_compute; reflexivity|]. split; [vm_compute; reflexivity|].
  split; [reflexivity|]. split; [reflexivity|].
  split; vm_compute; discriminate.
Qed.

(** ** C8 *)



(** ** C9 *)


(** ** C10 *)

(** C10: every point of the output of [sanitizeState] has for label the
    first 50 units of the label of the input point it was made of, so a
    label of at most 50 units. *)
Theorem labels_cut_to_50 (data r : value) (w w' : world) :
  Share.sanitizeState data w = (Ok r, w') ->
  Forall2 (fun p q => exists l, field p "label" = VStr l
                                /\ field q "label" = VStr (firstn 50 l)
                                /\ (length (firstn 50 l) <= 50)%nat)
          (kept_points data) (points_of r).
Proof.
  intros E. eapply Forall2_impl; [|exact (sanitizeState_repaired data r w w' E)].
  intros p q (l & x & y & Hl & _ & _ & Hq & _).
  exists l. repeat split; auto. apply firstn_le_length.
Qed.

Lemma labels_cut_to_50_witness :
  exists r w',
    Share.sanitizeState long_label_chart sample_world = (Ok r, w')
    /\ map (fun p => field p "label") (points_of long_label_chart)
       = [VStr (repeat 76%N 60)]
    /\ map (fun q => field q "label") (points_of r) = [VStr (repeat 76%N 50)]
    /\ Forall2 (fun p q => exists l, field p "label" = VStr l
                                     /\ field q "label" = VStr (firstn 50 l)
                                     /\ (length (firstn 50 l) <= 50)%nat)
               (kept_points long_label_chart) (points_of r).
Proof.
  do 2 eexists. split; [vm_compute; reflexivity|].
  split; [reflexivity|]. split; [reflexivity|].
  eapply (labels_cut_to_50 long_label_chart _ sample_world _).
  vm_compute. reflexivity.
Defined.

(** * Further properties of the code *)

(** * validateState, sanitizeState and the import *)

Section Validate.

Lemma num_compare_flip (m1 e1 m2 e2 : Z) :
  num_compare (Fin m2 e2) (Fin m1 e1)
  = option_map CompOpp (num_compare (Fin m1 e1) (Fin m2 e2)).
Proof.
  rewrite !num_compare_fin. cbn [option_map]. rewrite (Z.min_comm e2 e1).
  f_equal. apply Z.compare_antisym.
Qed.

Lemma clamped_good_coord (n : number) : clamped n -> Share.bad_coord (VNum n) = false.
Proof.
  intros H. pose proof (clamped_in_range n H) as R.
  destruct (clamped_finite n H) as (m & e & ->).
  unfold in_range, num_leb in R. unfold Share.bad_coord, num_ltb.
  rewrite (num_compare_flip 0 0 m e), (num_compare_flip m e 1 2).
  destruct (num_compare (Fin 0 0) (Fin m e)) as [[]|]; try discriminate;
    destruct (num_compare (Fin m e) (Fin 1 2)) as [[]|]; try discriminate; reflexivity.
Qed.

Lemma not_text_str (s : list N) : s <> [] -> Share.not_text (VStr s) = false.
Proof. destruct s; [congruence | reflexivity]. Qed.

Lemma validatePoint_ok (index : nat) (q : value) :
  point_ok q -> Share.validatePoint index q = Ok [].
Proof.
  intros (l & x & y & id & -> & Nl & _ & Cx & Cy & _).
  unfold Share.validatePoint.
  change (get (VObj _) "label") with (Ok (VStr l)).
  change (get (VObj _) "x") with (Ok (VNum x)).
  change (get (VObj _) "y") with (Ok (VNum y)).
  cbn [rbind]. rewrite (not_text_str l Nl), (clamped_good_coord x Cx), (clamped_good_coord y Cy).
  reflexivity.
Qed.

Lemma validatePoints_ok (pts : list value) : forall index,
  Forall point_ok pts -> Share.validatePoints index pts = Ok [].
Proof.
  induction pts as [|q r IH]; intros index H; [reflexivity|].
  inversion H as [|? ? Hq Hr]; subst.
  cbn [Share.validatePoints]. rewrite (validatePoint_ok index q Hq). cbn [rbind].
  rewrite (IH (S index) Hr). reflexivity.
Qed.

(** the title is all [validateState] can hold against a sanitized chart *)
Lemma validateState_chart_ok (r : value) :
  chart_ok r ->
  Share.validateState r
  = Ok (if Share.not_text (field r "title") then [lit "Invalid or missing title"] else []).
Proof.
  intros (t & s & xa & ya & tm & pts & -> & _ & _ & Nxa & _ & Nya & _ & Htm & _ & Hp).
  destruct (includes_inv tm Htm) as (n & -> & Nn & _).
  unfold Share.validateState. change (truthy (VObj _)) with true. cbn [negb].
  change (get (VObj _) "title") with (Ok (VStr t)).
  change (get (VObj _) "xAxisName") with (Ok (VStr xa)).
  change (get (VObj _) "yAxisName") with (Ok (VStr ya)).
  change (get (VObj _) "template") with (Ok (VStr n)).
  change (get (VObj _) "dataPoints") with (Ok (VArr pts)).
  cbn [rbind]. rewrite (validatePoints_ok pts 0 Hp). cbn [rbind].
  rewrite (not_text_str xa Nxa), (not_text_str ya Nya), (not_text_str n Nn).
  change (field (VObj _) "title") with (VStr t).
  rewrite !app_nil_r. reflexivity.
Qed.

Lemma isValid_chart_ok (r : value) :
  chart_ok r -> Share.isValid r = negb (Share.not_text (field r "title")).
Proof.
  intros H. unfold Share.isValid. rewrite (validateState_chart_ok r H).
  destruct (Share.not_text _); reflexivity.
Qed.

(** a valid input has a title, and a truthy input a dataPoints field read
    without failure *)
Lemma validateState_title (data : value) :
  Share.validateState data = Ok [] ->
  truthy data = true /\ exists t, field data "title" = VStr t /\ t <> [].
Proof.
  unfold Share.validateState. destruct (truthy data) eqn:T; [|discriminate].
  cbn [negb]. rewrite !(get_truthy data _ T). cbn [rbind].
  destruct (match field data "dataPoints" with
            | VArr pts => Share.validatePoints 0 pts
            | _ => Ok []
            end) as [pe|e]; [|discriminate].
  cbn [rbind]. intros E. split; [reflexivity|].
  unfold Share.not_text in E.
  destruct (field data "title") as [| | | |t| |]; try discriminate E.
  - destruct b; discriminate E.
  - destruct (truthy (VNum n)); discriminate E.
  - destruct t; [discriminate E|]. eexists. split; [reflexivity | discriminate].
Qed.

End Validate.

Section ImportFile.

Lemma sanitizeState_title (data r : value) (w w' : world) (t : list N) :
  truthy data = true -> field data "title" = VStr t ->
  Share.sanitizeState data w = (Ok r, w') ->
  field r "title" = VStr (firstn 100 t).
Proof.
  intros T Et E.
  destruct (sanitizeState_inv data r w w' T E)
    as (t' & s & xa & ya & pts & Et' & _ & _ & _ & _ & ->).
  rewrite Et in Et'. change (field (mk_chart _ _ _ _ _ _) "title") with (VStr (firstn 100 t')).
  destruct t; inversion Et'; reflexivity.
Qed.

Lemma importBody_valid (text : jsstring) (r : value) (w w' : world) :
  ShareLink.importBody text w = (Ok r, w') ->
  r = VNull \/ (chart_ok r /\ Share.isValid r = true).
Proof.
  unfold ShareLink.importBody. rewrite bind_lift.
  destruct (JSON.parse text) as [data|e]; [|discriminate].
  rewrite bind_lift. destruct (Share.validateState data) as [errors|e] eqn:V; [|discriminate].
  destruct errors as [|e1 es]; cbn [is_nil negb].
  2:{ intros E. inversion E. left. reflexivity. }
  intros E. right.
  destruct (validateState_title data V) as (T & t & Et & Nt).
  destruct (sanitizeState_chart_ok data r w w' E) as [(F & _)|(_ & Hok)]; [congruence|].
  split; [exact Hok|].
  rewrite (isValid_chart_ok r Hok), (sanitizeState_title data r w w' t T Et E).
  rewrite not_text_str; [reflexivity|]. destruct t; [congruence | discriminate].
Qed.

End ImportFile.

(** X1: what [importStateFromJSON] returns is [null] or a chart within the
    limits of [sanitizeState] that [validateState] accepts. *)
Theorem import_returns_valid_chart (text : jsstring) (w : world) :
  fst (ShareLink.importStateFromJSON text w) = VNull
  \/ (chart_ok (fst (ShareLink.importStateFromJSON text w))
      /\ Share.isValid (fst (ShareLink.importStateFromJSON text w)) = true).
Proof.
  unfold ShareLink.importStateFromJSON, Share.try_catch.
  destruct (ShareLink.importBody text w) as [[r|e] w'] eqn:E; [|left; reflexivity].
  exact (importBody_valid text r w w' E).
Qed.



(** X3: [validateState] accepts what [sanitizeState] returns for a truthy
    input exactly when the input has a truthy title; the title is the
    only error it can report. *)
Theorem sanitized_chart_validates (data r : value) (w w' : world) :
  truthy data = true -> Share.sanitizeState data w = (Ok r, w') ->
  Share.validateState r
  = Ok (if truthy (field data "title") then [] else [lit "Invalid or missing title"]).
Proof.
  intros T E.
  destruct (sanitizeState_chart_ok data r w w' E) as [(F & _)|(_ & Hok)]; [congruence|].
  rewrite (validateState_chart_ok r Hok).
  destruct (sanitizeState_inv data r w w' T E)
    as (t & s & xa & ya & pts & Et & _ & _ & _ & _ & ->).
  change (field (mk_chart _ _ _ _ _ _) "title") with (VStr (firstn 100 t)).
  unfold or_else in Et. destruct (truthy (field data "title")) eqn:Tt.
  - rewrite Et in Tt. destruct t; [discriminate Tt | reflexivity].
  - inversion Et; subst. reflexivity.
Qed.

Lemma sanitized_chart_validates_witness :
  truthy scenario_D = true
  /\ Share.sanitizeState scenario_D sample_world
     = (Ok scenario_D_repaired, tick_up sample_world)
  /\ Share.validateState scenario_D_repaired = Ok [].
Proof.
  assert (E : Share.sanitizeState scenario_D sample_world
              = (Ok scenario_D_repaired, tick_up sample_world))
    by (vm_compute; reflexivity).
  split; [reflexivity|]. split; [exact E|].
  exact (sanitized_chart_validates scenario_D scenario_D_repaired sample_world
           (tick_up sample_world) eq_refl E).
Defined.

(** X4: [sanitizeState] returns as many points as the input has labelled
    points, and at most 100; an input whose dataPoints is not an array
    gives none. *)
Theorem sanitizeState_point_count (data r : value) (w w' : world) :
  Share.sanitizeState data w = (Ok r, w') ->
  length (points_of r)
  = match field data "dataPoints" with
    | VArr pts => Nat.min 100 (length (filter Share.has_label pts))
    | _ => 0%nat
    end.
Proof.
  intros E. pose proof (sanitizeState_repaired data r w w' E) as H.
  apply Forall2_length in H. rewrite <- H. unfold kept_points.
  destruct (field data "dataPoints"); try reflexivity.
  apply length_firstn.
Qed.

Lemma sanitizeState_point_count_witness :
  exists r w',
    Share.sanitizeState
      (sample_chart (lit "Q4") [] (lit "X") (lit "Y")
         (sample_point [] (VNum (Fin 1 0)) (VNum (Fin 1 0))
          :: repeat (sample_point (lit "A") (VNum (Fin 8 1)) (VNum (Fin 75 0))) 101))
      sample_world = (Ok r, w')
    /\ length (points_of r) = 100%nat.
Proof.
  destruct (Share.sanitizeState _ sample_world) as [[r|e] w'] eqn:E;
    [|vm_compute in E; discriminate E].
  exists r, w'. split; [reflexivity|].
  rewrite (sanitizeState_point_count _ r sample_world w' E). reflexivity.
Defined.

(** * encodeState on its own *)

Section Encode.

Local Open Scope N_scope.

Lemma chart_points_inv (D : value) (ps : list value) :
  chart_points D = Some ps ->
  nullish D = false /\ array_of (field D "dataPoints") = Some ps
  /\ Forall (fun p => nullish p = false) ps.
Proof.
  unfold chart_points. destruct (nullish D); [discriminate|].
  destruct (array_of (field D "dataPoints")) as [qs|]; [|discriminate].
  destruct (forallb _ qs) eqn:F; [|discriminate].
  intros E. inversion E; subst. repeat split.
  apply Forall_forall. intros p Hp.
  rewrite forallb_forall in F. specialize (F p Hp).
  destruct (nullish p); [discriminate | reflexivity].
Qed.

Lemma chart_points_intro (D : value) (ps : list value) :
  nullish D = false -> array_of (field D "dataPoints") = Some ps ->
  Forall (fun p => nullish p = false) ps -> chart_points D = Some ps.
Proof.
  intros Hs Hp Hps. unfold chart_points. rewrite Hs, Hp.
  replace (forallb _ ps) with true; [reflexivity|].
  symmetry. apply forallb_forall. intros p Hin.
  rewrite Forall_forall in Hps. rewrite (Hps p Hin). reflexivity.
Qed.

Lemma encodePoint_nullish (p : value) (w : world) :
  nullish p = true -> Share.encodePoint p w = (Throw TypeError, w).
Proof.
  intros H. unfold Share.encodePoint. rewrite bind_lift, (get_nullish p "label" H).
  reflexivity.
Qed.

Lemma mapM_encode_inv (ps : list value) : forall w qs w',
  mapM Share.encodePoint ps w = (Ok qs, w') ->
  Forall (fun p => nullish p = false) ps.
Proof.
  induction ps as [|p r IH]; intros w qs w' E; [constructor|].
  cbn [mapM] in E. unfold bind at 1 in E.
  destruct (nullish p) eqn:Hp.
  - rewrite encodePoint_nullish in E by assumption. discriminate.
  - rewrite encodePoint_eq in E by assumption.
    unfold bind at 1 in E.
    destruct (mapM Share.encodePoint r w) as [[qs'|] w1] eqn:Em; [|discriminate].
    constructor; [assumption | eapply IH; eauto].
Qed.

Lemma encodeBody_inv (D v : value) (w w' : world) :
  Share.encodeBody D w = (Ok v, w') -> exists ps, chart_points D = Some ps.
Proof.
  intros E. destruct (nullish D) eqn:HD.
  { unfold Share.encodeBody in E. rewrite bind_lift, (get_nullish D "title" HD) in E.
    discriminate. }
  unfold Share.encodeBody in E.
  rewrite bind_lift, (get_ok D "title" HD) in E.
  rewrite bind_lift, (get_ok D "subtitle" HD) in E.
  rewrite bind_lift, (get_ok D "xAxisName" HD) in E.
  rewrite bind_lift, (get_ok D "yAxisName" HD) in E.
  rewrite bind_lift, (get_ok D "template" HD) in E.
  rewrite bind_lift, (get_ok D "dataPoints" HD) in E.
  unfold bind at 1 in E. rewrite map_array_eq in E.
  destruct (array_of (field D "dataPoints")) as [ps|] eqn:Hp; [|discriminate].
  destruct (mapM Share.encodePoint ps w) as [[qs|] w1] eqn:Em; [|discriminate].
  exists ps. apply chart_points_intro; auto. eapply mapM_encode_inv; eauto.
Qed.

(** what [encodeState] returns *)
Lemma encodeState_fst (D : value) (w : world) :
  fst (Share.encodeState D w)
  = match chart_points D with
    | Some pts => match token_of (text_of (state_of D pts)) with
                  | Ok tok => VStr tok
                  | Throw _ => VNull
                  end
    | None => VNull
    end.
Proof.
  unfold Share.encodeState, Share.try_catch.
  destruct (chart_points D) as [pts|] eqn:C.
  - destruct (chart_points_inv D pts C) as (HD & Hp & Hps).
    rewrite (encodeBody_eq D pts w HD Hp Hps).
    destruct (token_of _); reflexivity.
  - destruct (Share.encodeBody D w) as [[v|e] w'] eqn:E; [|reflexivity].
    destruct (encodeBody_inv D v w w' E) as [ps Hps]. congruence.
Qed.

Lemma url_safe_alpha (c : N) :
  alpha c ->
  url_safe (if c =? 47 then 95 else if c =? 43 then 45 else c) = true.
Proof.
  intros [v Hv]. unfold Base64.b64_val in Hv. unfold url_safe.
  destruct (N.eqb_spec c 47) as [->|N47]; [reflexivity|].
  destruct (N.eqb_spec c 43) as [->|N43]; [reflexivity|].
  destruct (N.leb_spec 65 c), (N.leb_spec c 90); cbn [andb orb]; try reflexivity;
    destruct (N.leb_spec 97 c), (N.leb_spec c 122); cbn [andb orb] in *; try reflexivity;
    destruct (N.leb_spec 48 c), (N.leb_spec c 57); cbn [andb orb] in *; try reflexivity;
    destruct (N.eqb_spec c 43); try contradiction;
    destruct (N.eqb_spec c 47); try contradiction; discriminate.
Qed.

Lemma urlSafe_encode (bs : list N) :
  bytes bs ->
  Share.urlSafe (Base64.encode bs)
  = Share.replace_all 47 95 (Share.replace_all 43 45 (map Base64.b64_char (sextets bs))).
Proof.
  intros Hb. pose proof (body_alpha bs Hb) as Ha.
  assert (He : Forall (fun c : N => c <> 43 /\ c <> 47) (repeat 61 (padding bs))).
  { apply Forall_forall. intros c Hc. apply repeat_spec in Hc. subst. lia. }
  unfold Share.urlSafe. rewrite encode_spec.
  rewrite !replace_all_app.
  rewrite (replace_all_same 43 45 (repeat 61 _))
    by (eapply Forall_impl; [|exact He]; simpl; tauto).
  rewrite (replace_all_same 47 95 (repeat 61 _))
    by (eapply Forall_impl; [|exact He]; simpl; tauto).
  apply strip_trailing_spec. apply url_no_eq; assumption.
Qed.

Lemma urlSafe_chars (bs : list N) :
  bytes bs -> Forall (fun c => url_safe c = true) (Share.urlSafe (Base64.encode bs)).
Proof.
  intros Hb. rewrite (urlSafe_encode bs Hb).
  pose proof (body_alpha bs Hb) as Ha.
  induction Ha as [|c s Hc Hs IH]; [constructor|].
  unfold Share.replace_all in *. cbn [map]. constructor; [|exact IH].
  pose proof (url_safe_alpha c Hc) as H.
  destruct (N.eqb_spec c 43) as [->|N43]; [reflexivity|].
  destruct (N.eqb_spec c 47) as [->|N47]; [reflexivity|].
  exact H.
Qed.

Lemma urlSafe_nonempty (bs : list N) :
  bytes bs -> bs <> [] -> Share.urlSafe (Base64.encode bs) <> [].
Proof.
  intros Hb Hn. rewrite (urlSafe_encode bs Hb).
  destruct bs as [|a [|b [|c r]]]; [congruence | | |]; discriminate.
Qed.

Lemma utf8_encode_nonempty (s bs : list N) :
  Utf8.encode s = Ok bs -> s <> [] -> bs <> [].
Proof.
  assert (K : forall (A : Type) (r : res (list A)) (f : list A -> list A) (l : list A),
             (forall x, f x <> []) -> rbind r (fun x => Ok (f x)) = Ok l -> l <> []).
  { intros A r f l Hf E. destruct r as [x|e]; cbn [rbind] in E; [|discriminate E].
    apply Ok_inj in E. rewrite <- E. apply Hf. }
  destruct s as [|c t]; [congruence|]. intros E _. cbn [Utf8.encode] in E.
  destruct (c <? 128).
  { apply (K _ _ (fun r => c :: r) _ (fun x H => nil_cons (eq_sym H)) E). }
  destruct (c <? 2048).
  { apply (K _ _ (fun r => _ :: _ :: r) _ (fun x H => nil_cons (eq_sym H)) E). }
  destruct (Utf8.is_high c).
  { destruct t as [|d t']; [discriminate E|]. destruct (Utf8.is_low d); [|discriminate E].
    apply (K _ _ (fun r => _ :: _ :: _ :: _ :: r) _ (fun x H => nil_cons (eq_sym H)) E). }
  destruct (Utf8.is_low c); [discriminate E|].
  apply (K _ _ (fun r => _ :: _ :: _ :: r) _ (fun x H => nil_cons (eq_sym H)) E).
Qed.

Lemma token_of_chars (t tok : list N) :
  token_of t = Ok tok ->
  Forall (fun c => url_safe c = true) tok /\ (t <> [] -> tok <> []).
Proof.
  unfold token_of. destruct (Utf8.encode t) as [bs|e] eqn:U; [|discriminate]. cbn [rbind].
  unfold Base64.btoa. destruct (forallb (fun c => c <? 256) bs) eqn:F; [|discriminate].
  cbn [rbind]. intros E. inversion E; subst.
  assert (Hb : bytes bs).
  { apply Forall_forall. intros c Hc. rewrite forallb_forall in F.
    apply N.ltb_lt. auto. }
  split; [apply urlSafe_chars; exact Hb|].
  intros Ht. apply urlSafe_nonempty; [exact Hb|]. eapply utf8_encode_nonempty; eauto.
Qed.

End Encode.

Section Proper.

Local Open Scope N_scope.

(** the text of every proper value is well-formed UTF-16: [stringify]
    escapes a surrogate that has no partner *)
Lemma text_good_proper (v : value) : proper v = true -> good (text_of v).
Proof.
  induction v as [| | b | n | s | xs IH | fs IH] using value_ind'; intros Hc.
  - apply good_ascii. repeat constructor.
  - apply good_ascii. repeat constructor.
  - destruct b; apply good_ascii; repeat constructor.
  - destruct n as [| sg | m e].
    + apply good_ascii. repeat constructor.
    + apply good_ascii. repeat constructor.
    + cbn [proper] in Hc. apply num_wfb_wf in Hc as (m' & e' & E & Hwf).
      inversion E; subst. apply num_text_good; assumption.
  - apply quote_good, wf_stringb_wf. exact Hc.
  - cbn [proper] in Hc. rewrite text_of_arr.
    apply good_cons_ascii; [lia|]. apply good_app; [|apply good_ascii; repeat constructor].
    apply join_good. apply forallb_Forall in Hc. clear - Hc IH.
    induction xs as [|x xs IHxs]; [constructor|].
    inversion Hc; subst. inversion IH; subst. constructor; auto.
  - cbn [proper] in Hc. unfold text_of. cbn [JSON.text].
    apply good_cons_ascii; [lia|]. apply good_app; [|apply good_ascii; repeat constructor].
    apply join_good. apply forallb_Forall in Hc. clear - Hc IH.
    induction fs as [|kv fs IHfs]; [constructor|].
    inversion Hc as [|? ? Hkv Hr]; subst. inversion IH as [|? ? Hv Hvs]; subst.
    apply andb_prop in Hkv as [Hk Hkv].
    cbn [flat_map]. apply Forall_app. split; [|auto].
    specialize (Hv Hkv). unfold text_of in Hv.
    destruct (JSON.text (snd kv)) as [t|]; [|constructor].
    constructor; [|constructor].
    apply good_app; [apply quote_good, wf_stringb_wf; exact Hk|].
    apply good_cons_ascii; [lia | exact Hv].
Qed.

Lemma proper_field (o : value) (k : string) : proper o = true -> proper (field o k) = true.
Proof.
  destruct o; try reflexivity. intros H. cbn [proper] in H.
  unfold field, get. induction fs as [|[k' v] fs IH]; [reflexivity|].
  cbn [forallb fst snd] in H. apply andb_prop in H as [H1 H2].
  apply andb_prop in H1 as [_ Hv].
  cbn [lookup]. destruct (str_eqb (lit k) k'); [exact Hv | exact (IH H2)].
Qed.

Lemma proper_or_else (a b : value) :
  proper a = true -> proper b = true -> proper (or_else a b) = true.
Proof. intros Ha Hb. unfold or_else. destruct (truthy a); assumption. Qed.

Lemma proper_array_of (v : value) (ps : list value) :
  proper v = true -> array_of v = Some ps -> forallb proper ps = true.
Proof.
  unfold array_of, or_else. destruct (truthy v).
  - destruct v; try discriminate. intros H E. inversion E; subst. exact H.
  - intros _ E. inversion E. reflexivity.
Qed.

Lemma proper_state_of (D : value) (pts : list value) :
  proper D = true -> array_of (field D "dataPoints") = Some pts ->
  proper (state_of D pts) = true.
Proof.
  intros H Hp. pose proof (proper_array_of _ _ (proper_field D "dataPoints" H) Hp) as Hps.
  unfold state_of. cbn [proper forallb fst snd].
  rewrite !proper_or_else by (auto using proper_field).
  replace (wf_stringb (lit "v")) with true by reflexivity.
  replace (wf_stringb (lit "t")) with true by reflexivity.
  replace (wf_stringb (lit "s")) with true by reflexivity.
  replace (wf_stringb (lit "x")) with true by reflexivity.
  replace (wf_stringb (lit "y")) with true by reflexivity.
  replace (wf_stringb (lit "tm")) with true by reflexivity.
  replace (wf_stringb (lit "p")) with true by reflexivity.
  replace (forallb proper (map strip_point pts)) with true; [reflexivity|].
  symmetry. apply forallb_forall. intros q Hq. apply in_map_iff in Hq as (p & <- & Hin).
  rewrite forallb_forall in Hps. specialize (Hps p Hin).
  unfold strip_point. cbn [proper forallb fst snd].
  rewrite !proper_field by assumption. reflexivity.
Qed.

End Proper.

(** X5: whatever the data, a token that [encodeState] returns is made of
    letters, digits, [-] and [_] only, and is not empty. *)
Theorem encodeState_token_alphabet (D : value) (w w' : world) (tok : jsstring) :
  Share.encodeState D w = (VStr tok, w') ->
  tok <> [] /\ Forall (fun c => url_safe c = true) tok.
Proof.
  intros E. pose proof (encodeState_fst D w) as F. rewrite E in F. cbn [fst] in F.
  destruct (chart_points D) as [pts|]; [|discriminate].
  destruct (token_of (text_of (state_of D pts))) as [t|e] eqn:T; [|discriminate].
  inversion F; subst t. destruct (token_of_chars _ _ T) as [Hc Hn].
  split; [|exact Hc]. apply Hn. discriminate.
Qed.

Lemma encodeState_token_alphabet_witness :
  Share.encodeState chart_Q4 sample_world = (VStr token_v1, sample_world)
  /\ token_v1 <> [] /\ Forall (fun c => url_safe c = true) token_v1.
Proof.
  assert (E : Share.encodeState chart_Q4 sample_world = (VStr token_v1, sample_world))
    by (vm_compute; reflexivity).
  split; [exact E|].
  exact (encodeState_token_alphabet chart_Q4 sample_world sample_world token_v1 E).
Defined.

(** X6: for data that holds JavaScript values, [encodeState] returns
    [null] only for a broken shape: the data is [null] or [undefined],
    its dataPoints is truthy and not an array, or a point is [null] or
    [undefined].  No text and no number makes it fail. *)
Theorem encodeState_fails_on_shape_only (D : value) (w : world) :
  proper D = true ->
  (fst (Share.encodeState D w) = VNull <-> chart_points D = None)
  /\ (chart_points D <> None -> exists tok, fst (Share.encodeState D w) = VStr tok).
Proof.
  intros H. rewrite encodeState_fst.
  destruct (chart_points D) as [pts|] eqn:C.
  - destruct (chart_points_inv D pts C) as (_ & Hp & _).
    pose proof (text_good_proper _ (proper_state_of D pts H Hp)) as G.
    destruct (token_round _ G) as (tok & -> & _).
    split; [split; discriminate|]. intros _. exists tok. reflexivity.
  - split; [split; reflexivity|]. intros N. contradiction N. reflexivity.
Qed.

Lemma encodeState_fails_on_shape_only_witness :
  proper unbounded_chart = true
  /\ (fst (Share.encodeState unbounded_chart sample_world) = VNull
      <-> chart_points unbounded_chart = None)
  /\ (chart_points unbounded_chart <> None ->
      exists tok, fst (Share.encodeState unbounded_chart sample_world) = VStr tok).
Proof.
  split; [reflexivity|].
  exact (encodeState_fails_on_shape_only unbounded_chart sample_world eq_refl).
Defined.

Section Content.

Lemma chart_points_points_of (D : value) (pts : list value) :
  chart_points D = Some pts -> points_of D = pts.
Proof.
  intros C. destruct (chart_points_inv D pts C) as (_ & Hp & _).
  unfold points_of. unfold array_of, or_else in Hp.
  destruct (truthy (field D "dataPoints")) eqn:T.
  - destruct (field D "dataPoints"); try discriminate Hp. inversion Hp. reflexivity.
  - inversion Hp. destruct (field D "dataPoints"); try reflexivity. discriminate T.
Qed.

Lemma same_point_strip (pts pts' : list value) :
  Forall2 same_point pts pts' -> map strip_point pts' = map strip_point pts.
Proof.
  induction 1 as [|p q l l' (Hl & Hx & Hy) _ IH]; [reflexivity|].
  cbn [map]. rewrite IH. unfold strip_point. rewrite Hl, Hx, Hy. reflexivity.
Qed.

End Content.

(** X7: the token depends on the five texts and on the label, x and y of
    each point only: two charts with the same content, whatever their
    point identifiers and other fields, get the same token. *)
Theorem encodeState_ignores_ids (D D' : value) (w : world) :
  chart_points D <> None -> chart_points D' <> None ->
  same_content D D' ->
  Share.encodeState D' w = Share.encodeState D w.
Proof.
  intros C C' (Ht & Hs & Hx & Hy & Htm & Hp).
  destruct (chart_points D) as [pts|] eqn:E; [|contradiction C; reflexivity].
  destruct (chart_points D') as [pts'|] eqn:E'; [|contradiction C'; reflexivity].
  rewrite (chart_points_points_of D pts E), (chart_points_points_of D' pts' E') in Hp.
  destruct (chart_points_inv D pts E) as (HD & Ha & Hn).
  destruct (chart_points_inv D' pts' E') as (HD' & Ha' & Hn').
  unfold Share.encodeState, Share.try_catch.
  rewrite (encodeBody_eq D pts w HD Ha Hn), (encodeBody_eq D' pts' w HD' Ha' Hn').
  replace (state_of D' pts') with (state_of D pts); [reflexivity|].
  unfold state_of. rewrite Ht, Hs, Hx, Hy, Htm, (same_point_strip pts pts' Hp).
  reflexivity.
Qed.

Lemma encodeState_ignores_ids_witness :
  chart_points chart_Q4 <> None /\ chart_points chart_with_id <> None
  /\ same_content chart_Q4 chart_with_id
  /\ Share.encodeState chart_with_id sample_world
     = Share.encodeState chart_Q4 sample_world.
Proof.
  assert (C : chart_points chart_Q4 <> None) by (intros H; vm_compute in H; discriminate H).
  assert (C' : chart_points chart_with_id <> None)
    by (intros H; vm_compute in H; discriminate H).
  assert (S : same_content chart_Q4 chart_with_id).
  { repeat split. repeat constructor. }
  split; [exact C|]. split; [exact C'|]. split; [exact S|].
  exact (encodeState_ignores_ids chart_Q4 chart_with_id sample_world C C' S).
Defined.

Section Lossless.

Lemma text_value_inv (v : value) :
  text_value v = true -> exists s, v = VStr s /\ wf_stringb s = true.
Proof. destruct v; try discriminate. intros H. eauto. Qed.

Lemma finite_value_inv (v : value) :
  finite_value v = true -> exists n, v = VNum n /\ num_wfb n = true.
Proof. destruct v; try discriminate. intros H. eauto. Qed.

Lemma portable_point_inv (p : value) :
  truthy p && text_value (field p "label") && finite_value (field p "x")
  && finite_value (field p "y") = true ->
  nullish p = false /\ clean (strip_point p) = true
  /\ forall w n, same_point p (mk_point (field (strip_point p) "l")
                                 (field (strip_point p) "x")
                                 (field (strip_point p) "y") (VStr (point_id w n))).
Proof.
  intros H. apply andb_prop in H as [H Hy]. apply andb_prop in H as [H Hx].
  apply andb_prop in H as [Ht Hl].
  apply text_value_inv in Hl as (l & El & Wl).
  apply finite_value_inv in Hx as (x & Ex & Wx).
  apply finite_value_inv in Hy as (y & Ey & Wy).
  split; [apply truthy_not_nullish; exact Ht|]. split.
  - unfold strip_point. rewrite El, Ex, Ey. cbn [clean forallb fst snd map].
    rewrite Wl, Wx, Wy. reflexivity.
  - intros w n. unfold same_point. repeat split.
Qed.

Lemma decoded_points_same (w : world) (pts : list value) : forall n,
  Forall (fun p => truthy p && text_value (field p "label") && finite_value (field p "x")
                   && finite_value (field p "y") = true) pts ->
  Forall2 same_point pts (decoded_points w n (map strip_point pts)).
Proof.
  induction pts as [|p r IH]; intros n H; [constructor|].
  inversion H as [|? ? Hp Hr]; subst.
  cbn [map decoded_points]. constructor; [|apply IH; exact Hr].
  apply (portable_point_inv p Hp).
Qed.

End Lossless.

(** X8: a chart whose texts are strings of any length, whose template
    is a non-empty string and whose points have string labels and finite
    coordinates is encoded, and [decodeState] reads the token back to a
    chart with the same texts and template and the same labels, x and y
    in the same order: the codec alone cuts, drops and clamps nothing. *)
Theorem token_carries_chart (D : value) (w : world) :
  portable D = true ->
  exists tok R w',
    Share.encodeState D w = (VStr tok, w)
    /\ Share.decodeState (VStr tok) w = (R, w')
    /\ same_content D R.
Proof.
  unfold portable. intros H.
  apply andb_prop in H as [H Hp]. apply andb_prop in H as [H Ttm].
  apply andb_prop in H as [H Htm].
  apply andb_prop in H as [H Hya]. apply andb_prop in H as [H Hxa].
  apply andb_prop in H as [H Hs]. apply andb_prop in H as [HD Ht].
  apply text_value_inv in Ht as (t & Et & Wt).
  apply text_value_inv in Hs as (s & Es & Ws).
  apply text_value_inv in Hxa as (xa & Exa & Wxa).
  apply text_value_inv in Hya as (ya & Eya & Wya).
  apply text_value_inv in Htm as (tm & Etm & Wtm).
  destruct (field D "dataPoints") as [| | | | |pts|] eqn:Edp; try discriminate.
  apply forallb_Forall in Hp.
  pose proof (truthy_not_nullish D HD) as ND.
  assert (Harr : array_of (field D "dataPoints") = Some pts) by (rewrite Edp; reflexivity).
  assert (Hnn : Forall (fun p => nullish p = false) pts).
  { eapply Forall_impl; [|exact Hp]. intros p Hv. apply (portable_point_inv p Hv). }
  set (st := state_of D pts).
  assert (Est : st = VObj [(lit "v", VNum (Fin 1 0)); (lit "t", VStr t); (lit "s", VStr s);
                           (lit "x", VStr xa); (lit "y", VStr ya); (lit "tm", VStr tm);
                           (lit "p", VArr (map strip_point pts))]).
  { unfold st, state_of. rewrite Et, Es, Exa, Eya, !or_else_str by exact [].
    rewrite (or_else_truthy (field D "template")) by exact Ttm. rewrite Etm.
    reflexivity. }
  assert (Hclean : clean st = true).
  { rewrite Est. cbn [clean forallb fst snd map]. rewrite Wt, Ws, Wxa, Wya, Wtm.
    cbn [andb wf_stringb forallb lit list_ascii_of_string N_of_ascii].
    replace (forallb clean (map strip_point pts)) with true; [reflexivity|].
    symmetry. apply forallb_forall. intros q Hq. apply in_map_iff in Hq as (p & <- & Hin).
    rewrite Forall_forall in Hp. apply (portable_point_inv p (Hp p Hin)). }
  destruct (token_round (text_of st) (text_good st Hclean)) as (tok & Etok & Edec).
  rewrite (parse_text st Hclean) in Edec.
  assert (Hps : Forall (fun p => nullish p = false) (map strip_point pts)).
  { apply Forall_forall. intros q Hq. apply in_map_iff in Hq as (p & <- & _). reflexivity. }
  assert (Hsp : array_of (field st "p") = Some (map strip_point pts))
    by (rewrite Est; reflexivity).
  assert (Hw : warned st w = w) by (rewrite Est; reflexivity).
  exists tok, (chart_of st (map strip_point pts) w), (ticks (length (map strip_point pts)) w).
  split; [|split].
  - unfold Share.encodeState, Share.try_catch.
    rewrite (encodeBody_eq D pts w ND Harr Hnn). fold st. rewrite Etok. reflexivity.
  - unfold Share.decodeState, Share.try_catch, Share.decodeBody.
    replace (truthy (VStr tok)) with true.
    2:{ destruct tok; [rewrite decodeJSON_nil in Edec; discriminate | reflexivity]. }
    cbn [negb]. rewrite bind_lift, Edec.
    rewrite (decodeRecord_eq st _ w) by (auto; rewrite Est; reflexivity).
    rewrite Hw. reflexivity.
  - unfold same_content, chart_of, points_of. rewrite Est, Edp, Et, Es, Exa, Eya.
    change (field (VObj _) "t") with (VStr t). change (field (VObj _) "s") with (VStr s).
    change (field (VObj _) "x") with (VStr xa). change (field (VObj _) "y") with (VStr ya).
    change (field (VObj _) "tm") with (VStr tm).
    rewrite !or_else_str by exact [].
    rewrite (or_else_truthy (VStr tm)) by (rewrite <- Etm; exact Ttm).
    rewrite Etm. repeat split.
    change (field (mk_chart _ _ _ _ _ ?d) "dataPoints") with d.
    apply decoded_points_same. exact Hp.
Qed.

Lemma token_carries_chart_witness :
  portable unbounded_chart = true
  /\ exists tok R w',
       Share.encodeState unbounded_chart sample_world = (VStr tok, sample_world)
       /\ Share.decodeState (VStr tok) sample_world = (R, w')
       /\ same_content unbounded_chart R.
Proof.
  split; [reflexivity|].
  exact (token_carries_chart unbounded_chart sample_world eq_refl).
Defined.

(** * The application state *)

Section Objects.

Lemma lookup_obj_set_same (k : jsstring) (v : value) (fs : list (jsstring * value)) :
  lookup k (JSON.obj_set k v fs) = Some v.
Proof.
  induction fs as [|[k' v'] fs IH]; cbn [JSON.obj_set lookup].
  - rewrite str_eqb_refl. reflexivity.
  - destruct (str_eqb k k') eqn:E; cbn [lookup].
    + rewrite str_eqb_refl. reflexivity.
    + rewrite E. exact IH.
Qed.

Lemma lookup_obj_set_other (k k' : jsstring) (v : value) (fs : list (jsstring * value)) :
  str_eqb k' k = false -> lookup k' (JSON.obj_set k v fs) = lookup k' fs.
Proof.
  intros N. induction fs as [|[k0 v0] fs IH]; cbn [JSON.obj_set lookup].
  - rewrite N. reflexivity.
  - destruct (str_eqb k k0) eqn:E; cbn [lookup].
    + apply str_eqb_eq in E. subst k0. rewrite N. reflexivity.
    + destruct (str_eqb k' k0); [reflexivity | exact IH].
Qed.

Lemma prop_assign_same (state : App.obj) (k : string) (v : value) :
  App.prop (App.assign state k v) k = v.
Proof. unfold App.prop, App.assign. rewrite lookup_obj_set_same. reflexivity. Qed.

Lemma prop_assign_other (state : App.obj) (k k' : string) (v : value) :
  str_eqb (lit k') (lit k) = false ->
  App.prop (App.assign state k v) k' = App.prop state k'.
Proof.
  intros N. unfold App.prop, App.assign. rewrite lookup_obj_set_other by exact N.
  reflexivity.
Qed.

Lemma field_obj_set_same (k : string) (v : value) (fs : list (jsstring * value)) :
  field (VObj (JSON.obj_set (lit k) v fs)) k = v.
Proof. unfold field, get. rewrite lookup_obj_set_same. reflexivity. Qed.

Lemma field_obj_set_other (k : jsstring) (k' : string) (v : value)
    (fs : list (jsstring * value)) :
  str_eqb (lit k') k = false ->
  field (VObj (JSON.obj_set k v fs)) k' = field (VObj fs) k'.
Proof. intros N. unfold field, get. rewrite lookup_obj_set_other by exact N. reflexivity. Qed.

Lemma forallb_update {A} (f : A -> bool) (l : list A) : forall i x,
  forallb f l = true -> f x = true -> forallb f (Templates.update l i x) = true.
Proof.
  induction l as [|a l IH]; intros i x Hl Hx; [reflexivity|].
  cbn [forallb] in Hl. apply andb_prop in Hl as [Ha Hl].
  destruct i; cbn [Templates.update forallb].
  - rewrite Hx, Hl. reflexivity.
  - rewrite Ha, (IH i x Hl Hx). reflexivity.
Qed.

Lemma forallb_nth_error {A} (f : A -> bool) (l : list A) (i : nat) (x : A) :
  forallb f l = true -> nth_error l i = Some x -> f x = true.
Proof.
  intros H E. apply nth_error_In in E. rewrite forallb_forall in H. auto.
Qed.

End Objects.

Section Operations.

Lemma point_inv_obj (p : value) : point_inv p = true -> nullish p = false.
Proof. destruct p; try discriminate; reflexivity. Qed.

Lemma findIndex_spec (id : jsstring) (pts : list value) : forall oi,
  App.findIndex id pts = Ok oi ->
  match oi with
  | Some i => (i < length pts)%nat /\ App.splice1 i pts = remove_first id pts
              /\ exists p, nth_error pts i = Some p /\ App.id_is id (field p "id") = true
  | None => remove_first id pts = pts
  end.
Proof.
  induction pts as [|p r IH]; intros oi E.
  - inversion E. reflexivity.
  - cbn [App.findIndex] in E. unfold field.
    destruct (get p "id") as [pid|e] eqn:G; [|discriminate]. cbn [rbind] in E.
    cbn [remove_first]. unfold field. rewrite G.
    destruct (App.id_is id pid) eqn:I.
    + inversion E; subst. split; [simpl; lia|]. split; [reflexivity|].
      exists p. split; [reflexivity|]. rewrite G. exact I.
    + destruct (App.findIndex id r) as [oi'|e] eqn:F; [|discriminate].
      cbn [rbind] in E. inversion E; subst. specialize (IH oi' eq_refl).
      destruct oi' as [i|]; cbn [option_map].
      * destruct IH as (Hi & Hs & q & Hq & Iq). split; [simpl; lia|]. split.
        -- unfold App.splice1 in *. cbn [firstn skipn app]. rewrite <- Hs. reflexivity.
        -- exists q. split; [exact Hq|]. exact Iq.
      * unfold field in IH. rewrite IH. reflexivity.
Qed.

Lemma findIndex_returns (id : jsstring) (pts : list value) :
  Forall (fun p => nullish p = false) pts -> exists oi, App.findIndex id pts = Ok oi.
Proof.
  induction 1 as [|p r Hp Hr [oi IH]]; [exists None; reflexivity|].
  cbn [App.findIndex]. rewrite (get_ok p "id" Hp). cbn [rbind].
  destruct (App.id_is id (field p "id")); [eexists; reflexivity|].
  rewrite IH. cbn [rbind]. eexists. reflexivity.
Qed.

Lemma forallb_nonnull (pts : list value) :
  forallb point_inv pts = true -> Forall (fun p => nullish p = false) pts.
Proof.
  intros H. apply Forall_forall. intros p Hp. rewrite forallb_forall in H.
  apply point_inv_obj. auto.
Qed.

Lemma in_firstn {A} (x : A) (l : list A) : forall i, In x (firstn i l) -> In x l.
Proof.
  induction l as [|a l IH]; intros [|i] H; try contradiction.
  destruct H as [->|H]; [left; reflexivity | right; eauto].
Qed.

Lemma in_skipn {A} (x : A) (l : list A) : forall i, In x (skipn i l) -> In x l.
Proof.
  induction l as [|a l IH]; intros [|i] H; try contradiction; try exact H.
  right. eauto.
Qed.

Lemma forallb_splice1 {A} (f : A -> bool) (i : nat) (l : list A) :
  forallb f l = true -> forallb f (firstn i l ++ skipn (S i) l) = true.
Proof.
  intros H. rewrite forallb_forall in H. apply forallb_forall. intros x Hx.
  apply H. apply in_app_or in Hx as [Hx|Hx].
  - eapply in_firstn; eauto.
  - eapply in_skipn; eauto.
Qed.

Lemma state_inv_assign_points (state : App.obj) (pts : list value) :
  forallb point_inv pts = true ->
  state_inv (App.assign state "dataPoints" (VArr pts)) = true.
Proof. intros H. unfold state_inv. rewrite prop_assign_same. exact H. Qed.

Lemma state_inv_assign_other (state : App.obj) (k : string) (v : value) :
  str_eqb (lit "dataPoints") (lit k) = false ->
  state_inv (App.assign state k v) = state_inv state.
Proof. intros N. unfold state_inv. rewrite prop_assign_other by exact N. reflexivity. Qed.

Lemma state_inv_points (state : App.obj) :
  state_inv state = true ->
  exists pts, App.prop state "dataPoints" = VArr pts /\ forallb point_inv pts = true.
Proof.
  unfold state_inv. destruct (App.prop state "dataPoints"); try discriminate. eauto.
Qed.

Lemma addDataPoint_inv (label x y : value) (state : App.obj) (w : world) :
  state_inv state = true ->
  coord_in_range (App.default_to (VNum (Fin 5 1)) x) = true ->
  coord_in_range (App.default_to (VNum (Fin 5 1)) y) = true ->
  exists state', App.addDataPoint label x y state w = (Ok state', tick_up w)
                 /\ state_inv state' = true.
Proof.
  intros H Hx Hy. destruct (state_inv_points state H) as (pts & Ep & Hp).
  unfold App.addDataPoint, bind, fresh_id. rewrite Ep. unfold ret.
  eexists. split; [reflexivity|].
  apply state_inv_assign_points. rewrite forallb_app, Hp. cbn [forallb andb point_inv].
  change (field (VObj _) "id") with (VStr (point_id w (tick w))).
  change (field (VObj _) "x") with (App.default_to (VNum (Fin 5 1)) x).
  change (field (VObj _) "y") with (App.default_to (VNum (Fin 5 1)) y).
  rewrite Hx, Hy. reflexivity.
Qed.

Lemma removeDataPoint_inv (id : jsstring) (state : App.obj) :
  state_inv state = true ->
  exists state', App.removeDataPoint id state = Ok state' /\ state_inv state' = true.
Proof.
  intros H. destruct (state_inv_points state H) as (pts & Ep & Hp).
  unfold App.removeDataPoint. rewrite Ep.
  destruct (findIndex_returns id pts (forallb_nonnull pts Hp)) as [oi ->]. cbn [rbind].
  destruct oi as [i|]; eexists; (split; [reflexivity|]); [|exact H].
  apply state_inv_assign_points. apply forallb_splice1. exact Hp.
Qed.

Lemma set_point_inv (i : nat) (k : jsstring) (v : value) (pts : list value) :
  forallb point_inv pts = true ->
  (str_eqb (lit "id") k = false) ->
  (str_eqb (lit "x") k = true -> coord_in_range v = true) ->
  (str_eqb (lit "y") k = true -> coord_in_range v = true) ->
  forallb point_inv (App.set_point i k v pts) = true.
Proof.
  intros H Nid Hx Hy. unfold App.set_point.
  destruct (nth_error pts i) as [[| | | | | |fs]|] eqn:E; try exact H.
  apply forallb_update; [exact H|].
  pose proof (forallb_nth_error _ _ _ _ H E) as Hp.
  cbn [point_inv] in *.
  rewrite (field_obj_set_other k "id") by exact Nid.
  apply andb_prop in Hp as [Hp Py]. apply andb_prop in Hp as [Pid Px].
  rewrite Pid. cbn [andb].
  assert (Fx : coord_in_range (field (VObj (JSON.obj_set k v fs)) "x") = true).
  { destruct (str_eqb (lit "x") k) eqn:Ex.
    - pose proof (proj1 (str_eqb_eq _ _) Ex) as <-. unfold field, get.
      rewrite lookup_obj_set_same. apply Hx. reflexivity.
    - rewrite (field_obj_set_other k "x") by exact Ex. exact Px. }
  assert (Fy : coord_in_range (field (VObj (JSON.obj_set k v fs)) "y") = true).
  { destruct (str_eqb (lit "y") k) eqn:Ey.
    - pose proof (proj1 (str_eqb_eq _ _) Ey) as <-. unfold field, get.
      rewrite lookup_obj_set_same. apply Hy. reflexivity.
    - rewrite (field_obj_set_other k "y") by exact Ey. exact Py. }
  rewrite Fx, Fy. reflexivity.
Qed.

(** the check [updateDataPoint] makes on a parsed number is the range
    test *)
Lemma isValidNumber_in_range (n : number) :
  num_wf n -> Utils.isValidNumber (VNum n) (Fin 0 0) (Fin 1 2) = Ok (in_range n).
Proof.
  intros Hwf. unfold Utils.isValidNumber, parseFloat. cbn [toStr rbind].
  destruct n as [| sg | m e].
  - vm_compute. reflexivity.
  - destruct sg; vm_compute; reflexivity.
  - rewrite (parseFloat_str_num m e Hwf). reflexivity.
Qed.

Lemma updateDataPoint_eq (id field : jsstring) (s : jsstring) (state : App.obj)
    (pts : list value) :
  App.prop state "dataPoints" = VArr pts ->
  Forall (fun p => nullish p = false) pts ->
  exists oi,
    App.findIndex id pts = Ok oi
    /\ App.updateDataPoint id field (VStr s) state
       = Ok (match oi with
             | None => state
             | Some i =>
                 if str_eqb field (lit "label")
                 then App.assign state "dataPoints"
                        (VArr (App.set_point i field (VStr s) pts))
                 else if (str_eqb field (lit "x") || str_eqb field (lit "y"))
                         && in_range (parseFloat_str s)
                 then App.assign state "dataPoints"
                        (VArr (App.set_point i field (VNum (parseFloat_str s)) pts))
                 else state
             end).
Proof.
  intros Ep Hn. destruct (findIndex_returns id pts Hn) as [oi F]. exists oi.
  split; [exact F|]. unfold App.updateDataPoint. rewrite Ep, F. cbn [rbind].
  destruct oi as [i|]; [|reflexivity].
  destruct (str_eqb field (lit "label")); [reflexivity|].
  destruct (str_eqb field (lit "x") || str_eqb field (lit "y")); [|reflexivity].
  unfold parseFloat. cbn [toStr rbind andb].
  rewrite (isValidNumber_in_range _ (parseFloat_str_wf s)). cbn [rbind].
  destruct (in_range (parseFloat_str s)); reflexivity.
Qed.

Lemma updateDataPoint_inv (id field s : jsstring) (state : App.obj) :
  state_inv state = true ->
  exists state', App.updateDataPoint id field (VStr s) state = Ok state'
                 /\ state_inv state' = true.
Proof.
  intros H. destruct (state_inv_points state H) as (pts & Ep & Hp).
  destruct (updateDataPoint_eq id field s state pts Ep (forallb_nonnull pts Hp))
    as (oi & _ & ->).
  eexists. split; [reflexivity|].
  destruct oi as [i|]; [|exact H].
  destruct (str_eqb field (lit "label")) eqn:El.
  { apply str_eqb_eq in El. subst field.
    apply state_inv_assign_points. apply set_point_inv; auto; discriminate. }
  destruct (str_eqb field (lit "x") || str_eqb field (lit "y")) eqn:Exy; [|exact H].
  cbn [andb]. destruct (in_range (parseFloat_str s)) eqn:R; [|exact H].
  apply state_inv_assign_points. apply set_point_inv; auto.
  apply orb_prop in Exy as [E|E]; apply str_eqb_eq in E; subst field; reflexivity.
Qed.

End Operations.

Section Loading.

Lemma decoded_points_str_ids (w : world) (ps : list value) : forall n,
  Forall (fun p => is_str (field p "id") = true) (decoded_points w n ps).
Proof. induction ps as [|p r IH]; intros n; constructor; [reflexivity | apply IH]. Qed.

Lemma Forall_filter_firstn {A} (P : A -> Prop) (f : A -> bool) (n : nat) (l : list A) :
  Forall P l -> Forall P (firstn n (filter f l)).
Proof.
  intros H. apply Forall_forall. intros x Hx. apply in_firstn in Hx.
  apply filter_In in Hx as [Hx _]. rewrite Forall_forall in H. auto.
Qed.

Lemma repaired_point_inv (w w' : world) (p q : value) :
  is_str (field p "id") = true -> point_ok q -> repaired w w' p q -> point_inv q = true.
Proof.
  intros Hp (l & x & y & id & -> & _ & _ & Cx & Cy & _) (_ & _ & _ & _ & _ & _ & _ & _ & _ & _ & _ & Hid).
  cbn [point_inv].
  change (field (VObj _) "x") with (VNum x). change (field (VObj _) "y") with (VNum y).
  cbn [coord_in_range]. rewrite (clamped_in_range x Cx), (clamped_in_range y Cy).
  destruct Hid as [(_ & ->)|(_ & n & _ & ->)]; [rewrite Hp|]; reflexivity.
Qed.

Lemma repaired_points_inv (w w' : world) (ps qs : list value) :
  Forall2 (repaired w w') ps qs ->
  Forall (fun p => is_str (field p "id") = true) ps -> Forall point_ok qs ->
  forallb point_inv qs = true.
Proof.
  induction 1 as [|p q ps qs Hpq _ IH]; intros Hp Hq; [reflexivity|].
  inversion Hp; subst. inversion Hq; subst. cbn [forallb].
  rewrite (repaired_point_inv w w' p q), IH; auto.
Qed.

(** the chart [sanitizeState] makes of a decoded chart has points the
    state may hold *)
Lemma sanitized_link_points (st : value) (ps : list value) (w0 w w' : world) (r : value) :
  Share.sanitizeState (chart_of st ps w0) w = (Ok r, w') ->
  exists t s xa ya tm pts,
    r = VObj [(lit "title", VStr t); (lit "subtitle", VStr s);
              (lit "xAxisName", VStr xa); (lit "yAxisName", VStr ya);
              (lit "template", tm); (lit "dataPoints", VArr pts)]
    /\ forallb point_inv pts = true.
Proof.
  intros E. pose proof (sanitizeState_repaired _ r w w' E) as R.
  destruct (sanitizeState_chart_ok _ r w w' E) as [(F & _)|(_ & Hok)]; [discriminate F|].
  destruct Hok as (t & s & xa & ya & tm & pts & -> & _ & _ & _ & _ & _ & _ & _ & _ & Hp).
  exists t, s, xa, ya, tm, pts. split; [reflexivity|].
  change (points_of (VObj _)) with pts in R.
  apply (repaired_points_inv w w' _ pts R); [|exact Hp].
  unfold kept_points. change (field (chart_of st ps w0) "dataPoints")
    with (VArr (decoded_points w0 (tick w0) ps)).
  apply Forall_filter_firstn. apply decoded_points_str_ids.
Qed.

Lemma loadStateFromURL_data (h : jsstring) (w w1 : world) (data : value) :
  ShareLink.loadStateFromURL h w = (data, w1) -> truthy data = true ->
  exists st ps, data = chart_of st ps w.
Proof.
  unfold ShareLink.loadStateFromURL. destruct (is_nil (skipn 1 h)).
  { intros E T. inversion E; subst. discriminate T. }
  pose proof (decodeState_fst (skipn 1 h) w) as F.
  destruct (Share.decodeState (VStr (skipn 1 h)) w) as [d w2]. cbn [fst] in F.
  destruct (truthy d) eqn:Td; intros E T; inversion E; subst; [|discriminate T].
  destruct (Share.decodeJSON (skipn 1 h)) as [st|e]; [|discriminate Td].
  destruct (record_points st) as [ps|]; [|discriminate Td].
  eauto.
Qed.

Lemma loadState_link (st : value) (ps : list value) (w0 w : world) (state : App.obj) :
  state_inv state = true ->
  state_inv (fst (App.settle state (App.loadState (chart_of st ps w0) state w))) = true.
Proof.
  intros H. unfold App.loadState. change (truthy (chart_of st ps w0)) with true.
  cbn [negb]. unfold bind.
  destruct (Share.sanitizeState (chart_of st ps w0) w) as [[r|e] w'] eqn:E; [|exact H].
  destruct (sanitized_link_points st ps w0 w w' r E)
    as (t & s & xa & ya & tm & pts & -> & Hp).
  unfold ret, App.settle. cbn [fst]. unfold App.object_assign. cbn [fold_left fst snd].
  unfold state_inv, App.prop. rewrite lookup_obj_set_same. exact Hp.
Qed.

End Loading.

Section Reach.

Lemma settle_inv (state : App.obj) (r : res App.obj * world) :
  state_inv state = true ->
  (forall s w, r = (Ok s, w) -> state_inv s = true) ->
  state_inv (fst (App.settle state r)) = true.
Proof.
  intros H Hr. destruct r as [[s|e] w]; [|exact H]. cbn. eapply Hr. reflexivity.
Qed.

Lemma handle_inv (ev : App.event) (state : App.obj) (w : world) :
  state_inv state = true -> state_inv (fst (App.handle ev state w)) = true.
Proof.
  intros H. destruct ev as [|id|id field value|f|name|h]; cbn [App.handle].
  - destruct (addDataPoint_inv VUndefined VUndefined VUndefined state w H eq_refl eq_refl)
      as (s & -> & Hs). exact Hs.
  - destruct (removeDataPoint_inv id state H) as (s & -> & Hs). exact Hs.
  - destruct (updateDataPoint_inv id field value state H) as (s & -> & Hs). exact Hs.
  - cbn [fst]. unfold App.updateStateFromForm, App.assign_input.
    destruct (App.templateSelect f), (App.yAxisName f), (App.xAxisName f),
      (App.matrixSubtitle f), (App.matrixTitle f);
      rewrite ?state_inv_assign_other by reflexivity; exact H.
  - cbn [fst]. rewrite state_inv_assign_other by reflexivity. exact H.
  - destruct (ShareLink.loadStateFromURL h w) as [data w1] eqn:L.
    destruct (truthy data) eqn:T; [|exact H].
    destruct (loadStateFromURL_data h w w1 data L T) as (st & ps & ->).
    apply loadState_link. exact H.
Qed.

Lemma initial_inv : state_inv App.initial = true.
Proof. reflexivity. Qed.

Lemma addDefaultDataPoints_inv (w : world) :
  exists s w', App.addDefaultDataPoints App.initial w = (Ok s, w') /\ state_inv s = true.
Proof.
  unfold App.addDefaultDataPoints.
  set (s3 := App.assign _ "yAxisName" _).
  assert (H3 : state_inv s3 = true) by reflexivity.
  unfold bind.
  destruct (addDataPoint_inv (VStr (lit "Feature A")) (VNum (Fin 8 1)) (VNum (Fin 75 0))
              s3 w H3 eq_refl eq_refl) as (s4 & -> & H4).
  destruct (addDataPoint_inv (VStr (lit "Feature B")) (VNum (Fin 4 1)) (VNum (Fin 85 0))
              s4 (tick_up w) H4 eq_refl eq_refl) as (s5 & -> & H5).
  destruct (addDataPoint_inv (VStr (lit "Feature C")) (VNum (Fin 7 1)) (VNum (Fin 3 1))
              s5 (tick_up (tick_up w)) H5 eq_refl eq_refl) as (s6 & -> & H6).
  eauto.
Qed.

Lemma startup_inv (svg canvas : bool) (h : jsstring) (w : world) :
  state_inv (fst (App.startup svg canvas h w)) = true.
Proof.
  unfold App.startup. destruct (negb svg || negb canvas); [exact initial_inv|].
  destruct (ShareLink.loadStateFromURL h w) as [data w1] eqn:L.
  destruct (truthy data) eqn:T.
  - destruct (loadStateFromURL_data h w w1 data L T) as (st & ps & ->).
    apply loadState_link. exact initial_inv.
  - destruct (addDefaultDataPoints_inv w1) as (s & w' & -> & Hs). exact Hs.
Qed.

Lemma run_inv (evs : list App.event) : forall s,
  state_inv (fst s) = true -> state_inv (fst (App.run evs s)) = true.
Proof.
  induction evs as [|ev r IH]; intros s H; [exact H|].
  cbn [App.run]. apply IH. apply handle_inv. exact H.
Qed.

End Reach.

(** X9: whatever link the page is opened with and whatever the user
    does then (add, delete and edit points, edit the form, choose a
    template, follow another link), every point of the state is an object
    whose id is a string and whose x and y are numbers in [0, 100]. *)
Theorem state_keeps_coordinates_in_range (svg canvas : bool) (location_hash : jsstring)
    (evs : list App.event) (w : world) :
  state_inv (fst (App.run evs (App.startup svg canvas location_hash w))) = true.
Proof. apply run_inv. apply startup_inv. Qed.



(** X11: [removeDataPoint] takes out the first point whose id is the
    given string and no other point, and leaves the other fields of the
    state alone; when no point has the id the state is unchanged. *)
Theorem removeDataPoint_removes_first (id : jsstring) (state : App.obj)
    (pts : list value) :
  App.prop state "dataPoints" = VArr pts ->
  Forall (fun p => nullish p = false) pts ->
  exists state',
    App.removeDataPoint id state = Ok state'
    /\ App.prop state' "dataPoints" = VArr (remove_first id pts)
    /\ (remove_first id pts = pts -> state' = state)
    /\ forall k, str_eqb (lit k) (lit "dataPoints") = false ->
                 App.prop state' k = App.prop state k.
Proof.
  intros Ep Hn. destruct (findIndex_returns id pts Hn) as [oi F].
  pose proof (findIndex_spec id pts oi F) as S.
  unfold App.removeDataPoint. rewrite Ep, F. cbn [rbind].
  destruct oi as [i|]; eexists; (split; [reflexivity|]).
  - destruct S as (Hi & Hs & _). rewrite prop_assign_same, Hs. split; [reflexivity|].
    split.
    + intros Eq. exfalso. rewrite <- Hs in Eq. apply (f_equal (@length value)) in Eq.
      unfold App.splice1 in Eq. rewrite length_app, length_firstn, length_skipn in Eq. lia.
    + intros k N. apply prop_assign_other. exact N.
  - rewrite S. auto.
Qed.

Lemma removeDataPoint_removes_first_witness :
  exists pts state',
    App.prop (fst (App.startup true true [] sample_world)) "dataPoints" = VArr pts
    /\ length pts = 3%nat
    /\ App.removeDataPoint (point_id sample_world 0) (fst (App.startup true true [] sample_world))
       = Ok state'
    /\ App.prop state' "dataPoints" = VArr (remove_first (point_id sample_world 0) pts)
    /\ length (remove_first (point_id sample_world 0) pts) = 2%nat.
Proof.
  destruct (removeDataPoint_removes_first (point_id sample_world 0)
              (fst (App.startup true true [] sample_world))
              (match App.prop (fst (App.startup true true [] sample_world)) "dataPoints" with
               | VArr pts => pts
               | _ => []
               end) eq_refl)
    as (state' & E & P & _).
  { vm_compute. repeat constructor. }
  eexists. exists state'. split; [reflexivity|]. split; [reflexivity|].
  split; [exact E|]. split; [exact P|]. reflexivity.
Defined.

(** X12: opening the page with the link of a chart that is within the
    limits of [sanitizeState] puts the content of that chart into the
    state: the same texts and template, the same labels, x and y in the
    same order. *)
Theorem share_link_restores_chart (D : value) (w : world) :
  valid_chart D = true ->
  exists tok state w',
    Share.encodeState D w = (VStr tok, w)
    /\ App.startup true true (lit "#" ++ tok) w = (state, w')
    /\ same_content D (VObj state).
Proof.
  intros H. destruct (codec_round D w H) as (tok & R & w' & He & Hd & Hs & Hc).
  pose proof (decodeState_fst tok w) as F. rewrite Hd in F. cbn [fst] in F.
  assert (Ht : exists t, field D "title" = VStr t).
  { unfold valid_chart in H. do 5 (apply andb_prop in H as [H _]).
    apply andb_prop in H as [_ H]. apply str_within_inv in H as (t & Et & _). eauto. }
  destruct Ht as [t Et].
  assert (HR : exists st ps, R = chart_of st ps w).
  { destruct (Share.decodeJSON tok) as [st|e].
    - destruct (record_points st) as [ps|]; [eauto|].
      subst R. destruct Hc as (Hc & _). rewrite Et in Hc. discriminate Hc.
    - subst R. destruct Hc as (Hc & _). rewrite Et in Hc. discriminate Hc. }
  destruct HR as (st & ps & ER).
  assert (Nt : tok <> []).
  { intros ->. rewrite decodeJSON_nil in F. rewrite F in ER. discriminate ER. }
  exists tok, (App.object_assign App.initial R), w'.
  split; [exact He|]. split.
  - unfold App.startup, ShareLink.loadStateFromURL. cbn [negb orb].
    change (skipn 1 (lit "#" ++ tok)) with tok.
    replace (is_nil tok) with false by (destruct tok; [congruence | reflexivity]).
    rewrite Hd. replace (truthy R) with true by (rewrite ER; reflexivity).
    unfold App.loadState. replace (truthy R) with true by (rewrite ER; reflexivity).
    cbn [negb]. unfold bind. rewrite Hs. reflexivity.
  - replace (VObj (App.object_assign App.initial R)) with R; [exact Hc|].
    rewrite ER. reflexivity.
Qed.

Lemma share_link_restores_chart_witness :
  valid_chart chart_Q4 = true
  /\ exists tok state w',
       Share.encodeState chart_Q4 sample_world = (VStr tok, sample_world)
       /\ App.startup true true (lit "#" ++ tok) sample_world = (state, w')
       /\ same_content chart_Q4 (VObj state).
Proof.
  split; [reflexivity|].
  exact (share_link_restores_chart chart_Q4 sample_world eq_refl).
Defined.

(** * The renderer and the registry *)

Section Escape.

Local Open Scope N_scope.

Lemma replace_char_app (c : N) (r a b : list N) :
  Utils.replace_char c r (a ++ b) = Utils.replace_char c r a ++ Utils.replace_char c r b.
Proof. apply flat_map_app. Qed.

Lemma replace_char_cons (c : N) (r : list N) (d : N) (s : list N) :
  Utils.replace_char c r (d :: s)
  = (if d =? c then r else [d]) ++ Utils.replace_char c r s.
Proof. reflexivity. Qed.

(** the five replacements in a row are one pass that writes each of the
    five characters as its entity *)
Lemma escapeXml_one_pass (s : list N) :
  Utils.escapeXml (VStr s) = flat_map Matrix.escape_char s.
Proof.
  unfold Utils.escapeXml. induction s as [|d s IH]; [reflexivity|].
  rewrite replace_char_cons, !replace_char_app, IH. cbn [flat_map]. f_equal.
  unfold Matrix.escape_char.
  destruct (N.eqb_spec d 38) as [->|N38]; [reflexivity|].
  cbn [Utils.replace_char flat_map app].
  destruct (N.eqb_spec d 60) as [->|N60]; [reflexivity|].
  cbn [Utils.replace_char flat_map app].
  destruct (N.eqb_spec d 62) as [->|N62]; [reflexivity|].
  cbn [Utils.replace_char flat_map app].
  destruct (N.eqb_spec d 34) as [->|N34]; [reflexivity|].
  cbn [Utils.replace_char flat_map app].
  destruct (N.eqb_spec d 39) as [->|N39]; reflexivity.
Qed.

Lemma escapeXml_models_agree (v : value) : Matrix.escapeXml v = Utils.escapeXml v.
Proof.
  destruct v; try reflexivity. symmetry. apply escapeXml_one_pass.
Qed.

Lemma markup_free_app (a b : list N) :
  markup_free (a ++ b) = markup_free a && markup_free b.
Proof. apply forallb_app. Qed.

Lemma escape_char_free (d : N) : markup_free (Matrix.escape_char d) = true.
Proof.
  unfold Matrix.escape_char.
  destruct (N.eqb_spec d 38); [reflexivity|].
  destruct (N.eqb_spec d 60); [reflexivity|].
  destruct (N.eqb_spec d 62); [reflexivity|].
  destruct (N.eqb_spec d 34); [reflexivity|].
  destruct (N.eqb_spec d 39); [reflexivity|].
  cbn [markup_free forallb].
  destruct (N.eqb_spec d 60); [contradiction|].
  destruct (N.eqb_spec d 62); [contradiction|].
  destruct (N.eqb_spec d 34); [contradiction|].
  destruct (N.eqb_spec d 39); [contradiction|]. reflexivity.
Qed.

Lemma escaped_free (v : value) : markup_free (Matrix.escapeXml v) = true.
Proof.
  destruct v; try reflexivity. cbn [Matrix.escapeXml].
  induction s as [|d s IH]; [reflexivity|].
  cbn [flat_map]. rewrite markup_free_app, escape_char_free, IH. reflexivity.
Qed.

End Escape.

(** X13: [escapeXml] writes each [&], [<], [>], double and single quote of
    a string as its entity and keeps every other character, the later
    replacements never touching what an earlier one wrote; no [<], [>] or
    quote is left in the result, and a value that is not a string gives
    the empty string. *)
Theorem escapeXml_escapes_markup (v : value) :
  Utils.escapeXml v = match v with
                      | VStr s => flat_map Matrix.escape_char s
                      | _ => []
                      end
  /\ markup_free (Utils.escapeXml v) = true.
Proof.
  split.
  - destruct v; try reflexivity. apply escapeXml_one_pass.
  - rewrite <- escapeXml_models_agree. apply escaped_free.
Qed.

Section SceneTexts.

Variable h : Templates.store.
Variable template : Templates.loc.

Lemma all_free_app (a b : list Matrix.node) :
  all_free (a ++ b) = all_free a && all_free b.
Proof. unfold all_free. rewrite flat_map_app. apply forallb_app. Qed.

Lemma filters_free : all_free (Matrix.generateSVGFilters h template) = true.
Proof. unfold Matrix.generateSVGFilters. destruct (negb _); reflexivity. Qed.

Lemma background_free (d : Matrix.dims) :
  all_free (Matrix.generateBackground h template d) = true.
Proof. reflexivity. Qed.

Lemma title_free (title subtitle : jsstring) (d : Matrix.dims) :
  markup_free title = true -> markup_free subtitle = true ->
  all_free (Matrix.generateTitle h template title subtitle d) = true.
Proof.
  intros Ht Hs. unfold Matrix.generateTitle, all_free.
  destruct (is_nil subtitle); cbn [flat_map texts app forallb]; rewrite Ht, ?Hs; reflexivity.
Qed.

Lemma label_lines_free (f : nat -> jsstring -> list (string * Matrix.attr))
    (lines : list jsstring) : forall i,
  all_free (Matrix.mapi (fun index line =>
              Matrix.Elem "text" (f index line)
                [Matrix.Text (Matrix.escapeXml (VStr line))]) i lines) = true.
Proof.
  induction lines as [|l r IH]; intros i; [reflexivity|].
  unfold all_free in *. cbn [Matrix.mapi flat_map texts app forallb].
  rewrite escaped_free. apply IH.
Qed.

Lemma quadrant_label_free (text : jsstring) (qx qy opacity fontSize : number) :
  all_free [Matrix.generateQuadrantLabel h template text qx qy opacity fontSize] = true.
Proof.
  unfold Matrix.generateQuadrantLabel, all_free. cbn [flat_map texts]. rewrite app_nil_r.
  apply label_lines_free.
Qed.

Lemma quadrants_free (p : Matrix.area) :
  all_free (Matrix.generateQuadrants h template p) = true.
Proof.
  unfold Matrix.generateQuadrants. rewrite all_free_app.
  replace (all_free [_; _; _; _]) with true by reflexivity. cbn [andb].
  destruct (Templates.t_truthy _); [|reflexivity].
  cbv zeta.
  change [?a; ?b; ?c; ?d] with ([a] ++ [b] ++ [c] ++ [d]).
  rewrite !all_free_app, !quadrant_label_free. reflexivity.
Qed.

Lemma grid_free (p : Matrix.area) : all_free [Matrix.generateGrid h template p] = true.
Proof. reflexivity. Qed.

Lemma axes_free (p : Matrix.area) (xAxisName yAxisName : jsstring) :
  markup_free xAxisName = true -> markup_free yAxisName = true ->
  all_free [Matrix.generateAxes h template p xAxisName yAxisName] = true.
Proof.
  intros Hx Hy. unfold Matrix.generateAxes, Matrix.generateAxisLabels, all_free.
  cbn [flat_map texts app forallb]. rewrite Hx, Hy. reflexivity.
Qed.

Lemma footer_free (d : Matrix.dims) : all_free [Matrix.generateFooter h template d] = true.
Proof. reflexivity. Qed.

Lemma drawPoint_free (p : Matrix.area) (name : jsstring) (index : nat) (point : value)
    (nodes : list Matrix.node) :
  Matrix.drawPoint h template p name index point = Ok nodes -> all_free nodes = true.
Proof.
  unfold Matrix.drawPoint.
  destruct (get point "label") as [label|]; [|discriminate]. cbn [rbind].
  destruct (negb (truthy label)); [intros E; inversion E; reflexivity|].
  destruct (get point "x") as [px|]; [|discriminate]. cbn [rbind].
  destruct (Matrix.loose_null px); [intros E; inversion E; reflexivity|].
  destruct (get point "y") as [py|]; [|discriminate]. cbn [rbind].
  destruct (Matrix.loose_null py); [intros E; inversion E; reflexivity|].
  destruct (Matrix.to_number px) as [nx|]; [|discriminate]. cbn [rbind].
  destruct (Matrix.to_number py) as [ny|]; [|discriminate]. cbn [rbind].
  intros E. inversion E. unfold all_free. cbn [flat_map texts app forallb].
  rewrite escaped_free. reflexivity.
Qed.

Lemma drawPoints_free (p : Matrix.area) (name : jsstring) (points : list value) :
  forall index nodes,
  Matrix.drawPoints h template p name index points = Ok nodes -> all_free nodes = true.
Proof.
  induction points as [|point r IH]; intros index nodes E.
  - inversion E. reflexivity.
  - cbn [Matrix.drawPoints] in E.
    destruct (Matrix.drawPoint h template p name index point) as [a|] eqn:Ea; [|discriminate].
    cbn [rbind] in E.
    destruct (Matrix.drawPoints h template p name (S index) r) as [b|] eqn:Eb;
      [|discriminate].
    cbn [rbind] in E. inversion E. rewrite all_free_app.
    rewrite (drawPoint_free _ _ _ _ _ Ea), (IH _ _ Eb). reflexivity.
Qed.

Lemma or_else_escaped_free (v d : value) :
  markup_free (Matrix.escapeXml (or_else v d)) = true.
Proof. apply escaped_free. Qed.

Lemma render_free (data : value) (name : jsstring) (includeFooter : bool)
    (scene : Matrix.node) :
  Matrix.render h template data name includeFooter = Ok scene ->
  forallb markup_free (texts scene) = true
  /\ exists label, Matrix.attribute scene "aria-label" = Some (Matrix.AText label)
                   /\ markup_free label = true.
Proof.
  unfold Matrix.render.
  destruct (get data "title") as [t|]; [|discriminate]. cbn [rbind].
  destruct (get data "subtitle") as [s|]; [|discriminate]. cbn [rbind].
  destruct (get data "xAxisName") as [xa|]; [|discriminate]. cbn [rbind].
  destruct (get data "yAxisName") as [ya|]; [|discriminate]. cbn [rbind].
  destruct (get data "dataPoints") as [dp|]; [|discriminate]. cbn [rbind].
  destruct (Matrix.points_to_draw dp) as [pts|]; [|discriminate]. cbn [rbind].
  set (sub := if truthy s then Matrix.escapeXml s else []).
  assert (Hsub : markup_free sub = true).
  { unfold sub. destruct (truthy s); [apply escaped_free | reflexivity]. }
  destruct (match pts with
            | [] => Ok []
            | _ :: _ => rbind (Matrix.generateDataPoints h template pts _ name)
                          (fun g => Ok [g])
            end) as [points|] eqn:Ep; [|discriminate].
  cbn [rbind]. intros E. apply Ok_inj in E. subst scene. split.
  - match goal with
    | |- forallb markup_free (texts (Matrix.Elem _ _ ?c)) = true =>
        change (all_free c = true)
    end.
    rewrite !all_free_app.
    rewrite filters_free, background_free, quadrants_free.
    rewrite title_free by (auto using escaped_free).
    rewrite axes_free by (auto using escaped_free).
    cbn [andb].
    assert (Hp : all_free points = true).
    { destruct pts as [|p0 r]; [inversion Ep; reflexivity|].
      unfold Matrix.generateDataPoints in Ep.
      destruct (Matrix.drawPoints h template _ name 0 (p0 :: r)) as [body|] eqn:Eb;
        [|discriminate].
      cbn [rbind] in Ep. inversion Ep. unfold all_free. cbn [flat_map texts].
      rewrite app_nil_r. exact (drawPoints_free _ _ _ _ _ Eb). }
    rewrite Hp.
    destruct (Templates.t_truthy _); destruct includeFooter; reflexivity.
  - eexists. split; [reflexivity|]. apply escaped_free.
Qed.

End SceneTexts.

(** X14: whatever the data, the character data of the scene that
    [generateMatrix] returns and its [aria-label] contain no [<], [>] or
    quote: every text of the data that reaches the scene (title, subtitle,
    axis names, point labels) went through [escapeXml]. *)
Theorem scene_texts_are_escaped (h : Templates.store) (data : value)
    (includeFooter : bool) (scene : Matrix.node) (h' : Templates.store) :
  Matrix.generateMatrix h data includeFooter = (Ok scene, h') ->
  forallb markup_free (texts scene) = true
  /\ exists label, Matrix.attribute scene "aria-label" = Some (Matrix.AText label)
                   /\ markup_free label = true.
Proof.
  unfold Matrix.generateMatrix.
  destruct (get data "template") as [tm|]; [|discriminate].
  destruct (toStr (or_else tm (VStr (lit "modern")))) as [name|]; [|discriminate].
  destruct (toStr tm) as [raw|]; [|discriminate].
  destruct (Templates.getTemplate h name) as [template h1].
  intros E. inversion E as [[Er Eh]]. eapply render_free. exact Er.
Qed.

Lemma scene_texts_are_escaped_witness :
  exists scene h',
    Matrix.generateMatrix Templates.registry markup_chart false = (Ok scene, h')
    /\ forallb markup_free (texts scene) = true
    /\ In (lit "&lt;b&gt;") (texts scene) /\ In (lit "a&amp;b") (texts scene).
Proof.
  do 2 eexists. split; [vm_compute; reflexivity|].
  split.
  - refine (proj1 (scene_texts_are_escaped Templates.registry markup_chart false _ _ _)).
    vm_compute. reflexivity.
  - vm_compute. split; [left; reflexivity|].
    do 11 right. left. reflexivity.
Defined.

Section Markers.

Variable h : Templates.store.
Variable template : Templates.loc.

Lemma to_number_returns (v : value) :
  convertible v = true -> exists n, Matrix.to_number v = Ok n.
Proof.
  unfold convertible, Matrix.to_number.
  destruct v; try (intros _; eexists; reflexivity);
    destruct (toStr _); try discriminate; intros _; eexists; reflexivity.
Qed.

Lemma drawPoint_fills (p : Matrix.area) (name : jsstring) (index : nat) (point : value) :
  nullish point = false ->
  (drawable point = true ->
   convertible (field point "x") = true /\ convertible (field point "y") = true) ->
  exists nodes,
    Matrix.drawPoint h template p name index point = Ok nodes
    /\ fills nodes
       = if drawable point
         then [Some (Matrix.t_attr (Templates.getPointColor h name index))]
         else [].
Proof.
  intros Hn Hc. unfold Matrix.drawPoint, drawable in *.
  rewrite (get_ok point "label" Hn), (get_ok point "x" Hn), (get_ok point "y" Hn).
  cbn [rbind].
  destruct (truthy (field point "label")); cbn [negb andb] in *;
    [|eexists; split; reflexivity].
  destruct (Matrix.loose_null (field point "x")); cbn [negb andb] in *;
    [eexists; split; reflexivity|].
  destruct (Matrix.loose_null (field point "y")); cbn [negb andb] in *;
    [eexists; split; reflexivity|].
  destruct (Hc eq_refl) as [Cx Cy].
  destruct (to_number_returns _ Cx) as [nx ->].
  destruct (to_number_returns _ Cy) as [ny ->].
  cbn [rbind]. eexists. split; reflexivity.
Qed.

Lemma fills_app (a b : list Matrix.node) : fills (a ++ b) = fills a ++ fills b.
Proof. unfold fills, circles. rewrite flat_map_app. apply map_app. Qed.

Lemma drawPoints_fills (p : Matrix.area) (name : jsstring) (points : list value) :
  Forall (fun q => nullish q = false
                   /\ (drawable q = true ->
                       convertible (field q "x") = true
                       /\ convertible (field q "y") = true)) points ->
  forall index,
  exists nodes,
    Matrix.drawPoints h template p name index points = Ok nodes
    /\ fills nodes
       = map (fun i => Some (Matrix.t_attr (Templates.getPointColor h name i)))
             (drawn_indices index points).
Proof.
  induction 1 as [|q r [Hn Hc] _ IH]; intros index; [eexists; split; reflexivity|].
  cbn [Matrix.drawPoints drawn_indices].
  destruct (drawPoint_fills p name index q Hn Hc) as (a & -> & Fa).
  destruct (IH (S index)) as (b & -> & Fb).
  cbn [rbind]. eexists. split; [reflexivity|].
  rewrite fills_app, Fa, Fb, map_app. destruct (drawable q); reflexivity.
Qed.

End Markers.

(** X15: for the template that [getTemplate] returns for a name the
    registry object does not inherit, [generateDataPoints] draws one
    circle for each point that has a label and both coordinates, in the
    order of the input, and skips the others without failing; the colour
    of a circle is the palette colour at the position of its point in
    the input, skipped points counted. *)
Theorem markers_follow_points (name : jsstring) (p : Matrix.area) (points : list value) :
  inherited name = false ->
  Forall (fun q => nullish q = false
                   /\ (drawable q = true ->
                       convertible (field q "x") = true
                       /\ convertible (field q "y") = true)) points ->
  let h := snd (Templates.getTemplate Templates.registry name) in
  let template := fst (Templates.getTemplate Templates.registry name) in
  exists g,
    Matrix.generateDataPoints h template points p name = Ok g
    /\ map (fun c => Matrix.attribute c "fill") (Matrix.elements "circle" g)
       = map (fun i => Some (Matrix.t_attr (Templates.getPointColor h name i)))
             (drawn_indices 0 points)
    /\ length (Matrix.elements "circle" g) = length (filter drawable points).
Proof.
  intros _ H h template.
  destruct (drawPoints_fills h template p name points H 0) as (nodes & E & F).
  unfold Matrix.generateDataPoints. rewrite E. cbn [rbind]. eexists.
  split; [reflexivity|].
  assert (G : map (fun c => Matrix.attribute c "fill")
                (Matrix.elements "circle"
                   (Matrix.Elem "g" [("class"%string, Matrix.AText (lit "data-points"))]
                      nodes))
              = fills nodes) by reflexivity.
  split; [rewrite G; exact F|].
  apply (f_equal (@length _)) in F. unfold fills in F. rewrite !length_map in F.
  change (Matrix.elements "circle" (Matrix.Elem "g" _ nodes)) with (circles nodes).
  rewrite F. clear. generalize 0%nat.
  induction points as [|q r IH]; intros n; [reflexivity|].
  cbn [drawn_indices filter]. rewrite length_app, IH.
  destruct (drawable q); reflexivity.
Qed.

Lemma markers_follow_points_witness :
  exists g,
    Matrix.generateDataPoints
      (snd (Templates.getTemplate Templates.registry (lit "modern")))
      (fst (Templates.getTemplate Templates.registry (lit "modern")))
      [sample_point (lit "A") (VNum (Fin 8 1)) (VNum (Fin 75 0));
       sample_point [] (VNum (Fin 1 1)) (VNum (Fin 1 1));
       sample_point (lit "C") (VStr (lit "40")) (VNum (Fin 2 1));
       sample_point (lit "D") VNull (VNum (Fin 2 1))]
      {| Matrix.x := Fin 7 1; Matrix.y := Fin 12 1;
         Matrix.a_width := Fin 66 1; Matrix.a_height := Fin 585 0 |}
      (lit "modern") = Ok g
    /\ map (fun c => Matrix.attribute c "fill") (Matrix.elements "circle" g)
       = [Some (Matrix.AText (lit "#2196f3")); Some (Matrix.AText (lit "#ff9800"))].
Proof.
  destruct (markers_follow_points
              (lit "modern")
              {| Matrix.x := Fin 7 1; Matrix.y := Fin 12 1;
                 Matrix.a_width := Fin 66 1; Matrix.a_height := Fin 585 0 |}
              [sample_point (lit "A") (VNum (Fin 8 1)) (VNum (Fin 75 0));
               sample_point [] (VNum (Fin 1 1)) (VNum (Fin 1 1));
               sample_point (lit "C") (VStr (lit "40")) (VNum (Fin 2 1));
               sample_point (lit "D") VNull (VNum (Fin 2 1))] eq_refl)
    as (g & E & F & _).
  { repeat constructor; intros H; try discriminate H. }
  exists g. split; [exact E|]. rewrite F. reflexivity.
Defined.

Section Registry.

Lemma lookup_template_cases (name : jsstring) :
  (existsb (str_eqb name) (getTemplateNames Templates.registry) = true
   /\ (Templates.lookup_template Templates.registry name = Templates.minimal
       \/ Templates.lookup_template Templates.registry name = Templates.modern
       \/ Templates.lookup_template Templates.registry name = Templates.vibrant))
  \/ (existsb (str_eqb name) (getTemplateNames Templates.registry) = false
      /\ Templates.lookup_template Templates.registry name = Templates.modern).
Proof.
  unfold Templates.lookup_template, getTemplateNames.
  cbn [nth_error Templates.registry Templates.templates Templates.props_get
       Templates.P_ map fst existsb].
  destruct (str_eqb name (lit "minimal")); [left; split; [reflexivity | auto]|].
  destruct (str_eqb name (lit "modern")); [left; split; [reflexivity | auto]|].
  destruct (str_eqb name (lit "vibrant")); [left; split; [reflexivity | auto]|].
  right. split; reflexivity.
Qed.

Lemma lookup_template_front (h : Templates.store) (name : jsstring) :
  nth_error h 0 = nth_error Templates.registry 0 ->
  Templates.lookup_template h name = Templates.lookup_template Templates.registry name.
Proof.
  intros E. unfold Templates.lookup_template, Templates.templates. rewrite E. reflexivity.
Qed.

End Registry.

(** X16: for a name that is no key of the registry (and no property that
    the registry object inherits, which the model leaves out),
    [getTemplate] returns a new object with the content of the [modern]
    template. *)
Theorem getTemplate_falls_back_to_modern (name : jsstring) :
  inherited name = false ->
  existsb (str_eqb name) (getTemplateNames Templates.registry) = false ->
  Templates.template_content Templates.registry name
  = Templates.template_content Templates.registry (lit "modern")
  /\ fst (Templates.getTemplate Templates.registry name) = length Templates.registry.
Proof.
  intros _ H. destruct (lookup_template_cases name) as [[H' _]|[_ E]]; [congruence|].
  unfold Templates.template_content, Templates.getTemplate. rewrite E.
  split; reflexivity.
Qed.

Lemma getTemplate_falls_back_to_modern_witness :
  inherited (lit "nonexistent") = false
  /\ existsb (str_eqb (lit "nonexistent")) (getTemplateNames Templates.registry) = false
  /\ Templates.template_content Templates.registry (lit "nonexistent")
     = Templates.template_content Templates.registry (lit "modern")
  /\ Templates.template_content Templates.registry (lit "undefined")
     = Templates.template_content Templates.registry (lit "modern").
Proof.
  split; [reflexivity|]. split; [reflexivity|]. split.
  - exact (proj1 (getTemplate_falls_back_to_modern (lit "nonexistent") eq_refl eq_refl)).
  - exact (proj1 (getTemplate_falls_back_to_modern (lit "undefined") eq_refl eq_refl)).
Defined.

Section Colours.

Lemma lookup_template_name (name : jsstring) :
  Templates.lookup_template Templates.registry name
  = if str_eqb name (lit "minimal") then Templates.minimal
    else if str_eqb name (lit "vibrant") then Templates.vibrant
    else Templates.modern.
Proof.
  unfold Templates.lookup_template.
  cbn [nth_error Templates.registry Templates.templates Templates.props_get
       Templates.P_ fst snd].
  destruct (str_eqb name (lit "minimal")); [reflexivity|].
  destruct (str_eqb name (lit "modern")) eqn:M.
  - apply str_eqb_eq in M. subst name. reflexivity.
  - destruct (str_eqb name (lit "vibrant")); reflexivity.
Qed.

Lemma palette_item (name : jsstring) (items : list Templates.tval) (k : nat) :
  items = map Templates.S_ (palette name) -> (k < 6)%nat ->
  nth k items Templates.TUndef = Templates.TStr (lit (nth k (palette name) EmptyString)).
Proof.
  intros -> Hk. unfold palette.
  destruct (str_eqb name (lit "vibrant"));
    destruct k as [|[|[|[|[|[|k]]]]]]; try reflexivity; lia.
Qed.

Lemma item_at_rem_position (name : jsstring) (items : list Templates.tval)
    (index : number) :
  items = map Templates.S_ (palette name) ->
  Exported.item_at_rem items index
  = match position index 6 with
    | Some k => Templates.TStr (lit (nth k (palette name) EmptyString))
    | None => Templates.TUndef
    end.
Proof.
  intros E. unfold Exported.item_at_rem, position.
  destruct (Exported.num_to_int index) as [z|]; [|reflexivity].
  assert (L : length items = 6%nat).
  { rewrite E, length_map. unfold palette.
    destruct (str_eqb name (lit "vibrant")); reflexivity. }
  replace (is_nil items) with false
    by (destruct items; [discriminate L | reflexivity]).
  rewrite L. change (Z.of_nat 6) with 6%Z.
  destruct (Z.ltb_spec (Z.rem z 6) 0) as [Hn|Hp]; [reflexivity|].
  apply (palette_item name items _ E).
  assert (Hb : (Z.abs (Z.rem z 6) < Z.abs 6)%Z) by (apply Z.rem_bound_abs; discriminate).
  change (Z.abs 6) with 6%Z in Hb. lia.
Qed.

End Colours.

(** X17: for a template name the registry object does not inherit,
    [getPointColor] returns the colour ["#333333"] for minimal, whatever
    the index; for vibrant, and for modern or an unknown name, it returns
    the colour at position [index mod 6] of the vibrant or the modern
    palette when the index is 0, 1, 2, ..., so the six colours are cycled
    in their order.  For an index that is no position (a negative
    integer that is no multiple of 6, a fraction, [NaN], an infinity)
    the exported function returns [undefined] for those templates. *)
Theorem getPointColor_cycles (name : jsstring) :
  inherited name = false ->
  (forall i : nat,
     Templates.getPointColor Templates.registry name i
     = Templates.TStr (lit (if str_eqb name (lit "minimal") then "#333333"%string
                            else nth (Nat.modulo i 6) (palette name) EmptyString)))
  /\ (forall index : number,
        exact_index index = true ->
        Exported.getPointColor Templates.registry name index
        = if str_eqb name (lit "minimal") then Templates.TStr (lit "#333333")
          else match position index 6 with
               | Some k => Templates.TStr (lit (nth k (palette name) EmptyString))
               | None => Templates.TUndef
               end).
Proof.
  intros _. split.
  - intros i. unfold Templates.getPointColor. rewrite lookup_template_name.
    destruct (str_eqb name (lit "minimal")); [reflexivity|].
    assert (B : (Nat.modulo i 6 < 6)%nat) by (apply Nat.mod_upper_bound; lia).
    unfold palette.
    destruct (str_eqb name (lit "vibrant")).
    + change (Templates.get_prop Templates.registry Templates.vibrant "pointColors")
        with (Templates.TRef Templates.vibrant_pointColors).
      cbv iota.
      remember (nth_error Templates.registry Templates.vibrant_pointColors) as c eqn:Ec.
      vm_compute in Ec. subst c. cbv iota.
      change (length [_; _; _; _; _; _]) with 6%nat.
      destruct (Nat.modulo i 6) as [|[|[|[|[|[|k]]]]]]; try reflexivity; lia.
    + change (Templates.get_prop Templates.registry Templates.modern "pointColors")
        with (Templates.TRef Templates.modern_pointColors).
      cbv iota.
      remember (nth_error Templates.registry Templates.modern_pointColors) as c eqn:Ec.
      vm_compute in Ec. subst c. cbv iota.
      change (length [_; _; _; _; _; _]) with 6%nat.
      destruct (Nat.modulo i 6) as [|[|[|[|[|[|k]]]]]]; try reflexivity; lia.
  - intros index _. unfold Exported.getPointColor. rewrite lookup_template_name.
    destruct (str_eqb name (lit "minimal")) eqn:Em; [reflexivity|].
    destruct (str_eqb name (lit "vibrant")) eqn:Ev.
    + change (Templates.get_prop Templates.registry Templates.vibrant "pointColors")
        with (Templates.TRef Templates.vibrant_pointColors).
      cbv iota.
      remember (nth_error Templates.registry Templates.vibrant_pointColors) as c eqn:Ec.
      vm_compute in Ec. subst c. cbv iota.
      apply item_at_rem_position. unfold palette. rewrite Ev. reflexivity.
    + change (Templates.get_prop Templates.registry Templates.modern "pointColors")
        with (Templates.TRef Templates.modern_pointColors).
      cbv iota.
      remember (nth_error Templates.registry Templates.modern_pointColors) as c eqn:Ec.
      vm_compute in Ec. subst c. cbv iota.
      apply item_at_rem_position. unfold palette. rewrite Ev. reflexivity.
Qed.

Lemma getPointColor_cycles_witness :
  inherited (lit "vibrant") = false
  /\ Templates.getPointColor Templates.registry (lit "vibrant") 7
     = Templates.TStr (lit "#7b1fa2")
  /\ Templates.getPointColor Templates.registry (lit "minimal") 4
     = Templates.TStr (lit "#333333")
  /\ exact_index (Fin (-1) 0) = true
  /\ Exported.getPointColor Templates.registry (lit "vibrant") (Fin (-1) 0)
     = Templates.TUndef
  /\ Exported.getPointColor Templates.registry (lit "modern") (Fin 5 (-1))
     = Templates.TUndef
  /\ Exported.getPointColor Templates.registry (lit "modern") (Fin 8 0)
     = Templates.TStr (lit "#ff9800").
Proof.
  split; [reflexivity|]. split; [|split; [|split; [reflexivity|split; [|split]]]].
  - exact (proj1 (getPointColor_cycles (lit "vibrant") eq_refl) 7%nat).
  - exact (proj1 (getPointColor_cycles (lit "minimal") eq_refl) 4%nat).
  - exact (proj2 (getPointColor_cycles (lit "vibrant") eq_refl) (Fin (-1) 0) eq_refl).
  - exact (proj2 (getPointColor_cycles (lit "modern") eq_refl) (Fin 5 (-1)) eq_refl).
  - exact (proj2 (getPointColor_cycles (lit "modern") eq_refl) (Fin 8 0) eq_refl).
Defined.

(** X18: the template of a chart that [sanitizeState] returns is a key of
    the registry: the names [sanitizeState] lets through are the names
    [getTemplateNames] lists, so [getTemplate] does not fall back for a
    sanitized chart. *)
Theorem sanitized_template_is_registered (data r : value) (w w' : world) :
  Share.sanitizeState data w = (Ok r, w') -> r <> VNull ->
  exists name,
    field r "template" = VStr name
    /\ existsb (str_eqb name) (getTemplateNames Templates.registry) = true
    /\ Templates.props_get name
         (match nth_error Templates.registry Templates.templates with
          | Some (Templates.CObj ps) => ps
          | _ => []
          end)
       = Templates.TRef (Templates.lookup_template Templates.registry name).
Proof.
  intros E N.
  destruct (sanitizeState_chart_ok data r w w' E) as [(_ & -> & _)|(_ & Hok)];
    [contradiction N; reflexivity|].
  destruct Hok as (t & s & xa & ya & tm & pts & -> & _ & _ & _ & _ & _ & _ & Htm & _).
  change (field (VObj _) "template") with tm.
  destruct tm as [| | | |name| |]; try discriminate Htm. exists name.
  split; [reflexivity|].
  unfold includes, template_names in Htm. cbn [existsb] in Htm.
  unfold Templates.lookup_template, getTemplateNames.
  cbn [nth_error Templates.registry Templates.templates Templates.props_get
       Templates.P_ map fst existsb].
  repeat (apply orb_prop in Htm as [Htm|Htm];
          [apply str_eqb_eq in Htm; subst name; split; reflexivity|]).
  discriminate Htm.
Qed.

Lemma sanitized_template_is_registered_witness :
  Share.sanitizeState scenario_D sample_world
  = (Ok scenario_D_repaired, tick_up sample_world)
  /\ scenario_D_repaired <> VNull
  /\ exists name,
       field scenario_D_repaired "template" = VStr name
       /\ existsb (str_eqb name) (getTemplateNames Templates.registry) = true
       /\ Templates.props_get name
            (match nth_error Templates.registry Templates.templates with
             | Some (Templates.CObj ps) => ps
             | _ => []
             end)
          = Templates.TRef (Templates.lookup_template Templates.registry name).
Proof.
  assert (E : Share.sanitizeState scenario_D sample_world
              = (Ok scenario_D_repaired, tick_up sample_world))
    by (vm_compute; reflexivity).
  assert (N : scenario_D_repaired <> VNull) by discriminate.
  split; [exact E|]. split; [exact N|].
  exact (sanitized_template_is_registered _ _ _ _ E N).
Defined.

(** X19: [deepClone] returns a value equal to its argument when the
    argument holds only what JSON carries (no [undefined], no [NaN] or
    infinity); it throws a SyntaxError for [undefined], and gives [null]
    for [NaN]. *)
Theorem deepClone_copies_json_values (v : value) :
  (clean v = true -> Utils.deepClone v = Ok v)
  /\ Utils.deepClone VUndefined = Throw SyntaxError
  /\ Utils.deepClone (VNum NaN) = Ok VNull.
Proof.
  split; [|split; vm_compute; reflexivity].
  intros H. unfold Utils.deepClone, JSON.stringify.
  pose proof (parse_text v H) as P. unfold text_of in P.
  destruct (JSON.text v) as [t|] eqn:T.
  - cbn [toStr rbind]. exact P.
  - destruct v; try discriminate T. discriminate H.
Qed.

Lemma deepClone_copies_json_values_witness :
  clean chart_with_id = true /\ Utils.deepClone chart_with_id = Ok chart_with_id.
Proof.
  split; [reflexivity|].
  exact (proj1 (deepClone_copies_json_values chart_with_id) eq_refl).
Defined.

(** * The preview of the state *)

Section Frame.

Lemma points_only_refl (state : App.obj) : points_only state state.
Proof. intros k _. reflexivity. Qed.

Lemma points_only_assign (state : App.obj) (v : value) :
  points_only state (App.assign state "dataPoints" v).
Proof. intros k N. apply prop_assign_other. exact N. Qed.

Lemma addDataPoint_frame (label x y : value) (state state' : App.obj) (w w' : world) :
  App.addDataPoint label x y state w = (Ok state', w') -> points_only state state'.
Proof.
  unfold App.addDataPoint, bind, fresh_id.
  destruct (App.prop state "dataPoints"); try discriminate.
  unfold ret. intros E. inversion E. apply points_only_assign.
Qed.

Lemma removeDataPoint_frame (id : jsstring) (state state' : App.obj) :
  App.removeDataPoint id state = Ok state' -> points_only state state'.
Proof.
  unfold App.removeDataPoint.
  destruct (App.prop state "dataPoints"); try discriminate.
  destruct (App.findIndex id xs) as [[i|]|]; cbn [rbind]; try discriminate;
    intros E; apply Ok_inj in E; subst state';
    [apply points_only_assign | apply points_only_refl].
Qed.

Lemma updateDataPoint_frame (id field : jsstring) (v : value) (state state' : App.obj) :
  App.updateDataPoint id field v state = Ok state' -> points_only state state'.
Proof.
  unfold App.updateDataPoint.
  destruct (App.prop state "dataPoints"); try discriminate.
  destruct (App.findIndex id xs) as [[i|]|]; cbn [rbind]; try discriminate.
  2:{ intros E; apply Ok_inj in E; subst state'. apply points_only_refl. }
  destruct (str_eqb field (lit "label")).
  { intros E; apply Ok_inj in E; subst state'. apply points_only_assign. }
  destruct (str_eqb field (lit "x") || str_eqb field (lit "y")).
  2:{ intros E; apply Ok_inj in E; subst state'. apply points_only_refl. }
  destruct (parseFloat v) as [n|]; cbn [rbind]; [|discriminate].
  destruct (Utils.isValidNumber (VNum n) (Fin 0 0) (Fin 1 2)) as [[|]|]; cbn [rbind];
    try discriminate; intros E; apply Ok_inj in E; subst state';
    [apply points_only_assign | apply points_only_refl].
Qed.

Lemma template_inv_frame (state state' : App.obj) :
  points_only state state' -> template_inv state = true -> template_inv state' = true.
Proof. intros F H. unfold template_inv. rewrite (F "template"%string eq_refl). exact H. Qed.

Lemma settle_template (state : App.obj) (r : res App.obj * world) :
  template_inv state = true ->
  (forall s w, r = (Ok s, w) -> template_inv s = true) ->
  template_inv (fst (App.settle state r)) = true.
Proof.
  intros H Hr. destruct r as [[s|e] w]; [|exact H]. cbn. eapply Hr. reflexivity.
Qed.

Lemma loadState_template (st : value) (ps : list value) (w0 w : world) (state : App.obj) :
  template_inv state = true ->
  template_inv (fst (App.settle state (App.loadState (chart_of st ps w0) state w))) = true.
Proof.
  intros H. unfold App.loadState. change (truthy (chart_of st ps w0)) with true.
  cbn [negb]. unfold bind.
  destruct (Share.sanitizeState (chart_of st ps w0) w) as [[r|e] w'] eqn:E; [|exact H].
  destruct (sanitizeState_chart_ok _ r w w' E) as [(F & _)|(_ & Hok)]; [discriminate F|].
  destruct Hok as (t & s & xa & ya & tm & pts & -> & _ & _ & _ & _ & _ & _ & Htm & _).
  destruct (includes_inv tm Htm) as (name & -> & _).
  unfold ret, App.settle. cbn [fst]. unfold App.object_assign. cbn [fold_left fst snd].
  unfold template_inv, App.prop.
  rewrite lookup_obj_set_other by reflexivity. rewrite lookup_obj_set_same. reflexivity.
Qed.

Lemma assign_input_template (k : string) (input : option jsstring) (state : App.obj) :
  template_inv state = true -> template_inv (App.assign_input k input state) = true.
Proof.
  intros H. unfold App.assign_input. destruct input as [s|]; [|exact H].
  unfold template_inv, App.prop, App.assign.
  destruct (str_eqb (lit "template") (lit k)) eqn:E.
  - apply str_eqb_eq in E. rewrite <- E, lookup_obj_set_same. reflexivity.
  - rewrite lookup_obj_set_other by exact E. exact H.
Qed.

Lemma handle_template (ev : App.event) (state : App.obj) (w : world) :
  template_inv state = true -> template_inv (fst (App.handle ev state w)) = true.
Proof.
  intros H. destruct ev as [|id|id field value|f|name|h]; cbn [App.handle].
  - apply settle_template; [exact H|]. intros s w' E.
    exact (template_inv_frame _ _ (addDataPoint_frame _ _ _ _ _ _ _ E) H).
  - apply settle_template; [exact H|]. intros s w' E. inversion E as [[E1 E2]].
    exact (template_inv_frame _ _ (removeDataPoint_frame _ _ _ E1) H).
  - apply settle_template; [exact H|]. intros s w' E. inversion E as [[E1 E2]].
    exact (template_inv_frame _ _ (updateDataPoint_frame _ _ _ _ _ E1) H).
  - cbn [fst]. unfold App.updateStateFromForm.
    repeat apply assign_input_template. exact H.
  - cbn [fst]. unfold template_inv. rewrite prop_assign_same. reflexivity.
  - destruct (ShareLink.loadStateFromURL h w) as [data w1] eqn:L.
    destruct (truthy data) eqn:T; [|exact H].
    destruct (loadStateFromURL_data h w w1 data L T) as (st & ps & ->).
    apply loadState_template. exact H.
Qed.

Lemma startup_template (svg canvas : bool) (h : jsstring) (w : world) :
  template_inv (fst (App.startup svg canvas h w)) = true.
Proof.
  unfold App.startup. destruct (negb svg || negb canvas); [reflexivity|].
  destruct (ShareLink.loadStateFromURL h w) as [data w1] eqn:L.
  destruct (truthy data) eqn:T.
  - destruct (loadStateFromURL_data h w w1 data L T) as (st & ps & ->).
    apply loadState_template. reflexivity.
  - apply settle_template; [reflexivity|]. intros s w' E.
    unfold App.addDefaultDataPoints, bind in E.
    destruct (App.addDataPoint _ _ _ _ w1) as [[s4|] w4] eqn:E4; [|discriminate].
    destruct (App.addDataPoint _ _ _ s4 w4) as [[s5|] w5] eqn:E5; [|discriminate].
    apply addDataPoint_frame in E4, E5, E.
    apply (template_inv_frame _ _ E). apply (template_inv_frame _ _ E5).
    apply (template_inv_frame _ _ E4). reflexivity.
Qed.

Lemma run_template (evs : list App.event) : forall s,
  template_inv (fst s) = true -> template_inv (fst (App.run evs s)) = true.
Proof.
  induction evs as [|ev r IH]; intros s H; [exact H|].
  cbn [App.run]. apply IH. apply handle_template. exact H.
Qed.

End Frame.

Section Preview.

Variable h : Templates.store.
Variable template : Templates.loc.

Lemma circles_app (a b : list Matrix.node) : circles (a ++ b) = circles a ++ circles b.
Proof. apply flat_map_app. Qed.

Lemma filters_no_circle : circles (Matrix.generateSVGFilters h template) = [].
Proof. unfold Matrix.generateSVGFilters. destruct (negb _); reflexivity. Qed.

Lemma title_no_circle (title subtitle : jsstring) (d : Matrix.dims) :
  circles (Matrix.generateTitle h template title subtitle d) = [].
Proof. unfold Matrix.generateTitle. destruct (is_nil subtitle); reflexivity. Qed.

Lemma label_lines_no_circle (f : nat -> jsstring -> list (string * Matrix.attr))
    (lines : list jsstring) : forall i,
  circles (Matrix.mapi (fun index line =>
             Matrix.Elem "text" (f index line)
               [Matrix.Text (Matrix.escapeXml (VStr line))]) i lines) = [].
Proof.
  induction lines as [|l r IH]; intros i; [reflexivity|].
  cbn [Matrix.mapi]. change (circles (?a :: ?b)) with (circles [a] ++ circles b).
  rewrite IH. reflexivity.
Qed.

Lemma quadrant_label_no_circle (text : jsstring) (qx qy opacity fontSize : number) :
  circles [Matrix.generateQuadrantLabel h template text qx qy opacity fontSize] = [].
Proof.
  unfold Matrix.generateQuadrantLabel, circles. cbn [flat_map Matrix.elements].
  rewrite app_nil_r. cbn [String.eqb Ascii.eqb Bool.eqb app].
  apply label_lines_no_circle.
Qed.

Lemma quadrants_no_circle (p : Matrix.area) :
  circles (Matrix.generateQuadrants h template p) = [].
Proof.
  unfold Matrix.generateQuadrants. rewrite circles_app.
  replace (circles [_; _; _; _]) with (@nil Matrix.node) by reflexivity.
  destruct (Templates.t_truthy _); [|reflexivity].
  cbv zeta. change [?a; ?b; ?c; ?d] with ([a] ++ [b] ++ [c] ++ [d]).
  rewrite !circles_app, !quadrant_label_no_circle. reflexivity.
Qed.

Lemma background_no_circle (d : Matrix.dims) :
  circles (Matrix.generateBackground h template d) = [].
Proof. reflexivity. Qed.

Lemma axes_no_circle (p : Matrix.area) (xAxisName yAxisName : jsstring) :
  circles [Matrix.generateAxes h template p xAxisName yAxisName] = [].
Proof. reflexivity. Qed.

Lemma grid_no_circle (p : Matrix.area) (b : bool) :
  circles (if b then [Matrix.generateGrid h template p] else []) = [].
Proof. destruct b; reflexivity. Qed.

Lemma footer_no_circle (d : Matrix.dims) (b : bool) :
  circles (if b then [Matrix.generateFooter h template d] else []) = [].
Proof. destruct b; reflexivity. Qed.

Lemma point_inv_drawn (q : value) :
  point_inv q = true ->
  nullish q = false
  /\ (drawable q = true ->
      convertible (field q "x") = true /\ convertible (field q "y") = true).
Proof.
  intros H. split; [apply point_inv_obj; exact H|]. intros _.
  destruct q; try discriminate H. cbn [point_inv] in H.
  apply andb_prop in H as [H Hy]. apply andb_prop in H as [_ Hx].
  destruct (field (VObj fs) "x"); try discriminate Hx.
  destruct (field (VObj fs) "y"); try discriminate Hy.
  split; reflexivity.
Qed.

Lemma drawn_count (pts : list value) : forall n,
  length (drawn_indices n pts) = length (filter drawable pts).
Proof.
  induction pts as [|q r IH]; intros n; [reflexivity|].
  cbn [drawn_indices filter]. rewrite length_app, IH.
  destruct (drawable q); reflexivity.
Qed.

(** the renderer returns a scene for data whose points are objects with
    numbers for coordinates, with one circle for each point that has a
    label *)
Lemma render_state (state : App.obj) (name : jsstring) (includeFooter : bool)
    (pts : list value) :
  App.prop state "dataPoints" = VArr pts -> forallb point_inv pts = true ->
  exists scene,
    Matrix.render h template (VObj state) name includeFooter = Ok scene
    /\ length (Matrix.elements "circle" scene) = length (filter drawable pts).
Proof.
  intros Ep Hp. unfold Matrix.render.
  change (get (VObj state) "title") with (Ok (App.prop state "title")).
  change (get (VObj state) "subtitle") with (Ok (App.prop state "subtitle")).
  change (get (VObj state) "xAxisName") with (Ok (App.prop state "xAxisName")).
  change (get (VObj state) "yAxisName") with (Ok (App.prop state "yAxisName")).
  change (get (VObj state) "dataPoints") with (Ok (App.prop state "dataPoints")).
  cbn [rbind]. rewrite Ep. cbn [Matrix.points_to_draw rbind].
  assert (Hd : Forall (fun q => nullish q = false
                                /\ (drawable q = true ->
                                    convertible (field q "x") = true
                                    /\ convertible (field q "y") = true)) pts).
  { apply Forall_forall. intros q Hq. apply point_inv_drawn.
    rewrite forallb_forall in Hp. auto. }
  set (area := Matrix.plotArea h template _ _).
  destruct (drawPoints_fills h template area name pts Hd 0) as (nodes & En & Fn).
  assert (Cn : length (circles nodes) = length (filter drawable pts)).
  { apply (f_equal (@length _)) in Fn. unfold fills in Fn. rewrite !length_map in Fn.
    rewrite Fn. apply drawn_count. }
  assert (Ep' : exists points,
            match pts with
            | [] => Ok []
            | _ :: _ => rbind (Matrix.generateDataPoints h template pts area name)
                          (fun g => Ok [g])
            end = Ok points
            /\ length (circles points) = length (filter drawable pts)).
  { destruct pts as [|p0 r]; [exists []; split; reflexivity|].
    unfold Matrix.generateDataPoints. rewrite En. cbn [rbind]. eexists.
    split; [reflexivity|]. rewrite <- Cn. unfold circles. cbn [flat_map Matrix.elements].
    rewrite app_nil_r. reflexivity. }
  destruct Ep' as (points & -> & Cp). cbn [rbind]. eexists. split; [reflexivity|].
  match goal with
  | |- length (Matrix.elements "circle" (Matrix.Elem _ _ ?c)) = _ =>
      change (length (circles c) = length (filter drawable pts))
  end.
  rewrite !circles_app, filters_no_circle, title_no_circle, quadrants_no_circle.
  rewrite background_no_circle, axes_no_circle, grid_no_circle, footer_no_circle.
  cbn [app]. rewrite app_nil_r. exact Cp.
Qed.

End Preview.

(** X20: whatever link the page is opened with and whatever the user does
    then, as long as no template name is chosen that the registry object
    inherits from [Object.prototype], [generateMatrix] returns a scene
    for the state, with or without footer: the preview never fails.  The
    scene has one circle for each point of the state that has a label. *)
Theorem preview_never_fails (svg canvas : bool) (location_hash : jsstring)
    (evs : list App.event) (w : world) (includeFooter : bool) :
  forallb offered evs = true ->
  exists scene h' pts,
    Matrix.generateMatrix Templates.registry
      (VObj (fst (App.run evs (App.startup svg canvas location_hash w)))) includeFooter
    = (Ok scene, h')
    /\ App.prop (fst (App.run evs (App.startup svg canvas location_hash w))) "dataPoints"
       = VArr pts
    /\ length (Matrix.elements "circle" scene) = length (filter drawable pts).
Proof.
  intros _. set (state := fst (App.run evs (App.startup svg canvas location_hash w))).
  assert (H : state_inv state = true)
    by (apply run_inv; apply startup_inv).
  assert (Ht : template_inv state = true)
    by (apply run_template; apply startup_template).
  destruct (state_inv_points state H) as (pts & Ep & Hp).
  unfold template_inv in Ht. unfold Matrix.generateMatrix.
  change (get (VObj state) "template") with (Ok (App.prop state "template")).
  destruct (App.prop state "template") as [| | | |tm| |] eqn:Et; try discriminate Ht.
  assert (To : exists name, toStr (or_else (VStr tm) (VStr (lit "modern"))) = Ok name).
  { unfold or_else. destruct (truthy (VStr tm)); eexists; reflexivity. }
  destruct To as [name ->]. cbn [toStr].
  destruct (Templates.getTemplate Templates.registry name) as [template h1].
  destruct (render_state h1 template state tm includeFooter pts Ep Hp) as (scene & -> & C).
  exists scene, h1, pts. auto.
Qed.

Lemma preview_never_fails_witness :
  forallb offered sample_session = true
  /\ exists scene h' pts,
       Matrix.generateMatrix Templates.registry
         (VObj (fst (App.run sample_session (App.startup true true [] sample_world))))
         false
       = (Ok scene, h')
       /\ App.prop (fst (App.run sample_session (App.startup true true [] sample_world)))
            "dataPoints" = VArr pts
       /\ length (Matrix.elements "circle" scene) = length (filter drawable pts).
Proof.
  split; [reflexivity|].
  exact (preview_never_fails true true [] sample_session sample_world false eq_refl).
Defined.

(** * decodeState followed by sanitizeState *)

Section DecodeSanitize.

Lemma decoded_points_in (w : world) (q : value) (ps : list value) : forall n,
  In q (decoded_points w n ps) ->
  exists p m, In p ps
              /\ q = mk_point (field p "l") (field p "x") (field p "y")
                       (VStr (point_id w m)).
Proof.
  induction ps as [|p r IH]; intros n H; [contradiction|].
  destruct H as [<-|H].
  - exists p, n. split; [left; reflexivity | reflexivity].
  - destruct (IH (S n) H) as (p' & m & Hin & E). exists p', m. split; [right|]; assumption.
Qed.

Lemma repairable_chart_of (st : value) (ps : list value) (w : world) :
  loadable st ps = true -> repairable (chart_of st ps w) = true.
Proof.
  unfold loadable. intros H.
  apply andb_prop in H as [H Hp]. apply andb_prop in H as [H Hy].
  apply andb_prop in H as [H Hx]. apply andb_prop in H as [Ht Hs].
  unfold repairable. change (truthy (chart_of st ps w)) with true.
  change (field (chart_of st ps w) "title") with (or_else (field st "t") (VStr [])).
  change (field (chart_of st ps w) "subtitle") with (or_else (field st "s") (VStr [])).
  change (field (chart_of st ps w) "xAxisName") with (or_else (field st "x") (VStr [])).
  change (field (chart_of st ps w) "yAxisName") with (or_else (field st "y") (VStr [])).
  destruct (text_ok_or_else _ [] Ht) as [t' ->].
  destruct (text_ok_or_else _ [] Hs) as [s' ->].
  destruct (text_ok_or_else _ [] Hx) as [x' ->].
  destruct (text_ok_or_else _ [] Hy) as [y' ->].
  cbn [text_ok andb].
  apply forallb_forall. intros q Hq. unfold kept_points in Hq.
  change (field (chart_of st ps w) "dataPoints")
    with (VArr (decoded_points w (tick w) ps)) in Hq.
  assert (Hin : In q (filter Share.has_label (decoded_points w (tick w) ps))).
  { eapply in_firstn. exact Hq. }
  apply filter_In in Hin as [Hin Hl].
  destruct (decoded_points_in w q ps _ Hin) as (p & m & Hp' & ->).
  rewrite forallb_forall in Hp. specialize (Hp p Hp').
  apply andb_prop in Hp as [Hp Cy]. apply andb_prop in Hp as [Tl Cx].
  apply has_label_label in Hl.
  change (field (mk_point _ _ _ _) "label") with (field p "l") in *.
  change (field (mk_point _ _ _ _) "x") with (field p "x").
  change (field (mk_point _ _ _ _) "y") with (field p "y").
  rewrite Cx, Cy. unfold text_ok in Tl.
  destruct (field p "l"); try reflexivity; rewrite Hl in Tl; discriminate Tl.
Qed.

End DecodeSanitize.


